(** * Sakulink: queue engine, playback state machine, node lifecycle

    A shallow embedding of the TypeScript sources of the Lavalink client
    (structures/Queue, structures/Player, structures/Node, structures/Manager,
    structures/Utils) together with the properties stated about them.

    Conventions of the embedding
    - JavaScript numbers that the modelled code uses as indices, counters,
      positions or volumes are integers ([Z]); [NaN] and fractional values
      are outside the model.  Filter gains are floating point values that
      the modelled code only copies; they are carried as [float].
    - [null] and [undefined] of an object-valued slot are both [None].
    - An exception is a [Throw] result; state changes made before the
      throw are kept where the source makes them before throwing.
    - Objects referenced from several places (nodes, players) are kept in
      the manager's collections and referenced by their key. *)

From Stdlib Require Import ZArith Lia Bool Sorted.
From Stdlib Require Import Floats.PrimFloat.
From stdpp Require Import gmap strings list fin_maps.

Local Open Scope Z_scope.

(* ===================================================================== *)
(** ** Results and errors *)

(** The errors thrown by the modelled methods, one constructor per
    [throw] statement of the sources. *)
Inductive Error : Type :=
  | ErrInvalidTrack          (* RangeError: Track must be a "Track" or "Track[]". *)
  | ErrOffsetRange (len : Z) (* RangeError: Offset must be between 0 and len. *)
  | ErrInvalidStartEnd       (* RangeError: Invalid start or end values. *)
  | ErrQueueSize             (* RangeError: The queue size must be greater than 1. *)
  | ErrNoCurrentTrack        (* RangeError: No current track. *)
  | ErrNoVoiceChannel        (* RangeError: No voice channel has been set. *)
  | ErrNoNodesAvailable      (* RangeError: No nodes available. *)
  | ErrNoAvailableNodes      (* RangeError: No available nodes. *)
  | ErrPlayerOptionGuild     (* TypeError: Player option "guild" must be present ... *)
  | ErrDataMissing           (* RangeError: Argument 'data' must be present. *)
  | ErrNoData                (* Error: No data returned from query. *)
  | ErrNullDereference.      (* TypeError raised by reading a property of null/undefined *)

Inductive Result (A : Type) : Type :=
  | Ok (a : A)
  | Throw (e : Error).
Arguments Ok {A} a.
Arguments Throw {A} e.

Definition is_ok {A} (r : Result A) : bool :=
  match r with Ok _ => true | Throw _ => false end.

(* ===================================================================== *)
(** ** JavaScript array primitives on lists *)

Module JsArray.
Section Ops.
Context {A : Type}.

Definition len (l : list A) : Z := Z.of_nat (length l).

(** [Array.prototype.splice(start, deleteCount, ...ins)]: a negative
    [start] counts from the end, both bounds are clamped to the array.
    [deleteCount = None] is the call with a single argument, which
    deletes up to the end.  Returns the removed elements and the array
    after the call. *)
Definition actualStart (start : Z) (l : list A) : nat :=
  if start <? 0 then Z.to_nat (Z.max (len l + start) 0)
  else Z.to_nat (Z.min start (len l)).

Definition actualDeleteCount (start : Z) (deleteCount : option Z) (l : list A) : nat :=
  let s := Z.of_nat (actualStart start l) in
  match deleteCount with
  | None => Z.to_nat (len l - s)
  | Some dc => Z.to_nat (Z.min (Z.max dc 0) (len l - s))
  end.

Definition splice (start : Z) (deleteCount : option Z) (ins : list A) (l : list A)
  : list A * list A :=
  let s := actualStart start l in
  let d := actualDeleteCount start deleteCount l in
  (take d (drop s l), take s l ++ ins ++ drop (s + d)%nat l).

(** [shift()] removes and returns the first element, [undefined] on an
    empty array. *)
Definition shift (l : list A) : option A * list A :=
  match l with
  | [] => (None, [])
  | x :: l' => (Some x, l')
  end.

Definition unshift (x : A) (l : list A) : list A := x :: l.

Definition push (xs : list A) (l : list A) : list A := l ++ xs.

(** [[a[i], a[j]] = [a[j], a[i]]] for indices inside the array. *)
Definition swap (i j : nat) (l : list A) : list A :=
  match l !! i, l !! j with
  | Some x, Some y => <[j:=x]> (<[i:=y]> l)
  | _, _ => l
  end.
End Ops.
End JsArray.

(* ===================================================================== *)
(** ** Tracks (structures/Player.ts, structures/Utils.ts) *)

(** The hidden symbol property an object carries: [TrackUtils.build]
    defines [TRACK_SYMBOL], [TrackUtils.buildUnresolved] defines
    [UNRESOLVED_TRACK_SYMBOL]; any other object carries neither. *)
Inductive Symbol : Type := TRACK_SYMBOL | UNRESOLVED_TRACK_SYMBOL | NO_SYMBOL.

Module Track.
Record t : Type := mk {
  track : option string;      (* the encoded payload; absent before resolution *)
  title : string;
  author : option string;
  duration : option Z;
  identifier : option string;
  sourceName : option string;
  uri : option string;
  symbol : Symbol
}.
End Track.

(** The argument of [Queue.add] and [TrackUtils.validate]: one object or
    an array of objects. *)
Inductive TrackArg : Type :=
  | One (t : Track.t)
  | Many (ts : list Track.t).

Module TrackUtils.

Definition has_symbol (t : Track.t) : bool :=
  match Track.symbol t with
  | NO_SYMBOL => false
  | _ => true
  end.

(** [TrackUtils.validate]: a non-empty array is valid when every
    element carries one of the two symbols; an empty array falls
    through to the property test on the array object, which fails. *)
Definition validate (a : TrackArg) : bool :=
  match a with
  | Many [] => false
  | Many ts => forallb has_symbol ts
  | One t => has_symbol t
  end.

Definition isUnresolvedTrack (t : Track.t) : bool :=
  match Track.symbol t with
  | UNRESOLVED_TRACK_SYMBOL => true
  | _ => false
  end.

End TrackUtils.

(* ===================================================================== *)
(** ** The queue (structures/Queue.ts) *)

Module Queue.

(** [Queue extends Array]: [items] is the array part (the pending
    sequence), [current] and [previous] are the two extra slots. *)
Record t : Type := mk {
  current : option Track.t;
  previous : option Track.t;
  items : list Track.t
}.

Definition empty : t := {| current := None; previous := None; items := [] |}.

Definition set_current (c : option Track.t) (q : t) : t :=
  {| current := c; previous := previous q; items := items q |}.
Definition set_previous (p : option Track.t) (q : t) : t :=
  {| current := current q; previous := p; items := items q |}.
Definition set_items (l : list Track.t) (q : t) : t :=
  {| current := current q; previous := previous q; items := l |}.

Definition length (q : t) : Z := JsArray.len (items q).

(** [get totalSize()]: [this.length + (this.current ? 1 : 0)]. *)
Definition totalSize (q : t) : Z :=
  length q + (match current q with Some _ => 1 | None => 0 end).

Definition size (q : t) : Z := totalSize q.

(** [add(track, offset?)]. *)
Definition add (a : TrackArg) (offset : option Z) (q : t) : Result t :=
  if negb (TrackUtils.validate a) then Throw ErrInvalidTrack
  else
    match current q with
    | None =>
        match a with
        | Many ts =>
            (* this.current = track.shift() || null; this.push(...track) *)
            let '(h, rest) := JsArray.shift ts in
            Ok (set_items (JsArray.push rest (items q)) (set_current h q))
        | One x => Ok (set_current (Some x) q)
        end
    | Some _ =>
        match offset with
        | Some off =>
            if (off <? 0) || (off >? length q) then Throw (ErrOffsetRange (length q))
            else
              let ins := match a with Many ts => ts | One x => [x] end in
              Ok (set_items (snd (JsArray.splice off (Some 0) ins (items q))) q)
        | None =>
            let ins := match a with Many ts => ts | One x => [x] end in
            Ok (set_items (JsArray.push ins (items q)) q)
        end
    end.

(** [remove(startOrPosition = 0, end?)]: the removed elements and the
    queue after the call. *)
Definition remove (startOrPosition : option Z) (end_ : option Z) (q : t)
  : Result (list Track.t * t) :=
  let start := default 0 startOrPosition in
  match end_ with
  | Some e =>
      if (start >=? e) || (start >=? length q) then Throw ErrInvalidStartEnd
      else
        let '(removed, rest) := JsArray.splice start (Some (e - start)) [] (items q) in
        Ok (removed, set_items rest q)
  | None =>
      let '(removed, rest) := JsArray.splice start (Some 1) [] (items q) in
      Ok (removed, set_items rest q)
  end.

(** [clear()]: [this.splice(0)]. *)
Definition clear (q : t) : t :=
  set_items (snd (JsArray.splice 0 None [] (items q))) q.

(** [shuffle()]: the loop runs [i] from [length - 1] down to [1] and
    swaps positions [i] and [j = floor(Math.random() * (i + 1))].  The
    random source is the oracle [rnd]; the index drawn at step [i] is
    [rnd i mod (i + 1)], any value of [0..i]. *)
Fixpoint shuffle_loop (rnd : nat -> nat) (i : nat) (l : list Track.t) : list Track.t :=
  match i with
  | O => l
  | S i' => shuffle_loop rnd i' (JsArray.swap i (rnd i mod (S i))%nat l)
  end.

Definition shuffle (rnd : nat -> nat) (q : t) : t :=
  set_items (shuffle_loop rnd (Nat.pred (List.length (items q))) (items q)) q.

(** The inherited array methods the event router calls on the queue. *)
Definition shift (q : t) : option Track.t * t :=
  let '(h, rest) := JsArray.shift (items q) in (h, set_items rest q).

Definition unshift (x : Track.t) (q : t) : t :=
  set_items (JsArray.unshift x (items q)) q.

End Queue.

(* ===================================================================== *)
(** ** Insertion-ordered collections (the manager's [Collection]s) *)

Module Collection.
Section Ops.
Context {V : Type}.

(** A [Map] keeps its entries in insertion order; [set] on a present
    key replaces the value in place. *)
Definition t := list (string * V).

Definition get (k : string) (c : t) : option V :=
  snd <$> List.find (fun kv => String.eqb (fst kv) k) c.

Definition has (k : string) (c : t) : bool :=
  match get k c with Some _ => true | None => false end.

Fixpoint replace (k : string) (v : V) (c : t) : t :=
  match c with
  | [] => []
  | (k', v') :: c' =>
      if String.eqb k' k then (k', v) :: c' else (k', v') :: replace k v c'
  end.

Definition set (k : string) (v : V) (c : t) : t :=
  if has k c then replace k v c else c ++ [(k, v)].

Definition delete (k : string) (c : t) : t :=
  List.filter (fun kv => negb (String.eqb (fst kv) k)) c.

Definition filter (f : V -> bool) (c : t) : t :=
  List.filter (fun kv => f (snd kv)) c.

Definition first (c : t) : option V := snd <$> head c.

Definition size (c : t) : nat := List.length c.

Definition keys (c : t) : list string := fst <$> c.

(** [sort(compare)]: a stable sort; [before a b] is the test
    [compare(a, b) < 0].  An entry is placed behind exactly the later
    entries that compare strictly before it. *)
Fixpoint insert_sorted (before : V -> V -> bool) (x : string * V) (c : t) : t :=
  match c with
  | [] => [x]
  | y :: c' =>
      if before (snd y) (snd x) then y :: insert_sorted before x c' else x :: y :: c'
  end.

Definition sort (before : V -> V -> bool) (c : t) : t :=
  fold_right (insert_sorted before) [] c.
End Ops.
Arguments t : clear implicits.
End Collection.

#[global] Arguments Collection.get : simpl never.
#[global] Arguments Collection.set : simpl never.
#[global] Arguments Collection.delete : simpl never.
#[global] Arguments Collection.has : simpl never.

(* ===================================================================== *)
(** ** Filters (structures/Filters.ts) *)

Module Filters.

Record Band : Type := mkBand { band : Z; gain : float }.

(** [distortionOptions], [karaokeOptions], [rotationOptions],
    [timescaleOptions] and [vibratoOptions] are objects of optional
    numeric fields. *)
Definition Options : Type := list (string * float).

Record t : Type := mk {
  distortion : option Options;
  equalizer : list Band;
  karaoke : option Options;
  rotation : option Options;
  timescale : option Options;
  vibrato : option Options;
  volume : float
}.

(** The constructor's initial values. *)
Definition init : t :=
  {| distortion := None; equalizer := []; karaoke := None; rotation := None;
     timescale := None; vibrato := None; volume := 1%float |}.

End Filters.

(* ===================================================================== *)
(** ** Players (structures/Player.ts): the data *)

Inductive State : Type :=
  | DISCONNECTED | CONNECTING | CONNECTED | DISCONNECTING | DESTROYING
  | MOVING | RESUMING.

Module Player.

Record Options : Type := mkOptions {
  o_guild : string;
  o_textChannel : option string;
  o_voiceChannel : option string;
  o_node : option string;
  o_volume : option Z;
  o_selfMute : option bool;
  o_selfDeafen : option bool;
  o_data : option (gmap string string)
}.

(** [voiceState]: the cached voice-server event and session id. *)
Record VoiceEvent : Type := mkVoiceEvent { token : string; endpoint : string }.
Record VoiceState : Type := mkVoiceState {
  event : option VoiceEvent;
  vs_sessionId : option string
}.

Record NowPlayingMessage : Type := mkMessage { channelId : string; deleted : bool }.

Record t : Type := mk {
  options : Options;
  queue : Queue.t;
  filters : Filters.t;
  trackRepeat : bool;
  queueRepeat : bool;
  dynamicRepeat : bool;
  position : Z;
  playing : bool;
  paused : bool;
  volume : Z;
  isAutoplay : bool;
  node : string;                      (* identifier of the owning node *)
  guild : string;
  voiceChannel : option string;
  textChannel : option string;
  nowPlayingMessage : option NowPlayingMessage;
  state : State;
  voiceState : VoiceState;
  data : gmap string string;
  dynamicLoopInterval : option nat    (* handle of the shuffle interval *)
}.

Definition set_queue (q : Queue.t) (p : t) : t :=
  mk (options p) q (filters p) (trackRepeat p) (queueRepeat p) (dynamicRepeat p)
     (position p) (playing p) (paused p) (volume p) (isAutoplay p) (node p) (guild p)
     (voiceChannel p) (textChannel p) (nowPlayingMessage p) (state p) (voiceState p)
     (data p) (dynamicLoopInterval p).
Definition set_filters (f : Filters.t) (p : t) : t :=
  mk (options p) (queue p) f (trackRepeat p) (queueRepeat p) (dynamicRepeat p)
     (position p) (playing p) (paused p) (volume p) (isAutoplay p) (node p) (guild p)
     (voiceChannel p) (textChannel p) (nowPlayingMessage p) (state p) (voiceState p)
     (data p) (dynamicLoopInterval p).
Definition set_repeat (tr qr dr : bool) (p : t) : t :=
  mk (options p) (queue p) (filters p) tr qr dr
     (position p) (playing p) (paused p) (volume p) (isAutoplay p) (node p) (guild p)
     (voiceChannel p) (textChannel p) (nowPlayingMessage p) (state p) (voiceState p)
     (data p) (dynamicLoopInterval p).
Definition set_position (x : Z) (p : t) : t :=
  mk (options p) (queue p) (filters p) (trackRepeat p) (queueRepeat p) (dynamicRepeat p)
     x (playing p) (paused p) (volume p) (isAutoplay p) (node p) (guild p)
     (voiceChannel p) (textChannel p) (nowPlayingMessage p) (state p) (voiceState p)
     (data p) (dynamicLoopInterval p).
Definition set_playing (b : bool) (p : t) : t :=
  mk (options p) (queue p) (filters p) (trackRepeat p) (queueRepeat p) (dynamicRepeat p)
     (position p) b (paused p) (volume p) (isAutoplay p) (node p) (guild p)
     (voiceChannel p) (textChannel p) (nowPlayingMessage p) (state p) (voiceState p)
     (data p) (dynamicLoopInterval p).
Definition set_paused (b : bool) (p : t) : t :=
  mk (options p) (queue p) (filters p) (trackRepeat p) (queueRepeat p) (dynamicRepeat p)
     (position p) (playing p) b (volume p) (isAutoplay p) (node p) (guild p)
     (voiceChannel p) (textChannel p) (nowPlayingMessage p) (state p) (voiceState p)
     (data p) (dynamicLoopInterval p).
Definition set_volume (x : Z) (p : t) : t :=
  mk (options p) (queue p) (filters p) (trackRepeat p) (queueRepeat p) (dynamicRepeat p)
     (position p) (playing p) (paused p) x (isAutoplay p) (node p) (guild p)
     (voiceChannel p) (textChannel p) (nowPlayingMessage p) (state p) (voiceState p)
     (data p) (dynamicLoopInterval p).
Definition set_node (n : string) (p : t) : t :=
  mk (options p) (queue p) (filters p) (trackRepeat p) (queueRepeat p) (dynamicRepeat p)
     (position p) (playing p) (paused p) (volume p) (isAutoplay p) n (guild p)
     (voiceChannel p) (textChannel p) (nowPlayingMessage p) (state p) (voiceState p)
     (data p) (dynamicLoopInterval p).
Definition set_voiceChannel (c : option string) (p : t) : t :=
  mk (options p) (queue p) (filters p) (trackRepeat p) (queueRepeat p) (dynamicRepeat p)
     (position p) (playing p) (paused p) (volume p) (isAutoplay p) (node p) (guild p)
     c (textChannel p) (nowPlayingMessage p) (state p) (voiceState p)
     (data p) (dynamicLoopInterval p).
Definition set_state (s : State) (p : t) : t :=
  mk (options p) (queue p) (filters p) (trackRepeat p) (queueRepeat p) (dynamicRepeat p)
     (position p) (playing p) (paused p) (volume p) (isAutoplay p) (node p) (guild p)
     (voiceChannel p) (textChannel p) (nowPlayingMessage p) s (voiceState p)
     (data p) (dynamicLoopInterval p).
Definition set_dynamicLoopInterval (h : option nat) (p : t) : t :=
  mk (options p) (queue p) (filters p) (trackRepeat p) (queueRepeat p) (dynamicRepeat p)
     (position p) (playing p) (paused p) (volume p) (isAutoplay p) (node p) (guild p)
     (voiceChannel p) (textChannel p) (nowPlayingMessage p) (state p) (voiceState p)
     (data p) h.

End Player.

(* ===================================================================== *)
(** ** Nodes (structures/Node.ts): the data *)

(** A JavaScript number that may be [Infinity] (the default retry
    ceiling). *)
Inductive Num : Type := Finite (z : Z) | Infinity.

(** [a >= b] for a finite [a]. *)
Definition geb_num (a : Z) (b : Num) : bool :=
  match b with
  | Finite z => a >=? z
  | Infinity => false
  end.

Module WebSocket.
Inductive ReadyState : Type := CONNECTING | OPEN | CLOSING | CLOSED.

Definition is_open (s : ReadyState) : bool :=
  match s with OPEN => true | _ => false end.
End WebSocket.

Module Node.

Inductive Version : Type := v3 | v4.

(** The options after the constructor has filled in the defaults. *)
Record Options : Type := mkOptions {
  host : string;
  port : Z;
  password : string;
  secure : bool;
  identifier : string;
  retryAmount : Num;
  retryDelay : Z;
  search : bool;
  playback : bool;
  version : Version
}.

Record CPUStats : Type := mkCpu { cores : float; systemLoad : float; lavalinkLoad : float }.

Record Stats : Type := mkStats {
  stat_players : Z;
  playingPlayers : Z;
  uptime : Z;
  cpu : option CPUStats
}.

Definition initStats : Stats :=
  {| stat_players := 0; playingPlayers := 0; uptime := 0;
     cpu := Some {| cores := 0%float; systemLoad := 0%float; lavalinkLoad := 0%float |} |}.

Record t : Type := mk {
  options : Options;
  socket : option WebSocket.ReadyState;   (* the socket and its readyState *)
  stats : Stats;
  sessionId : option string;
  reconnectTimeout : option nat;          (* handle of the last reconnect timer *)
  reconnectAttempts : Z
}.

Definition set_socket (s : option WebSocket.ReadyState) (n : t) : t :=
  mk (options n) s (stats n) (sessionId n) (reconnectTimeout n) (reconnectAttempts n).
Definition set_stats (s : Stats) (n : t) : t :=
  mk (options n) (socket n) s (sessionId n) (reconnectTimeout n) (reconnectAttempts n).
Definition set_sessionId (s : option string) (n : t) : t :=
  mk (options n) (socket n) (stats n) s (reconnectTimeout n) (reconnectAttempts n).
Definition set_reconnectTimeout (h : option nat) (n : t) : t :=
  mk (options n) (socket n) (stats n) (sessionId n) h (reconnectAttempts n).
Definition set_reconnectAttempts (a : Z) (n : t) : t :=
  mk (options n) (socket n) (stats n) (sessionId n) (reconnectTimeout n) a.

(** [get connected()]. *)
Definition connected (n : t) : bool :=
  match socket n with
  | None => false
  | Some s => WebSocket.is_open s
  end.

(** A node as the constructor leaves it. *)
Definition new (o : Options) : t :=
  {| options := o; socket := None; stats := initStats; sessionId := None;
     reconnectTimeout := None; reconnectAttempts := 1 |}.

End Node.

(* ===================================================================== *)
(** ** The manager's state and the effects of the modelled code *)

Inductive NodeErr : Type :=
  | UnableToConnect (retryAmount : Num)  (* Unable to connect after N attempts. *)
  | UnexpectedOp (op : string)
  | UnknownEvent (type : string)
  | SocketError (msg : string).

(** The domain events passed to [manager.emit]. *)
Inductive Event : Type :=
  | nodeCreate (node : string)
  | nodeDestroy (node : string)
  | nodeConnect (node : string)
  | nodeReconnect (node : string)
  | nodeDisconnect (node : string) (code : Z) (reason : string)
  | nodeError (node : string) (err : NodeErr)
  | nodeRaw (op : string)
  | playerCreate (guild : string)
  | playerDestroy (guild : string)
  | trackStart (guild : string) (tr : option Track.t)
  | trackEnd (guild : string) (tr : option Track.t) (reason : string)
  | trackStuck (guild : string) (tr : option Track.t)
  | trackError (guild : string) (tr : option Track.t)
  | queueEnd (guild : string) (tr : option Track.t)
  | socketClosed (guild : string).

Record Voice : Type := mkVoice {
  v_token : string;
  v_endpoint : string;
  v_sessionId : option string
}.

(** The body of an update-player request.  A field that is absent or
    [undefined] is [None]. *)
Record UpdateData : Type := mkUpdate {
  encodedTrack : option string;
  ud_position : option Z;
  ud_volume : option Z;
  ud_paused : option bool;
  ud_filters : option Filters.t;
  ud_voice : option Voice
}.

Definition noUpdate : UpdateData :=
  {| encodedTrack := None; ud_position := None; ud_volume := None; ud_paused := None;
     ud_filters := None; ud_voice := None |}.

Inductive RestCall : Type :=
  | UpdatePlayer (guild : string) (data : UpdateData)
  | DestroyPlayer (guild : string)
  | GetAllPlayers
  | GetPlayer (guild : string)
  | PatchSession (resuming : bool) (timeout : Z).

(** Calls of async methods whose promise the caller does not await. *)
Inductive Task : Type :=
  | TaskPlay (guild : string)
  | TaskMoveNode (guild : string)
  | TaskAutoplay (guild : string) (tr : option Track.t).

(** Everything the modelled code sends out, in the order it happens. *)
Inductive Effect : Type :=
  | Emit (e : Event)
  | Rest (node : string) (c : RestCall)
  | Send (guild : string) (channel_id : option string) (self_mute self_deaf : bool)
  | SocketOpen (node : string) (session : option string)
  | SocketClose (node : string) (code : Z) (reason : string)
  | MessageDelete (channelId : string)
  | Spawn (task : Task).

(** The per-guild snapshot written by [Player.save]; a field that the
    stored object lacks is [None]. *)
Record Snapshot : Type := mkSnapshot {
  s_guild : option string;
  s_voiceChannel : option string;
  s_textChannel : option string;
  s_volume : option Z;
  s_data : option (gmap string string);
  s_selfDeafen : option bool;
  s_selfMute : option bool;
  s_isAutoplay : option bool;
  s_current : option string;
  s_queue : option (list (option string))
}.

(** [db.get(key) || {}]. *)
Definition emptySnapshot : Snapshot :=
  mkSnapshot None None None None None None None None None None.

Inductive DbValue : Type :=
  | DbSession (sid : option string)
  | DbPlayer (s : Snapshot).

Inductive Timer : Type :=
  | ReconnectTick (node : string)
  | MoveGrace (guild : string)
  | DynamicLoop (guild : string).

Module Manager.

Record Options : Type := mkOptions {
  autoPlay : bool;
  autoResume : bool;
  autoMove : bool;
  clientId : string
}.

(** The manager's collections and options, the persisted store, the
    pending timers of the event loop and the trace of effects. *)
Record t : Type := mk {
  options : Options;
  nodes : Collection.t Node.t;
  players : Collection.t Player.t;
  db : gmap string DbValue;
  timers : list (nat * Timer);     (* pending timers by handle *)
  nextHandle : nat;
  trace : list Effect              (* oldest first *)
}.

Definition set_nodes (x : Collection.t Node.t) (w : t) : t :=
  mk (options w) x (players w) (db w) (timers w) (nextHandle w) (trace w).
Definition set_players (x : Collection.t Player.t) (w : t) : t :=
  mk (options w) (nodes w) x (db w) (timers w) (nextHandle w) (trace w).
Definition set_db (x : gmap string DbValue) (w : t) : t :=
  mk (options w) (nodes w) (players w) x (timers w) (nextHandle w) (trace w).
Definition set_timers (x : list (nat * Timer)) (h : nat) (w : t) : t :=
  mk (options w) (nodes w) (players w) (db w) x h (trace w).
Definition set_trace (x : list Effect) (w : t) : t :=
  mk (options w) (nodes w) (players w) (db w) (timers w) (nextHandle w) x.

Definition init (o : Options) : t :=
  {| options := o; nodes := []; players := []; db := ∅; timers := [];
     nextHandle := 0%nat; trace := [] |}.

End Manager.

(* ===================================================================== *)
(** ** The monad of the embedding

    A computation reads and updates the manager's state and either
    returns a value or throws; the state reached at a throw is kept. *)

Definition M (A : Type) : Type := Manager.t -> Result A * Manager.t.

#[global] Instance M_ret : MRet M := fun A a w => (Ok a, w).
#[global] Instance M_bind : MBind M := fun A B f m w =>
  match m w with
  | (Ok a, w') => f a w'
  | (Throw e, w') => (Throw e, w')
  end.

Definition throw {A} (e : Error) : M A := fun w => (Throw e, w).
Definition gets {A} (f : Manager.t -> A) : M A := fun w => (Ok (f w), w).
Definition modify (f : Manager.t -> Manager.t) : M unit := fun w => (Ok tt, f w).
Definition skip : M unit := mret tt.

(** [try { m } catch { }]: the exception is swallowed, the state kept. *)
Definition try_ (m : M unit) : M unit := fun w =>
  match m w with
  | (Ok _, w') => (Ok tt, w')
  | (Throw _, w') => (Ok tt, w')
  end.

Definition lift {A} (r : Result A) : M A := fun w => (r, w).

Definition exec {A} (m : M A) (w : Manager.t) : Manager.t := snd (m w).
Definition result {A} (m : M A) (w : Manager.t) : Result A := fst (m w).

Fixpoint forEach {A} (f : A -> M unit) (l : list A) : M unit :=
  match l with
  | [] => skip
  | x :: l' => f x ;; forEach f l'
  end.

Definition effect (e : Effect) : M unit :=
  modify (fun w => Manager.set_trace (Manager.trace w ++ [e]) w).
Definition emit (e : Event) : M unit := effect (Emit e).

(** Timers: [setTimeout]/[setInterval] return a fresh handle;
    [clearTimeout]/[clearInterval] drop the pending entry. *)
Definition setTimer (t : Timer) : M nat := fun w =>
  let h := Manager.nextHandle w in
  (Ok h, Manager.set_timers (Manager.timers w ++ [(h, t)]) (S h) w).

Definition clearTimer (h : option nat) : M unit :=
  match h with
  | None => skip
  | Some h =>
      modify (fun w =>
        Manager.set_timers
          (List.filter (fun e => negb (Nat.eqb (fst e) h)) (Manager.timers w))
          (Manager.nextHandle w) w)
  end.

(** Modelled from the spec: the persisted store (utils/Database is not
    among the sources) is a key-value service; [get] returns the value
    last set under the key, if any. *)
Definition db_get (k : string) : M (option DbValue) := gets (fun w => Manager.db w !! k).

(** Modelled from the spec: [set] of the persisted store (utils/Database
    is not among the sources) binds the key to the value. *)
Definition db_set (k : string) (v : DbValue) : M unit :=
  modify (fun w => Manager.set_db (<[k:=v]> (Manager.db w)) w).

(** Modelled from the spec: [delete] of the persisted store
    (utils/Database is not among the sources) removes the key. *)
Definition db_delete (k : string) : M unit :=
  modify (fun w => Manager.set_db (delete k (Manager.db w)) w).

(** Access to the objects of the two collections.  A method body runs
    on [this]; an object that is no longer in its collection cannot be
    addressed, and the access throws. *)
Definition getPlayer (g : string) : M (option Player.t) :=
  gets (fun w => Collection.get g (Manager.players w)).
Definition thisPlayer (g : string) : M Player.t :=
  o ← getPlayer g;
  match o with Some p => mret p | None => throw ErrNullDereference end.
Definition putPlayer (g : string) (p : Player.t) : M unit :=
  modify (fun w => Manager.set_players (Collection.set g p (Manager.players w)) w).
Definition updPlayer (g : string) (f : Player.t -> Player.t) : M unit :=
  p ← thisPlayer g; putPlayer g (f p).

Definition getNode (id : string) : M (option Node.t) :=
  gets (fun w => Collection.get id (Manager.nodes w)).
Definition thisNode (id : string) : M Node.t :=
  o ← getNode id;
  match o with Some n => mret n | None => throw ErrNullDereference end.
Definition putNode (id : string) (n : Node.t) : M unit :=
  modify (fun w => Manager.set_nodes (Collection.set id n (Manager.nodes w)) w).
Definition updNode (id : string) (f : Node.t -> Node.t) : M unit :=
  n ← thisNode id; putNode id (f n).

(* ===================================================================== *)
(** ** Players: the methods *)

(** Truthiness of a string-valued property: [undefined], [null] and the
    empty string are falsy. *)
Definition truthy (o : option string) : bool :=
  match o with
  | Some s => negb (String.eqb s "")
  | None => false
  end.

Definition playersKey (g : string) : string := "players." +:+ g.
Definition sessionKey (id : string) : string := "sessionId." +:+ id.

Module PlayerOps.

(** [connect()]. *)
Definition connect (g : string) : M unit :=
  p ← thisPlayer g;
  if negb (truthy (Player.voiceChannel p)) then throw ErrNoVoiceChannel
  else
    updPlayer g (Player.set_state CONNECTING) ;;
    effect (Send g (Player.voiceChannel p)
              (default false (Player.o_selfMute (Player.options p)))
              (default false (Player.o_selfDeafen (Player.options p)))) ;;
    updPlayer g (Player.set_state CONNECTED).

(** [disconnect()]. *)
Definition disconnect (g : string) : M unit :=
  p ← thisPlayer g;
  match Player.voiceChannel p with
  | None => skip
  | Some _ =>
      updPlayer g (Player.set_state DISCONNECTING) ;;
      effect (Send g None false false) ;;
      updPlayer g (Player.set_voiceChannel None) ;;
      updPlayer g (Player.set_state DISCONNECTED)
  end.

(** [destroy(disconnect = true)]. *)
Definition destroy (disconnect_ : bool) (g : string) : M unit :=
  updPlayer g (Player.set_state DESTROYING) ;;
  (if disconnect_ then disconnect g else skip) ;;
  p ← thisPlayer g;
  effect (Rest (Player.node p) (DestroyPlayer (Player.guild p))) ;;
  emit (playerDestroy g) ;;
  modify (fun w => Manager.set_players (Collection.delete (Player.guild p) (Manager.players w)) w) ;;
  db_delete (playersKey (Player.guild p)).

Definition snapshot (p : Player.t) : Snapshot :=
  {| s_guild := Some (Player.guild p);
     s_voiceChannel := Player.voiceChannel p;
     s_textChannel := Player.textChannel p;
     s_volume := Some (Player.volume p);
     s_data := Some (Player.data p);
     s_selfDeafen := Player.o_selfDeafen (Player.options p);
     s_selfMute := Player.o_selfMute (Player.options p);
     s_isAutoplay := Some (Player.isAutoplay p);
     s_current := Queue.current (Player.queue p) ≫= Track.track;
     s_queue := Some (Track.track <$> Queue.items (Player.queue p)) |}.

(** [save()]. *)
Definition save (g : string) : M unit :=
  p ← thisPlayer g;
  w ← gets id;
  if negb (Manager.autoResume (Manager.options w)) then skip
  else db_set (playersKey (Player.guild p)) (DbPlayer (snapshot p)).

(** [setTrackRepeat(repeat)]. *)
Definition setTrackRepeat (repeat : bool) (g : string) : M unit :=
  if repeat then updPlayer g (Player.set_repeat true false false)
  else updPlayer g (Player.set_repeat false false false).

(** [setQueueRepeat(repeat)]. *)
Definition setQueueRepeat (repeat : bool) (g : string) : M unit :=
  if repeat then updPlayer g (Player.set_repeat false true false)
  else updPlayer g (Player.set_repeat false false false).

(** [setDynamicRepeat(repeat, ms)]: the interval callback is the timer
    [DynamicLoop]. *)
Definition setDynamicRepeat (repeat : bool) (ms : Z) (g : string) : M unit :=
  p ← thisPlayer g;
  if Queue.size (Player.queue p) <=? 1 then throw ErrQueueSize
  else if repeat then
    updPlayer g (Player.set_repeat false false true) ;;
    h ← setTimer (DynamicLoop g);
    updPlayer g (Player.set_dynamicLoopInterval (Some h))
  else
    clearTimer (Player.dynamicLoopInterval p) ;;
    updPlayer g (Player.set_repeat false false false).

End PlayerOps.

(* ===================================================================== *)
(** ** The manager: node selection and player creation *)

Module ManagerOps.
Local Open Scope float_scope.

(** [(lavalinkLoad / cores) * 100], or [0] without cpu statistics. *)
Definition load (n : Node.t) : float :=
  match Node.cpu (Node.stats n) with
  | Some c => (Node.lavalinkLoad c / Node.cores c) * 100
  | None => 0
  end.

(** [get leastLoadNodes()].  A load is [NaN] for a node with no cores
    reported ([0 / 0]); the comparator then is not consistent and the
    order that [Array.prototype.sort] gives is implementation-defined.
    Only the entries of the result, not their order, enter the
    properties below. *)
Definition leastLoadNodes (w : Manager.t) : Collection.t Node.t :=
  Collection.sort (fun a b => PrimFloat.ltb (load a - load b) 0)
    (Collection.filter Node.connected (Manager.nodes w)).

(** [get leastUsedNodes()]. *)
Definition leastUsedNodes (w : Manager.t) : Collection.t Node.t :=
  Collection.sort
    (fun a b => (Node.playingPlayers (Node.stats a) - Node.playingPlayers (Node.stats b) <? 0)%Z)
    (Collection.filter Node.connected (Manager.nodes w)).

Local Close Scope float_scope.

(** [/^\d+$/.test(s)]. *)
Definition is_digit (a : Ascii.ascii) : bool :=
  let n := Ascii.nat_of_ascii a in (48 <=? n)%nat && (n <=? 57)%nat.

Fixpoint all_digits (s : string) : bool :=
  match s with
  | EmptyString => true
  | String a s' => is_digit a && all_digits s'
  end.

(** [playerCheck(options)] (utils/PlayerCheck.ts): with typed options
    only the test of [guild] can fail. *)
Definition playerCheck (o : Player.Options) : Result unit :=
  let g := Player.o_guild o in
  if String.eqb g "" || negb (all_digits g) then Throw ErrPlayerOptionGuild
  else Ok tt.

(** [create(options)] with the [Player] constructor inlined; returns the
    key of the player. *)
Definition create (o : Player.Options) : M string :=
  let g := Player.o_guild o in
  existing ← getPlayer g;
  match existing with
  | Some _ => mret g
  | None =>
      lift (playerCheck o) ;;
      w ← gets id;
      let picked :=
        match o_node ← Player.o_node o; Collection.get o_node (Manager.nodes w) with
        | Some n => Some n
        | None => Collection.first
                    (Collection.filter (fun n => Node.playback (Node.options n))
                       (leastLoadNodes w))
        end in
      match picked with
      | None => throw ErrNoAvailableNodes
      | Some n =>
          let p0 :=
            {| Player.options := o;
               Player.queue := Queue.empty;
               Player.filters := Filters.init;
               Player.trackRepeat := false;
               Player.queueRepeat := false;
               Player.dynamicRepeat := false;
               Player.position := 0;
               Player.playing := false;
               Player.paused := false;
               Player.volume := default 80 (Player.o_volume o);
               Player.isAutoplay := false;
               Player.node := Node.identifier (Node.options n);
               Player.guild := g;
               Player.voiceChannel :=
                 if truthy (Player.o_voiceChannel o) then Player.o_voiceChannel o else None;
               Player.textChannel :=
                 if truthy (Player.o_textChannel o) then Player.o_textChannel o else None;
               Player.nowPlayingMessage := None;
               Player.state := DISCONNECTED;
               Player.voiceState := {| Player.event := None; Player.vs_sessionId := None |};
               Player.data := default ∅ (Player.o_data o);
               Player.dynamicLoopInterval := None |} in
          putPlayer g p0 ;;
          emit (playerCreate g) ;;
          mret g
      end
  end.

End ManagerOps.

(* ===================================================================== *)
(** ** Nodes: connection lifecycle *)

Definition truthyDb (v : option DbValue) : option string :=
  match v with
  | Some (DbSession (Some s)) => if String.eqb s "" then None else Some s
  | _ => None
  end.

Module NodeOps.

(** [connect()]. *)
Definition connect (id : string) : M unit :=
  n ← thisNode id;
  if Node.connected n then skip
  else
    sid ← db_get (sessionKey (Node.identifier (Node.options n)));
    w ← gets Datatypes.id;
    let header := if Manager.autoResume (Manager.options w) then truthyDb sid else None in
    effect (SocketOpen id header) ;;
    updNode id (Node.set_socket (Some WebSocket.CONNECTING)).

(** [destroy()].  The call [manager.destroyNode(identifier)] at its
    end calls [destroy()] on the same node once more: [fuel] bounds
    that nesting.  The nested call finds the socket set to null and
    returns at the guard, so two levels are all that is ever used. *)
Fixpoint destroy_fuel (fuel : nat) (id : string) : M unit :=
  match fuel with
  | O => skip
  | S fuel' =>
      n ← thisNode id;
      if negb (Node.connected n) then skip
      else
        w ← gets Datatypes.id;
        let mine :=
          Collection.filter (fun p => String.eqb (Player.node p) id) (Manager.players w) in
        forEach (PlayerOps.destroy true) (Collection.keys mine) ;;
        effect (SocketClose id 1000 "destroy") ;;
        updNode id (Node.set_socket None) ;;
        updNode id (Node.set_reconnectAttempts 1) ;;
        clearTimer (Node.reconnectTimeout n) ;;
        emit (nodeDestroy id) ;;
        (* manager.destroyNode(this.options.identifier) *)
        o ← getNode (Node.identifier (Node.options n));
        match o with
        | None => skip
        | Some _ =>
            destroy_fuel fuel' (Node.identifier (Node.options n)) ;;
            modify (fun w =>
              Manager.set_nodes
                (Collection.delete (Node.identifier (Node.options n)) (Manager.nodes w)) w)
        end
  end.

Definition destroy (id : string) : M unit := destroy_fuel 2 id.

(** [manager.destroyNode(identifier)]. *)
Definition destroyNode (id : string) : M unit :=
  o ← getNode id;
  match o with
  | None => skip
  | Some _ =>
      destroy id ;;
      modify (fun w => Manager.set_nodes (Collection.delete id (Manager.nodes w)) w)
  end.

(** The callback that [reconnect()] hands to [setTimeout]. *)
Definition reconnectTick (id : string) : M unit :=
  n ← thisNode id;
  if geb_num (Node.reconnectAttempts n) (Node.retryAmount (Node.options n)) then
    emit (nodeError id (UnableToConnect (Node.retryAmount (Node.options n)))) ;;
    destroy id
  else
    updNode id (Node.set_socket None) ;;
    emit (nodeReconnect id) ;;
    connect id ;;
    updNode id (fun n => Node.set_reconnectAttempts (Node.reconnectAttempts n + 1) n).

(** [reconnect()]. *)
Definition reconnect (id : string) : M unit :=
  h ← setTimer (ReconnectTick id);
  updNode id (Node.set_reconnectTimeout (Some h)).

(** [open()]. *)
Definition open (id : string) : M unit :=
  n ← thisNode id;
  match Node.reconnectTimeout n with
  | Some h => clearTimer (Some h)
  | None => skip
  end ;;
  emit (nodeConnect id).

(** [close(code, reason)], with [reason] the string that the signature
    declares.  A socket library that hands the listener the reason as a
    [Buffer] makes the test [reason !== "destroy"] true for every close;
    the properties of [close] are stated for closes that reconnect on
    both readings. *)
Definition close (id : string) (code : Z) (reason : string) : M unit :=
  emit (nodeDisconnect id code reason) ;;
  (if negb (code =? 1000) || negb (String.eqb reason "destroy") then reconnect id else skip) ;;
  w ← gets Datatypes.id;
  let mine :=
    Collection.filter (fun p => String.eqb (Player.node p) id) (Manager.players w) in
  forEach
    (fun g =>
       if negb (Manager.autoMove (Manager.options w)) then updPlayer g (Player.set_playing false)
       else effect (Spawn (TaskMoveNode g)))
    (Collection.keys mine).

(** [error(error)]. *)
Definition error (msg : option string) : string -> M unit := fun id =>
  match msg with
  | None => skip
  | Some m => emit (nodeError id (SocketError m))
  end.

End NodeOps.

(** ** The event loop around a node

    What the socket library and the timer queue do before they call the
    handlers: the socket's [readyState] changes before its event is
    delivered, and a timeout is removed from the pending timers when it
    fires.  A socket whose listeners were removed (the node holds no
    socket) delivers nothing. *)
Module EventLoop.

Definition ws_open (id : string) : M unit :=
  n ← thisNode id;
  match Node.socket n with
  | None => skip
  | Some _ => updNode id (Node.set_socket (Some WebSocket.OPEN)) ;; NodeOps.open id
  end.

Definition ws_close (id : string) (code : Z) (reason : string) : M unit :=
  n ← thisNode id;
  match Node.socket n with
  | None => skip
  | Some _ =>
      updNode id (Node.set_socket (Some WebSocket.CLOSED)) ;; NodeOps.close id code reason
  end.

Definition lookupTimer (h : nat) (w : Manager.t) : option Timer :=
  snd <$> List.find (fun e => Nat.eqb (fst e) h) (Manager.timers w).

(** The timeout with handle [h] fires.  An interval is not a timeout:
    its callback is [DynamicRepeat.dynamicLoop], which also takes the
    outcome of the random shuffle. *)
Definition fire (h : nat) : M unit :=
  o ← gets (lookupTimer h);
  match o with
  | None => skip
  | Some (ReconnectTick id) => clearTimer (Some h) ;; NodeOps.reconnectTick id
  | Some (MoveGrace g) => clearTimer (Some h) ;; updPlayer g (Player.set_state CONNECTED)
  | Some (DynamicLoop g) => skip
  end.

End EventLoop.

(* ===================================================================== *)
(** ** Nodes: the player event router *)

(** The [event] payload: guild id, event type and, for a track end, the
    reason. *)
Record PlayerEvent : Type := mkPlayerEvent {
  guildId : option string;
  type : string;
  reason : string
}.

Module Router.

(** The handlers below change one player and send effects; each is a
    function from the player to the player after the call and the
    effects in order.  [track] is [player.queue.current] as read by
    [handleEvent] before it calls the handler. *)

(** [trackStart(player, track, payload)]. *)
Definition trackStart (track : option Track.t) (p : Player.t) : Player.t * list Effect :=
  (Player.set_paused false (Player.set_playing true p),
   [Emit (trackStart (Player.guild p) track)]).

(** [queueEnd(player, track, payload)]. *)
Definition queueEnd (track : option Track.t) (p : Player.t) : Player.t * list Effect :=
  let p1 := Player.set_queue (Queue.set_current None (Player.queue p)) p in
  let p2 := Player.set_playing (Player.isAutoplay p1) p1 in
  if Player.isAutoplay p2 then (p2, [Spawn (TaskAutoplay (Player.guild p2) track)])
  else (p2, [Emit (queueEnd (Player.guild p2) track)]).

(** [queue.previous = queue.current; queue.current = queue.shift()]. *)
Definition advance (q : Queue.t) : Queue.t :=
  let q1 := Queue.set_previous (Queue.current q) q in
  let '(h, q2) := Queue.shift q1 in
  Queue.set_current h q2.

Definition isMovingOrResuming (s : State) : bool :=
  match s with
  | MOVING | RESUMING => true
  | _ => false
  end.

Definition play_if (autoPlay : bool) (p : Player.t) : list Effect :=
  if autoPlay then [Spawn (TaskPlay (Player.guild p))] else [].

(** [trackEnd(player, track, payload)].  The repeat branch is guarded by
    [track] and then works on [queue.current]; [handleEvent] passes the
    same object for both, and the branch is entered here when both are
    set. *)
Definition trackEnd (autoPlay : bool) (track : option Track.t) (reason : string)
    (p : Player.t) : Result (Player.t * list Effect) :=
  let g := Player.guild p in
  if isMovingOrResuming (Player.state p) then Ok (p, [])
  else if String.eqb reason "loadFailed" || String.eqb reason "cleanup" then
    let p1 := Player.set_queue (advance (Player.queue p)) p in
    match Queue.current (Player.queue p1) with
    | None => Ok (queueEnd track p1)
    | Some _ => Ok (p1, Emit (trackEnd g track reason) :: play_if autoPlay p1)
    end
  else if String.eqb reason "replaced" then
    let q := Player.queue p in
    Ok (Player.set_queue (Queue.set_previous (Queue.current q) q) p,
        [Emit (trackEnd g track reason)])
  else
    match track, Queue.current (Player.queue p) with
    | Some _, Some cur =>
        if Player.trackRepeat p || Player.queueRepeat p then
          let q := Player.queue p in
          match
            (if Player.trackRepeat p then Ok (Queue.unshift cur q)
             else if Player.queueRepeat p then Queue.add (One cur) None q
             else Ok q)
          with
          | Throw e => Throw e
          | Ok q1 =>
              let p1 := Player.set_queue (advance q1) p in
              if String.eqb reason "stopped" then
                (* !(queue.current = queue.shift()) *)
                let '(h, q2) := Queue.shift (Player.queue p1) in
                let p2 := Player.set_queue (Queue.set_current h q2) p1 in
                match h with
                | None =>
                    let '(p3, effs) := queueEnd track p2 in
                    Ok (p3, Emit (trackEnd g track reason) :: effs)
                | Some _ =>
                    Ok (p2, Emit (trackEnd g track reason) :: play_if autoPlay p2)
                end
              else Ok (p1, Emit (trackEnd g track reason) :: play_if autoPlay p1)
          end
        else if 0 <? Queue.length (Player.queue p) then
          let p1 := Player.set_queue (advance (Player.queue p)) p in
          Ok (p1, Emit (trackEnd g track reason) :: play_if autoPlay p1)
        else Ok (queueEnd track p)
    | _, _ =>
        if 0 <? Queue.length (Player.queue p) then
          let p1 := Player.set_queue (advance (Player.queue p)) p in
          Ok (p1, Emit (trackEnd g track reason) :: play_if autoPlay p1)
        else Ok (queueEnd track p)
    end.

(** Running a handler on the player of a guild: the player is written
    back and the effects are appended to the trace. *)
Definition onPlayer (g : string) (h : Player.t -> Result (Player.t * list Effect)) : M unit :=
  p ← thisPlayer g;
  '(p', effs) ← lift (h p);
  putPlayer g p' ;;
  forEach effect effs.

(** [handleEvent(payload)]. *)
Definition handleEvent (id : string) (payload : PlayerEvent) : M unit :=
  match guildId payload with
  | None => skip
  | Some g =>
      if String.eqb g "" then skip
      else
        o ← getPlayer g;
        match o with
        | None => skip
        | Some player =>
            let track := Queue.current (Player.queue player) in
            let ty := type payload in
            if String.eqb ty "TrackStartEvent" then
              onPlayer g (fun p => Ok (trackStart track p))
            else if String.eqb ty "TrackEndEvent" then
              match Player.nowPlayingMessage player with
              | Some m =>
                  if negb (Player.deleted m) then effect (MessageDelete (Player.channelId m))
                  else skip
              | None => skip
              end ;;
              PlayerOps.save g ;;
              w ← gets Datatypes.id;
              onPlayer g (trackEnd (Manager.autoPlay (Manager.options w)) track (reason payload))
            else if String.eqb ty "TrackStuckEvent" then
              emit (trackStuck g track)
            else if String.eqb ty "TrackExceptionEvent" then
              emit (trackError g track)
            else if String.eqb ty "WebSocketClosedEvent" then
              emit (socketClosed g)
            else
              emit (nodeError id (UnknownEvent ty))
        end
  end.

End Router.

(* ===================================================================== *)
(** ** Nodes: inbound messages and session resumption *)

(** The track objects of the remote node ([TrackData]) and the player
    objects it reports. *)
Record TrackData : Type := mkTrackData {
  encoded : string;
  info_title : string;
  info_author : string;
  info_length : Z;
  info_identifier : string;
  info_uri : string;
  info_sourceName : string;
  info_position : Z
}.

Record RemotePlayer : Type := mkRemotePlayer {
  rp_guildId : string;
  rp_track : option TrackData;
  rp_volume : Z;
  rp_filters : Filters.t;
  rp_state_position : Z
}.

(** [TrackUtils.build(data)], without a track partial. *)
Definition build (data : option TrackData) : Result Track.t :=
  match data with
  | None => Throw ErrDataMissing
  | Some d =>
      Ok {| Track.track := Some (encoded d);
            Track.title := info_title d;
            Track.author := Some (info_author d);
            Track.duration := Some (info_length d);
            Track.identifier := Some (info_identifier d);
            Track.sourceName := Some (info_sourceName d);
            Track.uri := Some (info_uri d);
            Track.symbol := TRACK_SYMBOL |}
  end.

Inductive Payload : Type :=
  | OpMissing
  | OpStats (s : Node.Stats)
  | OpPlayerUpdate (guild : string) (position : Z)
  | OpEvent (e : PlayerEvent)
  | OpReady (sessionId : string)
  | OpOther (op : string).

(** What the remote node answers to the requests of the [ready]
    handler: the list of its players ([None]: the request failed and
    returned null) and the decode service ([None]: the promise of
    [manager.decodeTracks] is rejected). *)
Record Remote : Type := mkRemote {
  getAllPlayers : option (list RemotePlayer);
  decodeTracks : list (option string) -> option (list TrackData)
}.

Module Resume.

Inductive Flow : Type := Continue | Return.

(** [for (const x of l) body]; [Return] is a [return] statement in the
    body, which leaves the enclosing function. *)
Fixpoint forOf {A} (body : A -> M Flow) (l : list A) : M Flow :=
  match l with
  | [] => mret Continue
  | x :: l' =>
      f ← body x;
      match f with
      | Continue => forOf body l'
      | Return => mret Return
      end
  end.

Definition snapshotOf (v : option DbValue) : Snapshot :=
  match v with
  | Some (DbPlayer s) => s
  | _ => emptySnapshot
  end.

Definition updQueue (g : string) (f : Queue.t -> Result Queue.t) : M unit :=
  p ← thisPlayer g;
  q ← lift (f (Player.queue p));
  putPlayer g (Player.set_queue q p).

Fixpoint buildAll (l : list TrackData) : Result (list Track.t) :=
  match l with
  | [] => Ok []
  | d :: l' =>
      match build (Some d), buildAll l' with
      | Ok t, Ok ts => Ok (t :: ts)
      | Throw e, _ => Throw e
      | _, Throw e => Throw e
      end
  end.

(** The body of the loop over the players reported by the node. *)
Definition resumeOne (id : string) (remote : Remote) (resumedPlayer : RemotePlayer) : M Flow :=
  let gid := rp_guildId resumedPlayer in
  active ← getPlayer gid;
  match active with
  | Some _ => mret Return
  | None =>
      v ← db_get (playersKey gid);
      let previousInfosPlayer := snapshotOf v in
      if negb (truthy (s_guild previousInfosPlayer))
         || negb (truthy (s_voiceChannel previousInfosPlayer))
         || negb (truthy (s_textChannel previousInfosPlayer))
      then db_delete (playersKey gid) ;; mret Return
      else
        n ← thisNode id;
        g ← ManagerOps.create
              {| Player.o_guild := default "" (s_guild previousInfosPlayer);
                 Player.o_voiceChannel := s_voiceChannel previousInfosPlayer;
                 Player.o_textChannel := s_textChannel previousInfosPlayer;
                 Player.o_volume := s_volume previousInfosPlayer;
                 Player.o_selfDeafen := s_selfDeafen previousInfosPlayer;
                 Player.o_selfMute := s_selfMute previousInfosPlayer;
                 Player.o_data := Some (default ∅ (s_data previousInfosPlayer));
                 Player.o_node := Some (Node.identifier (Node.options n)) |};
        if negb (truthy (s_current previousInfosPlayer)) then mret Return
        else
          updPlayer g (Player.set_state RESUMING) ;;
          match s_queue previousInfosPlayer with
          | None => throw ErrNullDereference
          | Some queue =>
              let cur := s_current previousInfosPlayer in
              decoded ← match decodeTracks remote (queue ++ [cur]) with
                        | Some d => mret d
                        | None => throw ErrNoData
                        end;
              let isCurrent (t : TrackData) :=
                match cur with Some c => String.eqb (encoded t) c | None => false end in
              t ← lift (build (List.find isCurrent decoded));
              updQueue g (Queue.add (One t) None) ;;
              (if 0 <? JsArray.len queue then
                 ts ← lift (buildAll (List.filter (fun t => negb (isCurrent t)) decoded));
                 updQueue g (Queue.add (Many ts) None)
               else skip) ;;
              let rf := rp_filters resumedPlayer in
              updPlayer g (fun p =>
                Player.set_filters
                  (Filters.mk (Filters.distortion rf) (Filters.equalizer rf)
                     (Filters.karaoke rf) (Filters.rotation rf) (Filters.timescale rf)
                     (Filters.vibrato rf) (Filters.volume rf)) p) ;;
              updPlayer g (Player.set_volume (rp_volume resumedPlayer)) ;;
              updPlayer g (Player.set_position (rp_state_position resumedPlayer)) ;;
              PlayerOps.connect g ;;
              p ← thisPlayer g;
              let f := Player.filters p in
              effect (Rest (Player.node p)
                (UpdatePlayer (Player.guild p)
                   {| encodedTrack := Queue.current (Player.queue p) ≫= Track.track;
                      ud_volume := Some (Player.volume p);
                      ud_position := Some (rp_state_position resumedPlayer);
                      ud_paused := Some (Player.paused p);
                      ud_filters :=
                        Some (Filters.mk (Filters.distortion f) (Filters.equalizer f)
                                (Filters.karaoke f) (Filters.rotation f)
                                (Filters.timescale f) (Filters.vibrato f)
                                (Filters.volume f));
                      ud_voice := None |})) ;;
              mret Continue
          end
  end.

(** The [ready] case of [message]. *)
Definition ready (id : string) (sid : string) (remote : Remote) : M unit :=
  updNode id (Node.set_sessionId (Some sid)) ;;
  n ← thisNode id;
  db_set (sessionKey (Node.identifier (Node.options n))) (DbSession (Node.sessionId n)) ;;
  w ← gets Datatypes.id;
  if negb (Manager.autoResume (Manager.options w)) then skip
  else
    effect (Rest id (PatchSession true 360)) ;;
    effect (Rest id GetAllPlayers) ;;
    match getAllPlayers remote with
    | None => throw ErrNullDereference
    | Some resumedPlayers => forOf (resumeOne id remote) resumedPlayers ;; skip
    end.

(** [message(d)] on a decoded payload. *)
Definition message (id : string) (payload : Payload) (remote : Remote) : M unit :=
  match payload with
  | OpMissing => skip
  | OpStats s => emit (nodeRaw "stats") ;; updNode id (Node.set_stats s)
  | OpPlayerUpdate g pos =>
      emit (nodeRaw "playerUpdate") ;;
      o ← getPlayer g;
      match o with
      | Some _ => updPlayer g (Player.set_position pos)
      | None => skip
      end
  | OpEvent e => emit (nodeRaw "event") ;; Router.handleEvent id e
  | OpReady sid => emit (nodeRaw "ready") ;; ready id sid remote
  | OpOther op => emit (nodeRaw op) ;; emit (nodeError id (UnexpectedOp op))
  end.

End Resume.

(* ===================================================================== *)
(** ** Failover: [Player.moveNode] *)

Module Failover.

(** [node || leastLoadNodes.first().options.identifier
         || nodes.filter(n => n.connected).first().options.identifier]. *)
Definition resolveTarget (node : option string) (w : Manager.t) : Result string :=
  if truthy node then Ok (default "" node)
  else
    match Collection.first (ManagerOps.leastLoadNodes w) with
    | None => Throw ErrNullDereference
    | Some n =>
        let i := Node.identifier (Node.options n) in
        if negb (String.eqb i "") then Ok i
        else
          match Collection.first (Collection.filter Node.connected (Manager.nodes w)) with
          | None => Throw ErrNullDereference
          | Some n' => Ok (Node.identifier (Node.options n'))
          end
    end.

(** Whether the node object with this identifier is connected; a node
    that has left the collection was not connected when it left. *)
Definition nodeConnected (id : string) (w : Manager.t) : bool :=
  match Collection.get id (Manager.nodes w) with
  | Some n => Node.connected n
  | None => false
  end.

(** The first payload pushed to the destination. *)
Definition statePayload (position : Z) (p : Player.t) : UpdateData :=
  let f := Player.filters p in
  {| encodedTrack := Queue.current (Player.queue p) ≫= Track.track;
     ud_position := Some position;
     ud_volume := Some (Player.volume p);
     ud_paused := Some (Player.paused p);
     ud_filters :=
       Some (Filters.mk (Filters.distortion f) (Filters.equalizer f) (Filters.karaoke f)
               (Filters.rotation f) (Filters.timescale f) (Filters.vibrato f)
               (Filters.volume f));
     ud_voice := None |}.


(** [destroyOldNode(node)], the local closure of [moveNode]. *)
Definition destroyOldNode (g : string) (old : string) : M unit :=
  updPlayer g (Player.set_state MOVING) ;;
  w ← gets Datatypes.id;
  (if nodeConnected old w then effect (Rest old (DestroyPlayer g)) else skip) ;;
  h ← setTimer (MoveGrace g);
  skip.

(** [moveNode(node?)], run without interleaving.  [fetched] is the
    answer of the source node to the request for the player ([None]:
    the request failed and returned null). *)
Definition moveNode (g : string) (node : option string) (fetched : option RemotePlayer)
  : M unit :=
  p ← thisPlayer g;
  w ← gets Datatypes.id;
  dest ← lift (resolveTarget node w);
  if negb (Collection.has dest (Manager.nodes w)) then throw ErrNoNodesAvailable
  else if String.eqb (Player.node p) dest then skip
  else
    let currentNode := Player.node p in
    position ←
      (if nodeConnected currentNode w then
         effect (Rest currentNode (GetPlayer g)) ;;
         match fetched ≫= rp_track with
         | Some t => mret (info_position t)
         | None => throw ErrNullDereference
         end
       else mret (Player.position p));
    effect (Rest dest (UpdatePlayer g (statePayload position p))) ;;
    match Player.event (Player.voiceState p) with
    | None => throw ErrNullDereference
    | Some ev =>
        effect (Rest dest
          (UpdatePlayer g
             {| encodedTrack := None; ud_position := None; ud_volume := None;
                ud_paused := None; ud_filters := None;
                ud_voice :=
                  Some {| v_token := Player.token ev; v_endpoint := Player.endpoint ev;
                          v_sessionId := Player.vs_sessionId (Player.voiceState p) |} |})) ;;
        updPlayer g (Player.set_node dest) ;;
        destroyOldNode g currentNode
    end.

End Failover.

(* ===================================================================== *)
(** ** The dynamic-repeat interval *)

Module DynamicRepeat.

Fixpoint addAll (l : list Track.t) (q : Queue.t) : Result Queue.t :=
  match l with
  | [] => Ok q
  | x :: l' =>
      match Queue.add (One x) None q with
      | Ok q' => addAll l' q'
      | Throw e => Throw e
      end
  end.

(** The callback given to [setInterval] by [setDynamicRepeat];
    [shuffled] is what [_.shuffle(this.queue)] returns. *)
Definition dynamicLoop (shuffled : list Track.t) (g : string) : M unit :=
  p ← thisPlayer g;
  if negb (Player.dynamicRepeat p) then skip
  else
    updPlayer g (fun p => Player.set_queue (Queue.clear (Player.queue p)) p) ;;
    Resume.updQueue g (addAll shuffled).

End DynamicRepeat.

(* ===================================================================== *)
(** ** Call sequences used in the statements *)

(** The mutations of a queue: the methods of [Queue] and the inherited
    [shift]/[unshift] used by the track-end handler. *)
Inductive Mutation : Type :=
  | MAdd (a : TrackArg) (offset : option Z)
  | MRemove (startOrPosition end_ : option Z)
  | MClear
  | MShuffle (rnd : nat -> nat)
  | MShift
  | MUnshift (x : Track.t).

Definition mutate (m : Mutation) (q : Queue.t) : Result Queue.t :=
  match m with
  | MAdd a offset => Queue.add a offset q
  | MRemove s e =>
      match Queue.remove s e q with
      | Ok (_, q') => Ok q'
      | Throw err => Throw err
      end
  | MClear => Ok (Queue.clear q)
  | MShuffle rnd => Ok (Queue.shuffle rnd q)
  | MShift => Ok (snd (Queue.shift q))
  | MUnshift x => Ok (Queue.unshift x q)
  end.

(** Calls of the three repeat setters on the player of a guild. *)
Inductive RepeatCall : Type :=
  | CallTrackRepeat (repeat : bool)
  | CallQueueRepeat (repeat : bool)
  | CallDynamicRepeat (repeat : bool) (ms : Z).

Definition repeatCall (g : string) (c : RepeatCall) : M unit :=
  match c with
  | CallTrackRepeat b => PlayerOps.setTrackRepeat b g
  | CallQueueRepeat b => PlayerOps.setQueueRepeat b g
  | CallDynamicRepeat b ms => PlayerOps.setDynamicRepeat b ms g
  end.

(** A sequence of calls; the caller catches a call that throws and goes
    on with the next one. *)
Definition repeatCalls (g : string) (cs : list RepeatCall) : M unit :=
  forEach (fun c => try_ (repeatCall g c)) cs.

Definition repeatFlags (p : Player.t) : bool * bool * bool :=
  (Player.trackRepeat p, Player.queueRepeat p, Player.dynamicRepeat p).

(** The flags a call asks for. *)
Definition repeatTarget (c : RepeatCall) : bool * bool * bool :=
  match c with
  | CallTrackRepeat b => (b, false, false)
  | CallQueueRepeat b => (false, b, false)
  | CallDynamicRepeat b _ => (false, false, b)
  end.

Definition atMostOneRepeat (p : Player.t) : bool :=
  match repeatFlags p with
  | (true, true, _) | (true, _, true) | (_, true, true) => false
  | _ => true
  end.

(** The test of the [ready] handler for a snapshot that lacks a
    mandatory field. *)
Definition staleFields (s : Snapshot) : bool :=
  negb (truthy (s_guild s)) || negb (truthy (s_voiceChannel s))
  || negb (truthy (s_textChannel s)).

(** One non-normal close of the node's socket followed by the expiry of
    the reconnect timer that the close handler has set. *)
Definition fireReconnect (id : string) : M unit :=
  n ← thisNode id;
  match Node.reconnectTimeout n with
  | Some h => EventLoop.fire h
  | None => skip
  end.

Definition abnormalClose (id : string) (code : Z) (reason : string) : M unit :=
  EventLoop.ws_close id code reason ;; fireReconnect id.

Fixpoint times (k : nat) (m : M unit) : M unit :=
  match k with
  | O => skip
  | S k' => m ;; times k' m
  end.

Definition isFatal (id : string) (e : Effect) : bool :=
  match e with
  | Emit (nodeError id' (UnableToConnect _)) => String.eqb id id'
  | _ => false
  end.

Definition fatalErrors (id : string) (w : Manager.t) : nat :=
  List.length (List.filter (isFatal id) (Manager.trace w)).

Definition isSocketOpen (id : string) (e : Effect) : bool :=
  match e with
  | SocketOpen id' _ => String.eqb id id'
  | _ => false
  end.

Definition connectAttempts (id : string) (w : Manager.t) : nat :=
  List.length (List.filter (isSocketOpen id) (Manager.trace w)).

Definition pendingReconnects (id : string) (w : Manager.t) : nat :=
  List.length
    (List.filter
       (fun e => match snd e with ReconnectTick id' => String.eqb id id' | _ => false end)
       (Manager.timers w)).

(* ===================================================================== *)
(** ** Concrete inputs used by the examples *)

Module Examples.

Definition mkT (enc ti : string) : Track.t :=
  {| Track.track := Some enc; Track.title := ti; Track.author := None;
     Track.duration := Some 1000; Track.identifier := None; Track.sourceName := None;
     Track.uri := None; Track.symbol := TRACK_SYMBOL |}.

Definition tA : Track.t := mkT "QQ==" "A".
Definition tB : Track.t := mkT "Qg==" "B".
Definition tX : Track.t := mkT "WA==" "X".

Definition playerOptions (g : string) : Player.Options :=
  {| Player.o_guild := g; Player.o_textChannel := Some "20"; Player.o_voiceChannel := Some "30";
     Player.o_node := None; Player.o_volume := None; Player.o_selfMute := None;
     Player.o_selfDeafen := None; Player.o_data := None |}.

(** A connected player of guild [g] on node [n] with queue [q]. *)
Definition player (g n : string) (q : Queue.t) : Player.t :=
  {| Player.options := playerOptions g;
     Player.queue := q;
     Player.filters := Filters.init;
     Player.trackRepeat := false;
     Player.queueRepeat := false;
     Player.dynamicRepeat := false;
     Player.position := 4200;
     Player.playing := true;
     Player.paused := false;
     Player.volume := 80;
     Player.isAutoplay := false;
     Player.node := n;
     Player.guild := g;
     Player.voiceChannel := Some "30";
     Player.textChannel := Some "20";
     Player.nowPlayingMessage := None;
     Player.state := CONNECTED;
     Player.voiceState :=
       {| Player.event := Some {| Player.token := "tok"; Player.endpoint := "eu.example" |};
          Player.vs_sessionId := Some "vs1" |};
     Player.data := ∅;
     Player.dynamicLoopInterval := None |}.

Definition queueAB : Queue.t :=
  {| Queue.current := Some tA; Queue.previous := None; Queue.items := [tB] |}.

Definition nodeOptions (id : string) (retry : Num) : Node.Options :=
  {| Node.host := "localhost"; Node.port := 2333; Node.password := "youshallnotpass";
     Node.secure := false; Node.identifier := id; Node.retryAmount := retry;
     Node.retryDelay := 50; Node.search := true; Node.playback := true;
     Node.version := Node.v4 |}.

(** A node whose socket is open. *)
Definition openNode (id : string) (retry : Num) : Node.t :=
  Node.set_socket (Some WebSocket.OPEN) (Node.new (nodeOptions id retry)).

Definition managerOptions : Manager.Options :=
  {| Manager.autoPlay := true; Manager.autoResume := true; Manager.autoMove := false;
     Manager.clientId := "1000" |}.

(** One open node ["n1"] with retry ceiling [retry] and one player of
    guild ["1"] bound to it. *)
Definition oneNode (retry : Num) : Manager.t :=
  {| Manager.options := managerOptions;
     Manager.nodes := [("n1", openNode "n1" retry)];
     Manager.players := [("1", player "1" "n1" queueAB)];
     Manager.db := ∅;
     Manager.timers := [];
     Manager.nextHandle := 0%nat;
     Manager.trace := [] |}.

(** Two open nodes and a player on the first one. *)
Definition twoNodes : Manager.t :=
  {| Manager.options := managerOptions;
     Manager.nodes := [("n1", openNode "n1" Infinity); ("n2", openNode "n2" Infinity)];
     Manager.players := [("1", player "1" "n1" queueAB)];
     Manager.db := ∅;
     Manager.timers := [];
     Manager.nextHandle := 0%nat;
     Manager.trace := [] |}.

(** The stored snapshot of guild ["222"]: no voice channel. *)
Definition staleSnapshot : Snapshot :=
  {| s_guild := Some "222"; s_voiceChannel := None; s_textChannel := Some "20";
     s_volume := Some 80; s_data := None; s_selfDeafen := None; s_selfMute := None;
     s_isAutoplay := Some false; s_current := None; s_queue := Some [] |}.

(** The stored snapshot of guild ["111"]: no text channel. *)
Definition staleSnapshot' : Snapshot :=
  {| s_guild := Some "111"; s_voiceChannel := Some "30"; s_textChannel := None;
     s_volume := Some 80; s_data := None; s_selfDeafen := None; s_selfMute := None;
     s_isAutoplay := Some false; s_current := None; s_queue := Some [] |}.

Definition remotePlayer (g : string) : RemotePlayer :=
  {| rp_guildId := g; rp_track := None; rp_volume := 80; rp_filters := Filters.init;
     rp_state_position := 0 |}.

(** A manager without players whose store holds the two stale
    snapshots, and a node that reports both guilds as alive. *)
Definition resumeWorld : Manager.t :=
  {| Manager.options := managerOptions;
     Manager.nodes := [("n1", openNode "n1" Infinity)];
     Manager.players := [];
     Manager.db := <[playersKey "111" := DbPlayer staleSnapshot']>
                     (<[playersKey "222" := DbPlayer staleSnapshot]> ∅);
     Manager.timers := [];
     Manager.nextHandle := 0%nat;
     Manager.trace := [] |}.

Definition resumeRemote : Remote :=
  {| getAllPlayers := Some [remotePlayer "111"; remotePlayer "222"];
     decodeTracks := fun _ => Some [] |}.


End Examples.
(* ===================================================================== *)
(** ** Further methods of [Player] (structures/Player.ts) *)

Module PlayerMore.

(** [setVolume(volume)] for a volume that is a number. *)
Definition setVolume (volume : Z) (g : string) : M unit :=
  p ← thisPlayer g;
  effect (Rest (Player.node p)
            (UpdatePlayer (Player.o_guild (Player.options p))
               {| encodedTrack := None; ud_position := None; ud_volume := Some volume;
                  ud_paused := None; ud_filters := None; ud_voice := None |})) ;;
  updPlayer g (Player.set_volume volume).

(** [setVoiceChannel(channel)]. *)
Definition setVoiceChannel (channel : string) (g : string) : M unit :=
  updPlayer g (Player.set_voiceChannel (Some channel)) ;;
  PlayerOps.connect g.

(** [pause(pause)]. *)
Definition pause (pause_ : bool) (g : string) : M unit :=
  p ← thisPlayer g;
  if Bool.eqb (Player.paused p) pause_ || (Queue.totalSize (Player.queue p) =? 0) then skip
  else
    updPlayer g (Player.set_playing (negb pause_)) ;;
    updPlayer g (Player.set_paused pause_) ;;
    effect (Rest (Player.node p)
              (UpdatePlayer (Player.guild p)
                 {| encodedTrack := None; ud_position := None; ud_volume := None;
                    ud_paused := Some pause_; ud_filters := None; ud_voice := None |})).

(** One answer of [TrackUtils.getClosestTrack] to [play]: the promise is
    rejected, or it resolves to a track or to [undefined]. *)
Inductive Closest : Type :=
  | Rejected
  | Resolved (t : option Track.t).

(** [play(track?)] without play options.  [answers] are the outcomes of
    the successive searches for unresolved tracks; a search without an
    answer never completes and the call stays suspended.  The request
    to the node is taken to be answered at once. *)
Fixpoint play (answers : list Closest) (optionsOrTrack : option Track.t) (g : string)
  : M unit :=
  (match optionsOrTrack with
   | Some t =>
       if TrackUtils.validate (One t) then
         updPlayer g (fun p =>
           let q := Player.queue p in
           let q1 := match Queue.current q with
                     | Some c => Queue.set_previous (Some c) q
                     | None => q
                     end in
           Player.set_queue (Queue.set_current (Some t) q1) p)
       else skip
   | None => skip
   end) ;;
  p ← thisPlayer g;
  match Queue.current (Player.queue p) with
  | None => throw ErrNoCurrentTrack
  | Some cur =>
      let push : M unit :=
        p ← thisPlayer g;
        effect (Rest (Player.node p)
                  (UpdatePlayer (Player.guild p)
                     {| encodedTrack := Queue.current (Player.queue p) ≫= Track.track;
                        ud_position := None; ud_volume := Some (Player.volume p);
                        ud_paused := None; ud_filters := None; ud_voice := None |})) ;;
        updPlayer g (Player.set_position 0) ;;
        updPlayer g (Player.set_playing true) ;;
        PlayerOps.save g in
      if TrackUtils.isUnresolvedTrack cur then
        match answers with
        | [] => skip
        | Resolved t :: _ =>
            updPlayer g (fun p => Player.set_queue (Queue.set_current t (Player.queue p)) p) ;;
            push
        | Rejected :: answers' =>
            emit (trackError g (Some cur)) ;;
            match Queue.items (Player.queue p) with
            | next :: _ => play answers' (Some next) g
            | [] => skip
            end
        end
      else push
  end.

(** [restart()]; the call of [play()] it may make is not awaited. *)
Definition restart (g : string) : M unit :=
  p ← thisPlayer g;
  if truthy (Queue.current (Player.queue p) ≫= Track.track) then
    effect (Rest (Player.node p)
              (UpdatePlayer (Player.guild p)
                 {| encodedTrack := Queue.current (Player.queue p) ≫= Track.track;
                    ud_position := Some 0; ud_volume := None; ud_paused := None;
                    ud_filters := None; ud_voice := None |}))
  else if 0 <? Queue.length (Player.queue p) then effect (Spawn (TaskPlay g))
  else skip.

End PlayerMore.

(* ===================================================================== *)
(** ** [TrackUtils.getClosestTrack] (structures/Utils.ts) *)

Module Closest.

(** The choice among the tracks of the search result.  [test name s] is
    [new RegExp("^" + escapeRegExp(name) + "$", "i").test(s)].  [None]:
    the method throws because the argument is not an unresolved track. *)
Definition getClosestTrack (test : string -> option string -> bool)
    (unresolvedTrack : Track.t) (tracks : list Track.t) : option (option Track.t) :=
  if negb (TrackUtils.isUnresolvedTrack unresolvedTrack) then None
  else
    let originalAudio :=
      match Track.author unresolvedTrack with
      | Some a =>
          if String.eqb a "" then None
          else
            List.find
              (fun t =>
                 test a (Track.author t) || test (a +:+ " - Topic") (Track.author t)
                 || test (Track.title unresolvedTrack) (Some (Track.title t)))
              tracks
      | None => None
      end in
    match originalAudio with
    | Some t => Some (Some t)
    | None =>
        let sameDuration :=
          match Track.duration unresolvedTrack with
          | Some d =>
              if d =? 0 then None
              else
                List.find
                  (fun t =>
                     match Track.duration t with
                     | Some dt => (dt >=? d - 1500) && (dt <=? d + 1500)
                     | None => false
                     end)
                  tracks
          | None => None
          end in
        match sameDuration with
        | Some t => Some (Some t)
        | None => Some (head tracks)
        end
    end.

End Closest.

(* ===================================================================== *)
(** ** The [Node] constructor and [Manager.createNode] *)

Module NodeCtor.







End NodeCtor.

(* ===================================================================== *)
(** ** The [Filters] object (structures/Filters.ts, utils/FiltersEqualizers.ts) *)

Module FiltersOps.
Local Open Scope float_scope.

(* A decimal literal denotes the closest binary64 value, as it does in
   the source. *)
#[local] Set Warnings "-inexact-float".

Definition bands (gains : list float) : list Filters.Band :=
  imap (fun i g => Filters.mkBand (Z.of_nat i) g) gains.

Definition bassBoostEqualizer : list Filters.Band :=
  bands [0.2; 0.15; 0.1; 0.05; 0.0; -0.05; -0.1; -0.1; -0.1; -0.1; -0.1; -0.1; -0.1; -0.1; -0.1].
Definition softEqualizer : list Filters.Band :=
  bands [0; 0; 0; 0; 0; 0; 0; 0; -0.25; -0.25; -0.25; -0.25; -0.25; -0.25].
Definition tvEqualizer : list Filters.Band :=
  bands [0; 0; 0; 0; 0; 0; 0; 0.65; 0.65; 0.65; 0.65; 0.65; 0.65; 0.65].
Definition trebleBassEqualizer : list Filters.Band :=
  bands [0.6; 0.67; 0.67; 0; -0.5; 0.15; -0.45; 0.23; 0.35; 0.45; 0.55; 0.6; 0.55; 0].
Definition vaporwaveEqualizer : list Filters.Band :=
  bands [0; 0; 0; 0; 0; 0; 0; 0; 0.15; 0.15; 0.15; 0.15; 0.15; 0.15].

Inductive FilterName : Type :=
  | bassboost | distort | eightD | karaoke | nightcore | slowmo | soft | trebleBass
  | tv | vaporwave.

#[global] Instance FilterName_eq_dec : EqDecision FilterName.
Proof. solve_decision. Defined.

(** The [Filters] object: the seven categories and the status flags. *)
Record t : Type := mk {
  values : Filters.t;
  filterStatus : FilterName -> bool
}.

Definition new : t := {| values := Filters.init; filterStatus := fun _ => false |}.

(** The body that [updateFilters()] sends. *)
Definition payload (f : t) : UpdateData :=
  let v := values f in
  {| encodedTrack := None; ud_position := None; ud_volume := None; ud_paused := None;
     ud_filters :=
       Some (Filters.mk (Filters.distortion v) (Filters.equalizer v) (Filters.karaoke v)
               (Filters.rotation v) (Filters.timescale v) (Filters.vibrato v)
               (Filters.volume v));
     ud_voice := None |}.

(** A method returns the object after the call and the bodies of the
    update requests it has sent, in order. *)
Definition Step : Type := t * list UpdateData.

Definition andThen (s : Step) (k : t -> Step) : Step :=
  let '(f, sent) := s in
  let '(f', sent') := k f in
  (f', sent ++ sent').

(** [applyFilter({property, value})] with [updateFilters = true]. *)
Definition applyFilter (set : Filters.t -> Filters.t) (f : t) : Step :=
  let f' := {| values := set (values f); filterStatus := filterStatus f |} in
  (f', [payload f']).

Definition setFilterStatus (n : FilterName) (status : bool) (f : t) : Step :=
  ({| values := values f;
      filterStatus := fun m => if decide (m = n) then status else filterStatus f m |}, []).

Definition getFilterStatus (n : FilterName) (f : t) : bool := filterStatus f n.

Definition setEqualizer (b : list Filters.Band) : t -> Step :=
  applyFilter (fun v =>
    Filters.mk (Filters.distortion v) b (Filters.karaoke v) (Filters.rotation v)
      (Filters.timescale v) (Filters.vibrato v) (Filters.volume v)).
Definition setTimescale (o : option Filters.Options) : t -> Step :=
  applyFilter (fun v =>
    Filters.mk (Filters.distortion v) (Filters.equalizer v) (Filters.karaoke v)
      (Filters.rotation v) o (Filters.vibrato v) (Filters.volume v)).
Definition setVibrato (o : option Filters.Options) : t -> Step :=
  applyFilter (fun v =>
    Filters.mk (Filters.distortion v) (Filters.equalizer v) (Filters.karaoke v)
      (Filters.rotation v) (Filters.timescale v) o (Filters.volume v)).
Definition setRotation (o : option Filters.Options) : t -> Step :=
  applyFilter (fun v =>
    Filters.mk (Filters.distortion v) (Filters.equalizer v) (Filters.karaoke v)
      o (Filters.timescale v) (Filters.vibrato v) (Filters.volume v)).
Definition setDistortion (o : option Filters.Options) : t -> Step :=
  applyFilter (fun v =>
    Filters.mk o (Filters.equalizer v) (Filters.karaoke v)
      (Filters.rotation v) (Filters.timescale v) (Filters.vibrato v) (Filters.volume v)).
Definition setKaraoke (o : option Filters.Options) (f : t) : Step :=
  andThen
    (applyFilter (fun v =>
       Filters.mk (Filters.distortion v) (Filters.equalizer v) o
         (Filters.rotation v) (Filters.timescale v) (Filters.vibrato v) (Filters.volume v)) f)
    (setFilterStatus karaoke true).

(** The preset methods [eightD()], [bassBoost()], [nightcore()],
    [slowmo()], [soft()], [tv()], [trebleBass()], [vaporwave()] and
    [distort()], and the status flag each one sets. *)
Inductive Preset : Type :=
  | PEightD | PBassBoost | PNightcore | PSlowmo | PSoft | PTv | PTrebleBass
  | PVaporwave | PDistort.

Definition flagOf (m : Preset) : FilterName :=
  match m with
  | PEightD => eightD
  | PBassBoost => bassboost
  | PNightcore => nightcore
  | PSlowmo => slowmo
  | PSoft => soft
  | PTv => tv
  | PTrebleBass => trebleBass
  | PVaporwave => vaporwave
  | PDistort => distort
  end.

Definition preset (m : Preset) (f : t) : Step :=
  match m with
  | PEightD =>
      andThen (setRotation (Some [("rotationHz"%string, 0.2)]) f) (setFilterStatus eightD true)
  | PBassBoost => andThen (setEqualizer bassBoostEqualizer f) (setFilterStatus bassboost true)
  | PNightcore =>
      andThen
        (setTimescale
           (Some [("speed"%string, 1.1); ("pitch"%string, 1.125); ("rate"%string, 1.05)]) f)
        (setFilterStatus nightcore true)
  | PSlowmo =>
      andThen
        (setTimescale
           (Some [("speed"%string, 0.7); ("pitch"%string, 1.0); ("rate"%string, 0.8)]) f)
        (setFilterStatus slowmo true)
  | PSoft => andThen (setEqualizer softEqualizer f) (setFilterStatus soft true)
  | PTv => andThen (setEqualizer tvEqualizer f) (setFilterStatus tv true)
  | PTrebleBass =>
      andThen (setEqualizer trebleBassEqualizer f) (setFilterStatus trebleBass true)
  | PVaporwave =>
      andThen
        (andThen (setEqualizer vaporwaveEqualizer f)
           (setTimescale (Some [("pitch"%string, 0.55)])))
        (setFilterStatus vaporwave true)
  | PDistort =>
      andThen
        (setDistortion
           (Some [("sinOffset"%string, 0); ("sinScale"%string, 0.2);
                  ("cosOffset"%string, 0); ("cosScale"%string, 0.2);
                  ("tanOffset"%string, 0); ("tanScale"%string, 0.2);
                  ("offset"%string, 0); ("scale"%string, 1.2)]) f)
        (setFilterStatus distort true)
  end.

(** [clearFilters()]: the object the method runs on after the call, the
    new object it has stored in [player.filters], and the requests. *)
Definition clearFilters (f : t) : t * t * list UpdateData :=
  let this0 := {| values := values f; filterStatus := fun _ => false |} in
  let '(this1, sent) :=
    andThen (andThen (andThen (andThen (andThen
      (setEqualizer [] this0)
      (setDistortion None))
      (setKaraoke None))
      (setRotation None))
      (setTimescale None))
      (setVibrato None) in
  (this1, new, sent ++ [payload this1]).

End FiltersOps.

(* ===================================================================== *)
(** ** Statement helpers *)



Definition playingPlayersOf (kv : string * Node.t) : Z :=
  Node.playingPlayers (Node.stats (snd kv)).

(** A computation keeps a property of the manager's state. *)
Definition keeps {A} (P : Manager.t -> Prop) (m : M A) : Prop :=
  forall w, P w -> P (snd (m w)).

(** The handles of the pending timers are below the next handle. *)
Definition freshHandles (w : Manager.t) : Prop :=
  Forall (fun e => (fst e < Manager.nextHandle w)%nat) (Manager.timers w).

(** What the loops over the players of a node leave alone: the nodes,
    the timers, the store, the options and the counts of fatal errors
    and of connection attempts of node [id]. *)
Definition closeFrame (id : string) (w0 : Manager.t) (w : Manager.t) : Prop :=
  Manager.nodes w = Manager.nodes w0
  /\ Manager.timers w = Manager.timers w0
  /\ Manager.nextHandle w = Manager.nextHandle w0
  /\ Manager.db w = Manager.db w0
  /\ Manager.options w = Manager.options w0
  /\ fatalErrors id w = fatalErrors id w0
  /\ connectAttempts id w = connectAttempts id w0.

(** A close that is not the one [destroy()] asks for. *)
Definition abnormal (code : Z) (reason : string) : bool :=
  negb (code =? 1000) || negb (String.eqb reason "destroy").

(** The effects sent since the manager was in state [w]. *)
Definition since (w w' : Manager.t) : list Effect :=
  drop (length (Manager.trace w)) (Manager.trace w').

(* ===================================================================== *)
(** * Properties *)

(** ** Array primitives *)

Section SpliceFacts.
Context {A : Type}.
Implicit Types l ins : list A.

Lemma actualStart_le start l : (JsArray.actualStart start l <= length l)%nat.
Proof. unfold JsArray.actualStart, JsArray.len. destruct (start <? 0) eqn:E; lia. Qed.

Lemma actualStart_inside start l :
  0 <= start <= JsArray.len l -> JsArray.actualStart start l = Z.to_nat start.
Proof. unfold JsArray.actualStart, JsArray.len. intros H. destruct (start <? 0) eqn:E; lia. Qed.

Lemma actualStart_beyond start l :
  JsArray.len l <= start -> JsArray.actualStart start l = length l.
Proof. unfold JsArray.actualStart, JsArray.len. intros H. destruct (start <? 0) eqn:E; lia. Qed.

Lemma actualDeleteCount_le start dc l :
  (JsArray.actualStart start l + JsArray.actualDeleteCount start dc l <= length l)%nat.
Proof.
  pose proof (actualStart_le start l) as Hs.
  unfold JsArray.actualDeleteCount, JsArray.len. destruct dc; lia.
Qed.

Lemma splice_removed_length start dc ins l :
  length (fst (JsArray.splice start dc ins l)) = JsArray.actualDeleteCount start dc l.
Proof.
  unfold JsArray.splice; simpl.
  pose proof (actualDeleteCount_le start dc l) as H.
  rewrite length_take, length_drop. lia.
Qed.

Lemma splice_rest_length start dc ins l :
  length (snd (JsArray.splice start dc ins l))
  = (length l - JsArray.actualDeleteCount start dc l + length ins)%nat.
Proof.
  unfold JsArray.splice; simpl.
  pose proof (actualDeleteCount_le start dc l) as H.
  pose proof (actualStart_le start l) as Hs.
  rewrite !length_app, length_take, length_drop. lia.
Qed.

Lemma splice_all l : JsArray.splice 0 None [] l = (l, []).
Proof.
  unfold JsArray.splice, JsArray.actualDeleteCount, JsArray.actualStart, JsArray.len; simpl.
  replace (Z.to_nat (Z.min 0 (Z.of_nat (length l)))) with 0%nat by lia.
  rewrite drop_0; simpl. rewrite Z.sub_0_r, Nat2Z.id.
  rewrite firstn_all. f_equal. apply drop_all.
Qed.

Lemma swap_length i j l : length (JsArray.swap i j l) = length l.
Proof.
  unfold JsArray.swap. destruct (l !! i), (l !! j); try reflexivity.
  now rewrite !length_insert.
Qed.
End SpliceFacts.

(** ** The queue *)

Lemma add_totalSize_no_current (t0 : Track.t) (ts : list Track.t) offset q q' :
  Queue.current q = None ->
  Queue.add (Many (t0 :: ts)) offset q = Ok q' ->
  Queue.totalSize q' = Queue.totalSize q + JsArray.len (t0 :: ts).
Proof.
  unfold Queue.add. intros Hc.
  destruct (negb (TrackUtils.validate (Many (t0 :: ts)))); [discriminate|].
  rewrite Hc. simpl. intros [= <-].
  unfold Queue.totalSize, Queue.length, JsArray.len, JsArray.push; simpl.
  rewrite Hc, length_app. simpl. lia.
Qed.

Lemma totalSize_set_items l q :
  Queue.totalSize (Queue.set_items l q)
  = JsArray.len l + (match Queue.current q with Some _ => 1 | None => 0 end).
Proof. reflexivity. Qed.

Lemma add_totalSize_current (a : TrackArg) offset q q' :
  Queue.current q <> None ->
  Queue.add a offset q = Ok q' ->
  Queue.totalSize q' =
  Queue.totalSize q + JsArray.len (match a with Many ts => ts | One x => [x] end).
Proof.
  unfold Queue.add. intros Hc.
  destruct (negb (TrackUtils.validate a)); [discriminate|].
  destruct (Queue.current q) as [c|] eqn:Ec; [|congruence].
  destruct offset as [off|].
  - destruct ((off <? 0) || (off >? Queue.length q)) eqn:Eo; [discriminate|].
    intros [= <-].
    rewrite totalSize_set_items. unfold Queue.totalSize, Queue.length, JsArray.len.
    pose proof (actualStart_le off (Queue.items q)) as Hs.
    rewrite !length_app, length_take, length_drop. lia.
  - intros [= <-].
    rewrite totalSize_set_items. unfold Queue.totalSize, Queue.length, JsArray.len, JsArray.push.
    rewrite Ec, length_app. destruct a; simpl; lia.
Qed.

Lemma remove_totalSize s e q removed q' :
  Queue.remove s e q = Ok (removed, q') ->
  Queue.totalSize q' = Queue.totalSize q - JsArray.len removed.
Proof.
  unfold Queue.remove. intros H.
  assert (Hgen : forall st dc,
    (let '(removed0, rest) := JsArray.splice st dc [] (Queue.items q) in
     Ok (removed0, Queue.set_items rest q)) = Ok (removed, q') ->
    Queue.totalSize q' = Queue.totalSize q - JsArray.len removed).
  { intros st dc.
    pose proof (splice_removed_length st dc [] (Queue.items q)) as Hr.
    pose proof (splice_rest_length st dc [] (Queue.items q)) as Hl.
    pose proof (actualDeleteCount_le st dc (Queue.items q)) as Hd.
    destruct (JsArray.splice st dc [] (Queue.items q)) as [r rest]; simpl in *.
    intros [= <- <-].
    unfold Queue.totalSize, Queue.length, JsArray.len; simpl. lia. }
  destruct e as [e|].
  - destruct ((default 0 s >=? e) || (default 0 s >=? Queue.length q)); [discriminate|].
    eapply Hgen; eauto.
  - eapply Hgen; eauto.
Qed.

Lemma clear_items q : Queue.items (Queue.clear q) = [].
Proof. unfold Queue.clear. now rewrite splice_all. Qed.

Lemma shuffle_loop_length rnd i l :
  length (Queue.shuffle_loop rnd i l) = length l.
Proof.
  revert l. induction i as [|i IH]; intros l; simpl; [reflexivity|].
  now rewrite IH, swap_length.
Qed.

Lemma shuffle_totalSize rnd q : Queue.totalSize (Queue.shuffle rnd q) = Queue.totalSize q.
Proof.
  unfold Queue.shuffle, Queue.totalSize, Queue.length, JsArray.len; simpl.
  now rewrite shuffle_loop_length.
Qed.

Lemma swap_Permutation (i j : nat) (l : list Track.t) : JsArray.swap i j l ≡ₚ l.
Proof.
  unfold JsArray.swap.
  destruct (l !! i) as [x|] eqn:Ei; [|reflexivity].
  destruct (l !! j) as [y|] eqn:Ej; [|reflexivity].
  destruct (decide (i = j)) as [->|Hne].
  - assert (x = y) by congruence; subst y.
    rewrite list_insert_insert_eq. by rewrite list_insert_id.
  - symmetry. 
    apply Permutation_inj. split.
    + by rewrite !length_insert.
    + exists (fun k => if decide (k = i) then j else if decide (k = j) then i else k).
      split.
      * intros a b Hab. repeat case_decide; congruence.
      * intros k. repeat case_decide; subst.
        -- rewrite list_lookup_insert_eq; [congruence|].
           rewrite length_insert. by eapply lookup_lt_Some.
        -- rewrite list_lookup_insert_ne by congruence.
           rewrite list_lookup_insert_eq; [congruence|]. by eapply lookup_lt_Some.
        -- by rewrite !list_lookup_insert_ne by congruence.
Qed.

Lemma shuffle_Permutation rnd q : Queue.items (Queue.shuffle rnd q) ≡ₚ Queue.items q.
Proof.
  unfold Queue.shuffle; simpl.
  generalize (Nat.pred (length (Queue.items q))) as i.
  generalize (Queue.items q) as l.
  intros l i; revert l. induction i as [|i IH]; intros l; simpl; [reflexivity|].
  rewrite IH. apply swap_Permutation.
Qed.

(** C3: after every queue mutation (add with or without offset, remove,
    clear, shuffle, and the shift and unshift of the track-end handler)
    [totalSize] is the length of the pending sequence plus one when
    [current] is set and plus zero when it is not. *)
Theorem totalSize_after_mutation (m : Mutation) (q q' : Queue.t) :
  mutate m q = Ok q' ->
  Queue.totalSize q' =
  Z.of_nat (length (Queue.items q')) + (if decide (Queue.current q' = None) then 0 else 1).
Proof.
  intros _. unfold Queue.totalSize, Queue.length, JsArray.len.
  destruct (Queue.current q') as [c|]; case_decide; congruence.
Qed.

Lemma totalSize_after_mutation_witness :
  mutate (MAdd (Many [Examples.tX; Examples.tB]) (Some 0)) Examples.queueAB
  = Ok (Queue.mk (Some Examples.tA) None [Examples.tX; Examples.tB; Examples.tB])
  /\ Queue.totalSize (Queue.mk (Some Examples.tA) None [Examples.tX; Examples.tB; Examples.tB])
     = Z.of_nat 3 + (if decide (Some Examples.tA = None) then 0 else 1).
Proof.
  split; [reflexivity|].
  apply (totalSize_after_mutation (MAdd (Many [Examples.tX; Examples.tB]) (Some 0))
           Examples.queueAB).
  reflexivity.
Defined.

(** C5, as stated, fails: with no current track and a non-empty pending
    sequence, the pending sequence after [add] is not the batch without
    its first element. *)
Lemma add_without_current_pending_cex :
  ~ (forall (q : Queue.t) (t0 : Track.t) (rest : list Track.t) (q' : Queue.t),
       Queue.current q = None ->
       TrackUtils.validate (Many (t0 :: rest)) = true ->
       Queue.add (Many (t0 :: rest)) None q = Ok q' ->
       Queue.current q' = Some t0 /\ Queue.items q' = rest).
Proof.
  intros H.
  destruct (H (Queue.mk None None [Examples.tX]) Examples.tA [Examples.tB] _
              eq_refl eq_refl eq_refl) as [_ Hitems].
  discriminate Hitems.
Qed.

(** C5 (amended): on a queue without a current track, [add] of a
    non-empty batch of valid tracks succeeds, makes the first element of
    the batch the current track and appends the remaining elements, in
    their order, behind the pending sequence; when the pending sequence
    was empty it becomes the batch without its first element. *)
Theorem add_without_current (q : Queue.t) (t0 : Track.t) (rest : list Track.t)
    (offset : option Z) :
  Queue.current q = None ->
  TrackUtils.validate (Many (t0 :: rest)) = true ->
  exists q',
    Queue.add (Many (t0 :: rest)) offset q = Ok q'
    /\ Queue.current q' = Some t0
    /\ Queue.previous q' = Queue.previous q
    /\ Queue.items q' = Queue.items q ++ rest
    /\ (Queue.items q = [] -> Queue.items q' = rest).
Proof.
  intros Hc Hv. unfold Queue.add. rewrite Hv, Hc. cbn [negb JsArray.shift].
  eexists; split; [reflexivity|].
  cbn. repeat split; try reflexivity.
  intros ->. reflexivity.
Qed.

Lemma add_without_current_witness :
  Queue.current (Queue.mk None (Some Examples.tA) [Examples.tX]) = None
  /\ TrackUtils.validate (Many [Examples.tA; Examples.tB; Examples.tX]) = true
  /\ exists q',
       Queue.add (Many [Examples.tA; Examples.tB; Examples.tX]) (Some 7)
         (Queue.mk None (Some Examples.tA) [Examples.tX]) = Ok q'
       /\ Queue.current q' = Some Examples.tA
       /\ Queue.previous q' = Some Examples.tA
       /\ Queue.items q' = [Examples.tX] ++ [Examples.tB; Examples.tX]
       /\ ([Examples.tX] = [] -> Queue.items q' = [Examples.tB; Examples.tX]).
Proof.
  split; [reflexivity|]. split; [reflexivity|].
  apply (add_without_current (Queue.mk None (Some Examples.tA) [Examples.tX])
           Examples.tA [Examples.tB; Examples.tX] (Some 7)); reflexivity.
Defined.

(** C6, as stated, fails: [remove(position)] with a position behind the
    end of the pending sequence removes nothing. *)
Lemma remove_position_out_of_range_cex :
  ~ (forall (q : Queue.t) (position : Z) (removed : list Track.t) (q' : Queue.t),
       Queue.remove (Some position) None q = Ok (removed, q') ->
       length removed = 1%nat).
Proof.
  intros H.
  specialize (H (Queue.mk None None [Examples.tX]) 5 [] _ eq_refl).
  discriminate H.
Qed.

Lemma splice_inside {A} (l : list A) (s d : Z) :
  0 <= s < JsArray.len l -> 0 < d ->
  JsArray.splice s (Some d) [] l
  = (take (Z.to_nat (Z.min (s + d) (JsArray.len l)) - Z.to_nat s) (drop (Z.to_nat s) l),
     take (Z.to_nat s) l ++ drop (Z.to_nat (Z.min (s + d) (JsArray.len l))) l).
Proof.
  intros Hs Hd. unfold JsArray.splice.
  rewrite actualStart_inside by lia.
  unfold JsArray.actualDeleteCount. rewrite actualStart_inside by lia.
  unfold JsArray.len in *.
  replace (Z.to_nat ((d `max` 0) `min` (Z.of_nat (length l) - Z.of_nat (Z.to_nat s))))
    with (Z.to_nat ((s + d) `min` Z.of_nat (length l)) - Z.to_nat s)%nat by lia.
  replace (Z.to_nat s + (Z.to_nat ((s + d) `min` Z.of_nat (length l)) - Z.to_nat s))%nat
    with (Z.to_nat ((s + d) `min` Z.of_nat (length l))) by lia.
  reflexivity.
Qed.

Lemma remove_range_eq s e q :
  Queue.remove (Some s) (Some e) q
  = if (s >=? e) || (s >=? Queue.length q) then Throw ErrInvalidStartEnd
    else let '(removed, rest) := JsArray.splice s (Some (e - s)) [] (Queue.items q) in
         Ok (removed, Queue.set_items rest q).
Proof. reflexivity. Qed.

Lemma remove_position_eq position q :
  Queue.remove (Some position) None q
  = let '(removed, rest) := JsArray.splice position (Some 1) [] (Queue.items q) in
    Ok (removed, Queue.set_items rest q).
Proof. reflexivity. Qed.

(** C6 (amended): [remove(start, end)] throws whenever [start >= end] or
    [start >= length]; otherwise, for [0 <= start], it removes exactly
    the elements at the positions of [start, end) that exist, that is
    [start .. min(end, length) - 1].  [remove(position)] removes exactly
    the element at [position] when [0 <= position < length], and nothing
    when [position >= length]. *)
Theorem remove_spec (q : Queue.t) :
  (forall s e, s >= e \/ s >= Queue.length q ->
     Queue.remove (Some s) (Some e) q = Throw ErrInvalidStartEnd)
  /\ (forall s e, 0 <= s -> s < e -> s < Queue.length q ->
        let e' := Z.to_nat (Z.min e (Queue.length q)) in
        Queue.remove (Some s) (Some e) q
        = Ok (take (e' - Z.to_nat s) (drop (Z.to_nat s) (Queue.items q)),
              Queue.set_items (take (Z.to_nat s) (Queue.items q) ++ drop e' (Queue.items q)) q))
  /\ (forall position, 0 <= position < Queue.length q ->
        exists x,
          Queue.items q !! Z.to_nat position = Some x
          /\ Queue.remove (Some position) None q
             = Ok ([x], Queue.set_items (take (Z.to_nat position) (Queue.items q)
                                          ++ drop (S (Z.to_nat position)) (Queue.items q)) q))
  /\ (forall position, position >= Queue.length q ->
        Queue.remove (Some position) None q = Ok ([], q)).
Proof.
  repeat split.
  - intros s e H. rewrite remove_range_eq.
    destruct ((s >=? e) || (s >=? Queue.length q)) eqn:E; [reflexivity|].
    apply orb_false_iff in E as [E1 E2]. lia.
  - intros s e Hs Hse Hl e'. rewrite remove_range_eq.
    destruct ((s >=? e) || (s >=? Queue.length q)) eqn:E.
    { apply orb_true_iff in E as [E|E]; lia. }
    unfold Queue.length in *.
    rewrite splice_inside by lia.
    replace (s + (e - s)) with e by lia. reflexivity.
  - intros position Hp. rewrite remove_position_eq. unfold Queue.length in *.
    rewrite splice_inside by lia.
    destruct (lookup_lt_is_Some_2 (Queue.items q) (Z.to_nat position)) as [x Hx].
    { unfold JsArray.len in Hp. lia. }
    exists x. split; [exact Hx|].
    replace (Z.to_nat ((position + 1) `min` JsArray.len (Queue.items q)))
      with (S (Z.to_nat position)) by (unfold JsArray.len in *; lia).
    replace (S (Z.to_nat position) - Z.to_nat position)%nat with 1%nat by lia.
    rewrite (drop_S _ _ _ Hx). reflexivity.
  - intros position Hp. rewrite remove_position_eq. unfold Queue.length in *.
    unfold JsArray.splice.
    unfold JsArray.actualDeleteCount.
    rewrite actualStart_beyond by lia.
    unfold JsArray.len.
    replace (Z.to_nat ((1 `max` 0) `min` (Z.of_nat (length (Queue.items q)) -
               Z.of_nat (length (Queue.items q))))) with 0%nat by lia.
    rewrite Nat.add_0_r, drop_all, firstn_all. cbn. rewrite !app_nil_r.
    destruct q; reflexivity.
Qed.

Lemma remove_spec_witness :
  let q := Queue.mk None None [Examples.tX; Examples.tA; Examples.tB] in
  (2 >= 1 \/ 2 >= Queue.length q)
  /\ (0 <= 1 /\ 1 < 7 /\ 1 < Queue.length q)
  /\ 0 <= 1 < Queue.length q
  /\ 5 >= Queue.length q
  /\ Queue.remove (Some 2) (Some 1) q = Throw ErrInvalidStartEnd
  /\ Queue.remove (Some 1) (Some 7) q
     = Ok ([Examples.tA; Examples.tB], Queue.mk None None [Examples.tX])
  /\ (exists x, Queue.items q !! 1%nat = Some x
        /\ Queue.remove (Some 1) None q = Ok ([x], Queue.mk None None [Examples.tX; Examples.tB]))
  /\ Queue.remove (Some 5) None q = Ok ([], q).
Proof.
  intros q.
  assert (Ha : 2 >= 1 \/ 2 >= Queue.length q) by (left; lia).
  assert (Hb : 0 <= 1 /\ 1 < 7 /\ 1 < Queue.length q) by (vm_compute; repeat split; congruence).
  assert (Hc : 0 <= 1 < Queue.length q) by (vm_compute; split; congruence).
  assert (Hd : 5 >= Queue.length q) by (vm_compute; congruence).
  destruct (remove_spec q) as (H1 & H2 & H3 & H4).
  repeat (split; [assumption|]).
  split; [exact (H1 2 1 Ha)|].
  split; [exact (H2 1 7 (proj1 Hb) (proj1 (proj2 Hb)) (proj2 (proj2 Hb)))|].
  split; [exact (H3 1 Hc)|].
  exact (H4 5 Hd).
Defined.

(** ** Collections and the monad *)

Section CollectionFacts.
Context {V : Type}.
Implicit Types c : Collection.t V.

Lemma get_cons k k' (v : V) c :
  Collection.get k ((k', v) :: c)
  = if String.eqb k' k then Some v else Collection.get k c.
Proof. unfold Collection.get; simpl. now destruct (String.eqb k' k). Qed.

Lemma get_replace_eq k (v : V) c :
  Collection.has k c = true -> Collection.get k (Collection.replace k v c) = Some v.
Proof.
  unfold Collection.has. induction c as [|[k' v'] c IH]; simpl; [discriminate|].
  rewrite get_cons. destruct (String.eqb k' k) eqn:E.
  - intros _. now rewrite get_cons, E.
  - intros H. rewrite get_cons, E. auto.
Qed.

Lemma get_replace_ne k k' (v : V) c :
  k <> k' -> Collection.get k' (Collection.replace k v c) = Collection.get k' c.
Proof.
  intros Hne. induction c as [|[k0 v0] c IH]; simpl; [reflexivity|].
  destruct (String.eqb k0 k) eqn:E.
  - apply String.eqb_eq in E; subst k0. rewrite !get_cons.
    destruct (String.eqb k k') eqn:E'; [|reflexivity].
    apply String.eqb_eq in E'. contradiction.
  - rewrite !get_cons. now rewrite IH.
Qed.

Lemma get_app_None k c c' :
  Collection.get k c = None -> Collection.get k (c ++ c') = Collection.get k c'.
Proof.
  induction c as [|[k0 v0] c IH]; simpl; [reflexivity|].
  rewrite !get_cons. destruct (String.eqb k0 k); [discriminate|auto].
Qed.

Lemma get_app_Some k c c' (v : V) :
  Collection.get k c = Some v -> Collection.get k (c ++ c') = Some v.
Proof.
  induction c as [|[k0 v0] c IH]; simpl; [discriminate|].
  rewrite !get_cons. destruct (String.eqb k0 k); auto.
Qed.

Lemma get_set_eq k (v : V) c : Collection.get k (Collection.set k v c) = Some v.
Proof.
  unfold Collection.set. destruct (Collection.has k c) eqn:E.
  - now apply get_replace_eq.
  - unfold Collection.has in E. destruct (Collection.get k c) eqn:G; [discriminate|].
    rewrite get_app_None by assumption. rewrite get_cons. now rewrite String.eqb_refl.
Qed.

Lemma get_set_ne k k' (v : V) c :
  k <> k' -> Collection.get k' (Collection.set k v c) = Collection.get k' c.
Proof.
  intros Hne. unfold Collection.set. destruct (Collection.has k c).
  - now apply get_replace_ne.
  - destruct (Collection.get k' c) eqn:G.
    + now apply get_app_Some.
    + rewrite get_app_None by assumption. rewrite get_cons.
      destruct (String.eqb k k') eqn:E; [|reflexivity].
      apply String.eqb_eq in E. contradiction.
Qed.

Lemma get_delete_eq k c : Collection.get k (Collection.delete k c) = None.
Proof.
  unfold Collection.delete. induction c as [|[k0 v0] c IH]; simpl; [reflexivity|].
  destruct (String.eqb k0 k) eqn:E; simpl; [assumption|].
  now rewrite get_cons, E.
Qed.

Lemma get_delete_ne k k' c :
  k <> k' -> Collection.get k' (Collection.delete k c) = Collection.get k' c.
Proof.
  intros Hne. unfold Collection.delete.
  induction c as [|[k0 v0] c IH]; simpl; [reflexivity|].
  destruct (String.eqb k0 k) eqn:E; simpl.
  - apply String.eqb_eq in E; subst k0. rewrite get_cons.
    destruct (String.eqb k k') eqn:E'; [|assumption].
    apply String.eqb_eq in E'. contradiction.
  - rewrite !get_cons. now rewrite IH.
Qed.

Lemma has_get k c : Collection.has k c = true <-> exists v, Collection.get k c = Some v.
Proof.
  unfold Collection.has. destruct (Collection.get k c); split; eauto; try discriminate.
  intros [v Hv]; discriminate.
Qed.
End CollectionFacts.

Lemma bind_run {A B} (m : M A) (f : A -> M B) (w : Manager.t) :
  (m ≫= f) w = match m w with
               | (Ok a, w') => f a w'
               | (Throw e, w') => (Throw e, w')
               end.
Proof. reflexivity. Qed.

Lemma thisPlayer_run g w p :
  Collection.get g (Manager.players w) = Some p -> thisPlayer g w = (Ok p, w).
Proof. intros H. unfold thisPlayer, getPlayer, gets. rewrite bind_run. now rewrite H. Qed.

Lemma updPlayer_run g f w p :
  Collection.get g (Manager.players w) = Some p ->
  updPlayer g f w
  = (Ok tt, Manager.set_players (Collection.set g (f p) (Manager.players w)) w).
Proof.
  intros H. unfold updPlayer. rewrite bind_run, (thisPlayer_run _ _ _ H). reflexivity.
Qed.

Lemma thisNode_run id w n :
  Collection.get id (Manager.nodes w) = Some n -> thisNode id w = (Ok n, w).
Proof. intros H. unfold thisNode, getNode, gets. rewrite bind_run. now rewrite H. Qed.

Lemma updNode_run id f w n :
  Collection.get id (Manager.nodes w) = Some n ->
  updNode id f w
  = (Ok tt, Manager.set_nodes (Collection.set id (f n) (Manager.nodes w)) w).
Proof.
  intros H. unfold updNode. rewrite bind_run, (thisNode_run _ _ _ H). reflexivity.
Qed.

(** ** Repeat modes *)

Lemma repeatTarget_atMostOne c p :
  repeatFlags p = repeatTarget c -> atMostOneRepeat p = true.
Proof.
  unfold atMostOneRepeat. intros ->. destruct c as [[]|[]|[] ?]; reflexivity.
Qed.

Lemma repeatCall_run g c w p :
  Collection.get g (Manager.players w) = Some p ->
  exists r w' p',
    repeatCall g c w = (r, w')
    /\ Collection.get g (Manager.players w') = Some p'
    /\ ((r = Ok tt /\ repeatFlags p' = repeatTarget c)
        \/ (r = Throw ErrQueueSize /\ p' = p)).
Proof.
  intros Hp. destruct c as [b|b|b ms]; cbn [repeatCall].
  - unfold PlayerOps.setTrackRepeat.
    destruct b; rewrite (updPlayer_run _ _ _ _ Hp);
      do 3 eexists; (split; [reflexivity|]); cbn [Manager.players Manager.set_players];
      rewrite get_set_eq; (split; [reflexivity|left; split; reflexivity]).
  - unfold PlayerOps.setQueueRepeat.
    destruct b; rewrite (updPlayer_run _ _ _ _ Hp);
      do 3 eexists; (split; [reflexivity|]); cbn [Manager.players Manager.set_players];
      rewrite get_set_eq; (split; [reflexivity|left; split; reflexivity]).
  - unfold PlayerOps.setDynamicRepeat.
    rewrite bind_run, (thisPlayer_run _ _ _ Hp).
    destruct (Queue.size (Player.queue p) <=? 1).
    { exists (Throw ErrQueueSize), w, p. split; [reflexivity|]. split; [assumption|]. now right. }
    destruct b.
    + rewrite bind_run, (updPlayer_run _ _ _ _ Hp).
      rewrite bind_run. unfold setTimer.
      rewrite (updPlayer_run _ _ _ (Player.set_repeat false false true p))
        by (cbn [Manager.players Manager.set_players Manager.set_timers]; apply get_set_eq).
      do 3 eexists. split; [reflexivity|].
      cbn [Manager.players Manager.set_players Manager.set_timers].
      rewrite get_set_eq. split; [reflexivity|left; split; reflexivity].
    + rewrite bind_run.
      assert (Hc : forall h, exists w',
                 clearTimer h w = (Ok tt, w') /\ Manager.players w' = Manager.players w).
      { intros [h|]; cbn; eauto. }
      destruct (Hc (Player.dynamicLoopInterval p)) as (w' & -> & Hw').
      rewrite (updPlayer_run _ _ _ p) by (rewrite Hw'; exact Hp).
      do 3 eexists. split; [reflexivity|].
      cbn [Manager.players Manager.set_players].
      rewrite get_set_eq. split; [reflexivity|left; split; reflexivity].
Qed.

Lemma repeatCall_step g c w p :
  Collection.get g (Manager.players w) = Some p ->
  exists p',
    Collection.get g (Manager.players (exec (repeatCall g c) w)) = Some p'
    /\ ((result (repeatCall g c) w = Ok tt /\ repeatFlags p' = repeatTarget c)
        \/ (result (repeatCall g c) w = Throw ErrQueueSize /\ p' = p)).
Proof.
  intros Hp. destruct (repeatCall_run g c w p Hp) as (r & w' & p' & E & Hg & H).
  unfold exec, result. rewrite E. exists p'. split; [exact Hg|exact H].
Qed.

(** C10, as stated, fails: disabling a mode does not always leave the
    three flags cleared.  A player has [dynamicRepeat] on and its queue
    has shrunk to one track; [setDynamicRepeat(false)] then throws at
    the test of the queue size and [dynamicRepeat] stays on. *)
Lemma setDynamicRepeat_off_keeps_flag_cex :
  ~ (forall (g : string) (w : Manager.t) (p p' : Player.t) (c : RepeatCall),
       Collection.get g (Manager.players w) = Some p ->
       atMostOneRepeat p = true ->
       repeatTarget c = (false, false, false) ->
       Collection.get g (Manager.players (exec (repeatCall g c) w)) = Some p' ->
       repeatFlags p' = (false, false, false)).
Proof.
  intros H.
  specialize (H "1"%string
                (exec (PlayerOps.setDynamicRepeat true 500 "1" ;;
                       updPlayer "1"
                         (fun p => Player.set_queue (Queue.clear (Player.queue p)) p))
                   (Examples.oneNode Infinity))
                _ _ (CallDynamicRepeat false 500) eq_refl eq_refl eq_refl eq_refl).
  vm_compute in H. discriminate H.
Qed.

(** C10 (amended): starting from a player with at most one repeat flag
    set (a new player has none), after every sequence of calls of
    [setTrackRepeat], [setQueueRepeat] and [setDynamicRepeat] at most
    one of the three flags is set.  [setTrackRepeat] and
    [setQueueRepeat] always return, [setDynamicRepeat] returns exactly
    when the queue size is greater than 1; a call that returns and
    enables a mode leaves exactly that flag set, and a call that returns
    and disables a mode leaves all three cleared.  [setDynamicRepeat] on
    a queue of size at most 1 throws and leaves the player as it was. *)
Theorem repeat_flags_exclusive (g : string) (w : Manager.t) (p : Player.t) :
  Collection.get g (Manager.players w) = Some p ->
  atMostOneRepeat p = true ->
  (forall cs, exists p',
      Collection.get g (Manager.players (exec (repeatCalls g cs) w)) = Some p'
      /\ atMostOneRepeat p' = true)
  /\ (forall c, exists p',
        Collection.get g (Manager.players (exec (repeatCall g c) w)) = Some p'
        /\ match c with
           | CallTrackRepeat b =>
               result (repeatCall g c) w = Ok tt /\ repeatFlags p' = (b, false, false)
           | CallQueueRepeat b =>
               result (repeatCall g c) w = Ok tt /\ repeatFlags p' = (false, b, false)
           | CallDynamicRepeat b _ =>
               if Queue.size (Player.queue p) <=? 1
               then result (repeatCall g c) w = Throw ErrQueueSize /\ p' = p
               else result (repeatCall g c) w = Ok tt /\ repeatFlags p' = (false, false, b)
           end).
Proof.
  intros Hp Hone. split.
  - intros cs. revert w p Hp Hone.
    induction cs as [|c cs IH]; intros w p Hp Hone.
    + exists p. split; assumption.
    + destruct (repeatCall_step g c w p Hp) as (p1 & Hp1 & Hcase).
      assert (Hone1 : atMostOneRepeat p1 = true).
      { destruct Hcase as [[_ Hf]|[_ ->]]; [|assumption].
        eapply repeatTarget_atMostOne; eauto. }
      destruct (IH (exec (repeatCall g c) w) p1 Hp1 Hone1) as (p' & Hp' & Hone').
      exists p'. split; [|assumption].
      unfold repeatCalls, exec in *. cbn [forEach].
      rewrite bind_run. unfold try_ at 1.
      destruct (repeatCall g c w) as [[[]|e] w1]; exact Hp'.
  - intros c.
    destruct (repeatCall_step g c w p Hp) as (p1 & Hp1 & Hcase).
    exists p1. split; [exact Hp1|].
    destruct c as [b|b|b ms].
    + destruct Hcase as [[Hok Hf]|[Hthrow _]]; [split; assumption|].
      exfalso. revert Hthrow. unfold result. cbn [repeatCall].
      unfold PlayerOps.setTrackRepeat.
      destruct b; rewrite (updPlayer_run _ _ _ _ Hp); discriminate.
    + destruct Hcase as [[Hok Hf]|[Hthrow _]]; [split; assumption|].
      exfalso. revert Hthrow. unfold result. cbn [repeatCall].
      unfold PlayerOps.setQueueRepeat.
      destruct b; rewrite (updPlayer_run _ _ _ _ Hp); discriminate.
    + assert (Hres : result (repeatCall g (CallDynamicRepeat b ms)) w
                     = if Queue.size (Player.queue p) <=? 1
                       then Throw ErrQueueSize else Ok tt).
      { unfold result. cbn [repeatCall]. unfold PlayerOps.setDynamicRepeat.
        rewrite bind_run, (thisPlayer_run _ _ _ Hp).
        destruct (Queue.size (Player.queue p) <=? 1); [reflexivity|].
        destruct b.
        - rewrite bind_run, (updPlayer_run _ _ _ _ Hp).
          rewrite bind_run. unfold setTimer.
          rewrite (updPlayer_run _ _ _ (Player.set_repeat false false true p))
            by (cbn [Manager.players Manager.set_players Manager.set_timers];
                apply get_set_eq).
          reflexivity.
        - rewrite bind_run.
          destruct (Player.dynamicLoopInterval p) as [h|]; cbn [clearTimer];
            [unfold modify at 1|unfold skip at 1; cbn [mret M_ret]];
            erewrite updPlayer_run by (cbn; exact Hp); reflexivity. }
      rewrite Hres in *.
      destruct (Queue.size (Player.queue p) <=? 1).
      * destruct Hcase as [[Hok _]|[_ ->]]; [discriminate|]. split; reflexivity.
      * destruct Hcase as [[_ Hf]|[Hthrow _]]; [|discriminate].
        split; [reflexivity|exact Hf].
Qed.

Lemma repeat_flags_exclusive_witness :
  Collection.get "1" (Manager.players (Examples.oneNode Infinity))
  = Some (Examples.player "1" "n1" Examples.queueAB)
  /\ atMostOneRepeat (Examples.player "1" "n1" Examples.queueAB) = true
  /\ (exists p',
        Collection.get "1"
          (Manager.players
             (exec (repeatCalls "1" [CallTrackRepeat true; CallDynamicRepeat true 500;
                                     CallQueueRepeat true])
                (Examples.oneNode Infinity))) = Some p'
        /\ atMostOneRepeat p' = true)
  /\ (exists p',
        Collection.get "1"
          (Manager.players
             (exec (repeatCall "1" (CallDynamicRepeat true 500)) (Examples.oneNode Infinity)))
        = Some p'
        /\ result (repeatCall "1" (CallDynamicRepeat true 500)) (Examples.oneNode Infinity)
           = Ok tt
        /\ repeatFlags p' = (false, false, true)).
Proof.
  split; [reflexivity|]. split; [reflexivity|].
  pose proof (repeat_flags_exclusive "1" (Examples.oneNode Infinity)
                (Examples.player "1" "n1" Examples.queueAB) eq_refl eq_refl) as [H1 H2].
  split; [apply H1|].
  destruct (H2 (CallDynamicRepeat true 500)) as (p' & Hp' & H).
  exists p'. split; [exact Hp'|]. exact H.
Defined.

(** ** The track-end handler *)

Lemma not_moving_or_resuming s :
  s <> MOVING -> s <> RESUMING -> Router.isMovingOrResuming s = false.
Proof. destruct s; simpl; intros; congruence. Qed.

(** C4: for a player that is neither MOVING nor RESUMING, a track end
    with reason [replaced] emits the track-end event and nothing else,
    sets [previous] to the old [current], and leaves [current] and the
    pending sequence as they were. *)
Theorem trackEnd_replaced (autoPlay : bool) (track : option Track.t) (p : Player.t) :
  Player.state p <> MOVING ->
  Player.state p <> RESUMING ->
  exists p',
    Router.trackEnd autoPlay track "replaced" p
    = Ok (p', [Emit (trackEnd (Player.guild p) track "replaced")])
    /\ Queue.previous (Player.queue p') = Queue.current (Player.queue p)
    /\ Queue.current (Player.queue p') = Queue.current (Player.queue p)
    /\ Queue.items (Player.queue p') = Queue.items (Player.queue p)
    /\ p' = Player.set_queue
              (Queue.set_previous (Queue.current (Player.queue p)) (Player.queue p)) p.
Proof.
  intros Hm Hr. unfold Router.trackEnd.
  rewrite (not_moving_or_resuming _ Hm Hr).
  cbn [String.eqb Ascii.eqb Bool.eqb orb].
  eexists. split; [reflexivity|]. repeat split.
Qed.

Lemma trackEnd_replaced_witness :
  Player.state (Examples.player "1" "n1" Examples.queueAB) <> MOVING
  /\ Player.state (Examples.player "1" "n1" Examples.queueAB) <> RESUMING
  /\ exists p',
       Router.trackEnd true (Some Examples.tA) "replaced"
         (Examples.player "1" "n1" Examples.queueAB)
       = Ok (p', [Emit (trackEnd "1" (Some Examples.tA) "replaced")])
       /\ Queue.previous (Player.queue p') = Some Examples.tA
       /\ Queue.current (Player.queue p') = Some Examples.tA
       /\ Queue.items (Player.queue p') = [Examples.tB]
       /\ p' = Player.set_queue
                 (Queue.set_previous (Some Examples.tA) Examples.queueAB)
                 (Examples.player "1" "n1" Examples.queueAB).
Proof.
  split; [discriminate|]. split; [discriminate|].
  apply (trackEnd_replaced true (Some Examples.tA)
           (Examples.player "1" "n1" Examples.queueAB)); discriminate.
Defined.

(** C1, as stated, fails: with track repeat on, a track end with reason
    [stopped] on current = A, pending = [B] leaves B current, not A. *)
Lemma trackEnd_stopped_trackRepeat_cex :
  ~ (forall (autoPlay : bool) (A B : Track.t) (p p' : Player.t) (effs : list Effect),
       Player.state p <> MOVING ->
       Player.state p <> RESUMING ->
       Player.trackRepeat p = true ->
       Queue.current (Player.queue p) = Some A ->
       Queue.items (Player.queue p) = [B] ->
       Router.trackEnd autoPlay (Some A) "stopped" p = Ok (p', effs) ->
       Queue.current (Player.queue p') = Some A
       /\ Queue.previous (Player.queue p') = Some A).
Proof.
  intros H.
  destruct (H true Examples.tA Examples.tB
              (Player.set_repeat true false false (Examples.player "1" "n1" Examples.queueAB))
              _ _ ltac:(discriminate) ltac:(discriminate) eq_refl eq_refl eq_refl eq_refl)
    as [Hcur _].
  discriminate Hcur.
Qed.

(** C1 (amended): for a player that is neither MOVING nor RESUMING,
    with track repeat on, current = A and pending = [B], a track end
    with reason [stopped] sets [previous] to A and leaves B current and
    the pending sequence empty: A is put back at the head and dequeued
    again, and the test made for [stopped] dequeues once more. *)
Theorem trackEnd_stopped_trackRepeat (autoPlay : bool) (A B : Track.t) (p : Player.t) :
  Player.state p <> MOVING ->
  Player.state p <> RESUMING ->
  Player.trackRepeat p = true ->
  Queue.current (Player.queue p) = Some A ->
  Queue.items (Player.queue p) = [B] ->
  exists p',
    Router.trackEnd autoPlay (Some A) "stopped" p
    = Ok (p', Emit (trackEnd (Player.guild p) (Some A) "stopped")
                :: Router.play_if autoPlay p')
    /\ Queue.current (Player.queue p') = Some B
    /\ Queue.previous (Player.queue p') = Some A
    /\ Queue.items (Player.queue p') = [].
Proof.
  intros Hm Hr Ht Hc Hi. unfold Router.trackEnd.
  rewrite (not_moving_or_resuming _ Hm Hr), Hc, Ht.
  cbn [String.eqb Ascii.eqb Bool.eqb orb].
  unfold Router.advance, Queue.unshift, Queue.shift, JsArray.unshift. rewrite Hi.
  cbn. eexists. split; [reflexivity|]. repeat split. exact Hc.
Qed.

Lemma trackEnd_stopped_trackRepeat_witness :
  let p := Player.set_repeat true false false (Examples.player "1" "n1" Examples.queueAB) in
  Player.state p <> MOVING
  /\ Player.state p <> RESUMING
  /\ Player.trackRepeat p = true
  /\ Queue.current (Player.queue p) = Some Examples.tA
  /\ Queue.items (Player.queue p) = [Examples.tB]
  /\ exists p',
       Router.trackEnd true (Some Examples.tA) "stopped" p
       = Ok (p', Emit (trackEnd (Player.guild p) (Some Examples.tA) "stopped")
                   :: Router.play_if true p')
       /\ Queue.current (Player.queue p') = Some Examples.tB
       /\ Queue.previous (Player.queue p') = Some Examples.tA
       /\ Queue.items (Player.queue p') = [].
Proof.
  intros p.
  split; [discriminate|]. split; [discriminate|].
  split; [reflexivity|]. split; [reflexivity|]. split; [reflexivity|].
  apply (trackEnd_stopped_trackRepeat true Examples.tA Examples.tB p);
    try discriminate; reflexivity.
Defined.

(** ** Reconnection *)

Lemma emit_run e w :
  emit e w = (Ok tt, Manager.set_trace (Manager.trace w ++ [Emit e]) w).
Proof. reflexivity. Qed.

Lemma effect_run e w :
  effect e w = (Ok tt, Manager.set_trace (Manager.trace w ++ [e]) w).
Proof. reflexivity. Qed.

Lemma destroy_not_connected id w n :
  Collection.get id (Manager.nodes w) = Some n ->
  Node.connected n = false ->
  NodeOps.destroy id w = (Ok tt, w).
Proof.
  intros Hn Hc. unfold NodeOps.destroy. cbn [NodeOps.destroy_fuel].
  rewrite bind_run, (thisNode_run _ _ _ Hn), Hc. reflexivity.
Qed.

(** The expiry of the reconnect timer at the retry ceiling: the socket
    of a node that has just been closed is not open, so [destroy()]
    returns at its guard and the node stays in the collection. *)
Lemma reconnectTick_exhausted id w n :
  Collection.get id (Manager.nodes w) = Some n ->
  geb_num (Node.reconnectAttempts n) (Node.retryAmount (Node.options n)) = true ->
  Node.connected n = false ->
  NodeOps.reconnectTick id w
  = (Ok tt,
     Manager.set_trace
       (Manager.trace w ++ [Emit (nodeError id (UnableToConnect (Node.retryAmount (Node.options n))))])
       w).
Proof.
  intros Hn Hg Hc. unfold NodeOps.reconnectTick.
  rewrite bind_run, (thisNode_run _ _ _ Hn), Hg.
  rewrite bind_run, emit_run.
  now rewrite (destroy_not_connected id _ n) by assumption.
Qed.

(** C2 at ceiling 2: after two non-normal closes, each followed by the
    expiry of its reconnect timer, one fatal error has been emitted, one
    reconnect was attempted and no timer is pending, but the node has
    not been destroyed: it is still in the manager's collection and no
    [nodeDestroy] was emitted. *)
Theorem reconnect_exhausted_node_stays :
  let w := exec (times 2 (abnormalClose "n1" 1006 "")) (Examples.oneNode (Finite 2)) in
  fatalErrors "n1" w = 1%nat
  /\ connectAttempts "n1" w = 1%nat
  /\ pendingReconnects "n1" w = 0%nat
  /\ Collection.has "n1" (Manager.nodes w) = true
  /\ ~ In (Emit (nodeDestroy "n1")) (Manager.trace w).
Proof.
  vm_compute. repeat split; try reflexivity.
  intros H. repeat (destruct H as [H|H]; [discriminate H|]). exact H.
Qed.

(** The same at ceiling 1 and at ceiling 3. *)
Lemma reconnect_exhausted_node_stays_1_3 :
  (let w := exec (times 1 (abnormalClose "n1" 1006 "")) (Examples.oneNode (Finite 1)) in
   fatalErrors "n1" w = 1%nat /\ Collection.has "n1" (Manager.nodes w) = true)
  /\ (let w := exec (times 3 (abnormalClose "n1" 1006 "")) (Examples.oneNode (Finite 3)) in
      fatalErrors "n1" w = 1%nat /\ connectAttempts "n1" w = 2%nat
      /\ Collection.has "n1" (Manager.nodes w) = true).
Proof. vm_compute. repeat split. Qed.

(** C9, as stated, fails: after one reconnect the counter is 2, and it
    is still 2, not its initial value 1, after the socket has opened. *)
Lemma open_keeps_attempts_cex :
  ~ (forall (w : Manager.t) (id : string) (n n' : Node.t),
       Collection.get id (Manager.nodes w) = Some n ->
       Collection.get id (Manager.nodes (exec (NodeOps.open id) w)) = Some n' ->
       Node.reconnectAttempts n' = Node.reconnectAttempts (Node.new (Node.options n))).
Proof.
  intros H.
  specialize (H (exec (abnormalClose "n1" 1006 "") (Examples.oneNode (Finite 3))) "n1"
                _ _ eq_refl eq_refl).
  vm_compute in H. discriminate H.
Qed.

(** With ceiling 3 a node gets two reconnects before the fatal error;
    after one reconnect and a successful open it gets one more, not
    two. *)
Lemma open_does_not_restore_retries :
  let w1 := exec (abnormalClose "n1" 1006 "" ;; EventLoop.ws_open "n1")
              (Examples.oneNode (Finite 3)) in
  let w2 := exec (times 2 (abnormalClose "n1" 1006 "")) w1 in
  connectAttempts "n1" w1 = 1%nat
  /\ connectAttempts "n1" w2 = 2%nat
  /\ fatalErrors "n1" w2 = 1%nat.
Proof. vm_compute. repeat split. Qed.

Lemma lookupTimer_clear h w :
  EventLoop.lookupTimer h (exec (clearTimer (Some h)) w) = None.
Proof.
  unfold EventLoop.lookupTimer, exec. cbn.
  induction (Manager.timers w) as [|[h' t] l IH]; [reflexivity|].
  cbn. destruct (Nat.eqb h' h) eqn:E; cbn; [exact IH|]. now rewrite E.
Qed.

(** C9 (amended): the [open] handler clears the reconnect timer that the
    node holds, if any, and emits [nodeConnect]; it leaves the node, and
    with it the reconnect-attempt counter, unchanged. *)
Theorem open_spec (id : string) (w : Manager.t) (n : Node.t) :
  Collection.get id (Manager.nodes w) = Some n ->
  let w' := exec (NodeOps.open id) w in
  result (NodeOps.open id) w = Ok tt
  /\ Manager.nodes w' = Manager.nodes w
  /\ (forall n', Collection.get id (Manager.nodes w') = Some n' ->
        Node.reconnectAttempts n' = Node.reconnectAttempts n)
  /\ (forall h, Node.reconnectTimeout n = Some h -> EventLoop.lookupTimer h w' = None)
  /\ Manager.trace w' = Manager.trace w ++ [Emit (nodeConnect id)].
Proof.
  intros Hn w'. subst w'. unfold exec, result, NodeOps.open.
  rewrite bind_run, (thisNode_run _ _ _ Hn), bind_run.
  destruct (Node.reconnectTimeout n) as [h|] eqn:Eh.
  - pose proof (lookupTimer_clear h w) as Hl. unfold exec in Hl.
    cbn [clearTimer modify] in *. cbn. repeat split.
    + intros n' Hn'. congruence.
    + intros h' [= <-]. exact Hl.
  - cbn. repeat split.
    + intros n' Hn'. congruence.
    + intros h' [=].
Qed.

Lemma open_spec_witness :
  let w := exec (abnormalClose "n1" 1006 "") (Examples.oneNode (Finite 3)) in
  let w' := exec (NodeOps.open "n1") w in
  (exists n, Collection.get "n1" (Manager.nodes w) = Some n /\ Node.reconnectAttempts n = 2)
  /\ result (NodeOps.open "n1") w = Ok tt
  /\ Manager.nodes w' = Manager.nodes w
  /\ Manager.trace w' = Manager.trace w ++ [Emit (nodeConnect "n1")].
Proof.
  intros w w'.
  assert (Hn : exists n, Collection.get "n1" (Manager.nodes w) = Some n
                         /\ Node.reconnectAttempts n = 2).
  { eexists. split; vm_compute; reflexivity. }
  split; [exact Hn|].
  destruct Hn as (n & Hn & _).
  destruct (open_spec "n1" w n Hn) as (H1 & H2 & _ & _ & H5).
  repeat split; assumption.
Defined.

(** ** Session resumption *)

(** One pass of the loop body on a guild that is not tracked and whose
    snapshot lacks a mandatory field: the snapshot is deleted, no player
    is created, and the body leaves the handler. *)
Lemma resumeOne_stale id remote rp w :
  Collection.get (rp_guildId rp) (Manager.players w) = None ->
  staleFields (Resume.snapshotOf (Manager.db w !! playersKey (rp_guildId rp))) = true ->
  Resume.resumeOne id remote rp w
  = (Ok Resume.Return,
     Manager.set_db (delete (playersKey (rp_guildId rp)) (Manager.db w)) w).
Proof.
  intros Hp Hs. unfold Resume.resumeOne, staleFields in *.
  rewrite bind_run. unfold getPlayer, gets. rewrite Hp.
  rewrite bind_run. unfold db_get, gets.
  rewrite Hs. reflexivity.
Qed.

(** C7 on a node that reports two guilds whose snapshots are both stale
    (guild 111 lacks the text channel, guild 222 the voice channel): no
    player is created and the snapshot of the first guild is deleted,
    but the loop body returns from the handler, and the stale snapshot
    of the second guild stays in the store. *)
Theorem resume_leaves_second_stale_snapshot :
  let w := exec (Resume.ready "n1" "s1" Examples.resumeRemote) Examples.resumeWorld in
  Manager.players w = []
  /\ Manager.db w !! playersKey "111" = None
  /\ Manager.db w !! playersKey "222" = Some (DbPlayer Examples.staleSnapshot).
Proof. vm_compute. repeat split. Qed.

(** ** Failover *)





(** The same run: the call throws, and the request to the source node
    is all that it has sent. *)
Lemma moveNode_idle_player_throws :
  let w := exec (ManagerOps.create
                   (Player.mkOptions "1" (Some "20"%string) (Some "30"%string) (Some "n1"%string)
                           None None None None) ;;
                 PlayerOps.connect "1")
             (Manager.set_players [] Examples.twoNodes) in
  let m := Failover.moveNode "1" (Some "n2"%string) (Some (Examples.remotePlayer "1")) in
  result m w = Throw ErrNullDereference
  /\ since w (exec m w) = [Rest "n1" (GetPlayer "1")].
Proof. vm_compute. split; reflexivity. Qed.



(** ** The router on a [replaced] track end *)

Lemma trackEnd_replaced_eq (autoPlay : bool) (track : option Track.t) (p : Player.t) :
  Router.isMovingOrResuming (Player.state p) = false ->
  Router.trackEnd autoPlay track "replaced" p
  = Ok (Player.set_queue
          (Queue.set_previous (Queue.current (Player.queue p)) (Player.queue p)) p,
        [Emit (trackEnd (Player.guild p) track "replaced")]).
Proof.
  intros H. unfold Router.trackEnd. rewrite H.
  cbn [String.eqb Ascii.eqb Bool.eqb orb]. reflexivity.
Qed.

Lemma save_players g w p :
  Collection.get g (Manager.players w) = Some p ->
  exists w', PlayerOps.save g w = (Ok tt, w')
             /\ Manager.players w' = Manager.players w
             /\ Manager.trace w' = Manager.trace w
             /\ Manager.options w' = Manager.options w.
Proof.
  intros Hp. unfold PlayerOps.save.
  rewrite bind_run, (thisPlayer_run _ _ _ Hp), bind_run.
  unfold gets. cbv [Datatypes.id].
  destruct (negb (Manager.autoResume (Manager.options w))); eexists; split; try reflexivity;
    repeat split.
Qed.

(** The whole route of a [replaced] track end through [handleEvent]:
    besides the deletion of a now-playing message, the only effect is
    the track-end event, and the player differs in [previous] alone. *)
Lemma handleEvent_replaced_run id g w p :
  g <> "" ->
  Collection.get g (Manager.players w) = Some p ->
  Player.state p <> MOVING ->
  Player.state p <> RESUMING ->
  exists w',
    Router.handleEvent id
      {| guildId := Some g; type := "TrackEndEvent"; reason := "replaced" |} w = (Ok tt, w')
    /\ Collection.get g (Manager.players w')
       = Some (Player.set_queue
                 (Queue.set_previous (Queue.current (Player.queue p)) (Player.queue p)) p)
    /\ Manager.trace w'
       = Manager.trace w
         ++ match Player.nowPlayingMessage p with
            | Some m =>
                if negb (Player.deleted m) then [MessageDelete (Player.channelId m)] else []
            | None => []
            end
         ++ [Emit (trackEnd (Player.guild p) (Queue.current (Player.queue p)) "replaced")].
Proof.
  intros Hg Hp Hm Hr. unfold Router.handleEvent.
  cbn [guildId type reason].
  apply String.eqb_neq in Hg. rewrite Hg.
  rewrite bind_run. unfold getPlayer at 1, gets at 1. rewrite Hp.
  cbn [String.eqb Ascii.eqb Bool.eqb].
  rewrite bind_run.
  set (del := match Player.nowPlayingMessage p with
              | Some m =>
                  if negb (Player.deleted m) then [MessageDelete (Player.channelId m)] else []
              | None => []
              end).
  assert (Hdel : exists w1,
    (match Player.nowPlayingMessage p with
     | Some m => if negb (Player.deleted m) then effect (MessageDelete (Player.channelId m))
                 else skip
     | None => skip
     end) w = (Ok tt, w1)
    /\ Manager.players w1 = Manager.players w
    /\ Manager.trace w1 = Manager.trace w ++ del).
  { subst del. destruct (Player.nowPlayingMessage p) as [m|].
    - destruct (negb (Player.deleted m)).
      + eexists. rewrite effect_run. repeat split.
      + exists w. repeat split. cbn. now rewrite app_nil_r.
    - exists w. repeat split. cbn. now rewrite app_nil_r. }
  destruct Hdel as (w1 & -> & Hp1 & Ht1).
  rewrite bind_run.
  destruct (save_players g w1 p) as (w2 & -> & Hp2 & Ht2 & _); [now rewrite Hp1|].
  rewrite bind_run. unfold gets at 1. cbv [Datatypes.id].
  unfold Router.onPlayer.
  rewrite bind_run, (thisPlayer_run g w2 p) by (now rewrite Hp2, Hp1).
  rewrite bind_run. unfold lift at 1.
  rewrite trackEnd_replaced_eq by (now apply not_moving_or_resuming).
  cbn [forEach]. rewrite bind_run. unfold putPlayer at 1, modify at 1.
  rewrite bind_run, effect_run. cbn [skip mret M_ret].
  eexists. split; [reflexivity|].
  cbn [Manager.players Manager.trace Manager.set_trace Manager.set_players].
  rewrite get_set_eq. split; [reflexivity|].
  rewrite Ht2, Ht1, <- app_assoc. reflexivity.
Qed.

(** ** The nesting of [destroy] *)

Lemma destroy_fuel_guard f id w n :
  Collection.get id (Manager.nodes w) = Some n ->
  Node.connected n = false ->
  NodeOps.destroy_fuel (S f) id w = (Ok tt, w).
Proof.
  intros Hn Hc. cbn [NodeOps.destroy_fuel].
  rewrite bind_run, (thisNode_run _ _ _ Hn), Hc. reflexivity.
Qed.

Lemma bind_ext {A B} (m : M A) (k1 k2 : A -> M B) (w : Manager.t) :
  (forall a w', m w = (Ok a, w') -> k1 a w' = k2 a w') ->
  (m ≫= k1) w = (m ≫= k2) w.
Proof.
  intros H. rewrite !bind_run. destruct (m w) as [[a|e] w']; [|reflexivity].
  now apply H.
Qed.

Lemma updNode_inv id f w w' :
  updNode id f w = (Ok tt, w') ->
  exists n, Collection.get id (Manager.nodes w) = Some n
            /\ w' = Manager.set_nodes (Collection.set id (f n) (Manager.nodes w)) w.
Proof.
  unfold updNode, thisNode, getNode, gets. rewrite !bind_run.
  destruct (Collection.get id (Manager.nodes w)) as [n|]; [|discriminate].
  intros [= <-]. eauto.
Qed.

Lemma clearTimer_nodes h w :
  exists w', clearTimer h w = (Ok tt, w') /\ Manager.nodes w' = Manager.nodes w.
Proof. destruct h; cbn; eauto. Qed.

(** Two levels of nesting are all that [destroy] uses on a node stored
    under its own identifier: more fuel gives the same result. *)
Lemma destroy_fuel_stable k id w n :
  Collection.get id (Manager.nodes w) = Some n ->
  Node.identifier (Node.options n) = id ->
  NodeOps.destroy_fuel (S (S k)) id w = NodeOps.destroy id w.
Proof.
  intros Hn Hid. unfold NodeOps.destroy.
  change (NodeOps.destroy_fuel (S (S k)) id) with
    (n ← thisNode id;
     if negb (Node.connected n) then skip
     else
       w ← gets Datatypes.id;
       let mine :=
         Collection.filter (fun p => String.eqb (Player.node p) id) (Manager.players w) in
       forEach (PlayerOps.destroy true) (Collection.keys mine) ;;
       effect (SocketClose id 1000 "destroy") ;;
       updNode id (Node.set_socket None) ;;
       updNode id (Node.set_reconnectAttempts 1) ;;
       clearTimer (Node.reconnectTimeout n) ;;
       emit (nodeDestroy id) ;;
       o ← getNode (Node.identifier (Node.options n));
       match o with
       | None => skip
       | Some _ =>
           NodeOps.destroy_fuel (S k) (Node.identifier (Node.options n)) ;;
           modify (fun w =>
             Manager.set_nodes
               (Collection.delete (Node.identifier (Node.options n)) (Manager.nodes w)) w)
       end).
  change (NodeOps.destroy_fuel 2 id) with
    (n ← thisNode id;
     if negb (Node.connected n) then skip
     else
       w ← gets Datatypes.id;
       let mine :=
         Collection.filter (fun p => String.eqb (Player.node p) id) (Manager.players w) in
       forEach (PlayerOps.destroy true) (Collection.keys mine) ;;
       effect (SocketClose id 1000 "destroy") ;;
       updNode id (Node.set_socket None) ;;
       updNode id (Node.set_reconnectAttempts 1) ;;
       clearTimer (Node.reconnectTimeout n) ;;
       emit (nodeDestroy id) ;;
       o ← getNode (Node.identifier (Node.options n));
       match o with
       | None => skip
       | Some _ =>
           NodeOps.destroy_fuel 1 (Node.identifier (Node.options n)) ;;
           modify (fun w =>
             Manager.set_nodes
               (Collection.delete (Node.identifier (Node.options n)) (Manager.nodes w)) w)
       end).
  apply bind_ext. intros n0 w0 E0.
  rewrite (thisNode_run _ _ _ Hn) in E0. injection E0 as <- <-.
  destruct (negb (Node.connected n)); [reflexivity|].
  apply bind_ext. intros wg w1 _. cbv zeta.
  apply bind_ext. intros [] w2 _.
  apply bind_ext. intros [] w3 _.
  apply bind_ext. intros [] w4 E4.
  apply bind_ext. intros [] w5 E5.
  apply bind_ext. intros [] w6 E6.
  apply bind_ext. intros [] w7 E7.
  rewrite Hid.
  apply bind_ext. intros o w8 E8.
  destruct o as [n8|]; [|reflexivity].
  destruct (updNode_inv _ _ _ _ E4) as (n3 & Hn3 & ->).
  destruct (updNode_inv _ _ _ _ E5) as (n4 & Hn4 & ->).
  cbn [Manager.nodes Manager.set_nodes] in Hn4. rewrite get_set_eq in Hn4.
  injection Hn4 as <-.
  match type of E6 with clearTimer ?h ?x = _ =>
    destruct (clearTimer_nodes h x) as (w6' & E6' & Hn6) end.
  rewrite E6 in E6'. injection E6' as <-.
  rewrite emit_run in E7. injection E7 as <-.
  unfold getNode, gets in E8. injection E8 as _ <-.
  assert (Hfinal : Collection.get id (Manager.nodes
                     (Manager.set_trace (Manager.trace w6 ++ [Emit (nodeDestroy id)]) w6))
                   = Some (Node.set_reconnectAttempts 1 (Node.set_socket None n3))).
  { cbn [Manager.nodes Manager.set_trace]. rewrite Hn6.
    cbn [Manager.nodes Manager.set_nodes]. apply get_set_eq. }
  rewrite !bind_run.
  rewrite (destroy_fuel_guard k id _ _ Hfinal) by reflexivity.
  rewrite (destroy_fuel_guard 0 id _ _ Hfinal) by reflexivity.
  reflexivity.
Qed.

(* ===================================================================== *)
(** * Further properties *)

(** ** The queue *)

Lemma add_offset_eq a off q c :
  Queue.current q = Some c ->
  TrackUtils.validate a = true ->
  Queue.add a (Some off) q
  = if (off <? 0) || (off >? Queue.length q) then Throw (ErrOffsetRange (Queue.length q))
    else Ok (Queue.set_items
               (snd (JsArray.splice off (Some 0)
                       (match a with Many ts => ts | One x => [x] end) (Queue.items q))) q).
Proof. intros Hc Hv. unfold Queue.add. now rewrite Hv, Hc. Qed.

(** X1: with a current track, [add(tracks, offset)] inserts the tracks,
    in their order, in front of the pending entry at [offset] when
    [0 <= offset <= length], and throws the range error otherwise;
    [current] and [previous] are not touched. *)
Theorem add_at_offset (a : TrackArg) (off : Z) (q : Queue.t) (c : Track.t) :
  Queue.current q = Some c ->
  TrackUtils.validate a = true ->
  (0 <= off <= Queue.length q ->
     Queue.add a (Some off) q
     = Ok (Queue.mk (Queue.current q) (Queue.previous q)
             (take (Z.to_nat off) (Queue.items q)
              ++ (match a with Many ts => ts | One x => [x] end)
              ++ drop (Z.to_nat off) (Queue.items q))))
  /\ (off < 0 \/ off > Queue.length q ->
        Queue.add a (Some off) q = Throw (ErrOffsetRange (Queue.length q))).
Proof.
  intros Hc Hv. split; intros Hoff; rewrite (add_offset_eq _ _ _ _ Hc Hv).
  - destruct ((off <? 0) || (off >? Queue.length q)) eqn:E.
    { apply orb_true_iff in E as [E|E]; lia. }
    unfold JsArray.splice, JsArray.actualDeleteCount, Queue.set_items.
    unfold Queue.length in Hoff.
    rewrite actualStart_inside by lia.
    replace (Z.to_nat ((0 `max` 0) `min`
               (JsArray.len (Queue.items q) - Z.of_nat (Z.to_nat off)))) with 0%nat by lia.
    cbn [snd]. now rewrite Nat.add_0_r.
  - destruct ((off <? 0) || (off >? Queue.length q)) eqn:E; [reflexivity|].
    apply orb_false_iff in E as [E1 E2]. lia.
Qed.

Lemma add_at_offset_witness :
  Queue.current Examples.queueAB = Some Examples.tA
  /\ TrackUtils.validate (Many [Examples.tX; Examples.tX]) = true
  /\ 0 <= 1 <= Queue.length Examples.queueAB
  /\ (5 < 0 \/ 5 > Queue.length Examples.queueAB)
  /\ Queue.add (Many [Examples.tX; Examples.tX]) (Some 1) Examples.queueAB
     = Ok (Queue.mk (Some Examples.tA) None [Examples.tB; Examples.tX; Examples.tX])
  /\ Queue.add (Many [Examples.tX; Examples.tX]) (Some 5) Examples.queueAB
     = Throw (ErrOffsetRange 1).
Proof.
  assert (H1 : 0 <= 1 <= Queue.length Examples.queueAB) by (vm_compute; split; congruence).
  assert (H2 : 5 < 0 \/ 5 > Queue.length Examples.queueAB) by (right; reflexivity).
  destruct (add_at_offset (Many [Examples.tX; Examples.tX]) 1 Examples.queueAB Examples.tA
              eq_refl eq_refl) as [Hin _].
  destruct (add_at_offset (Many [Examples.tX; Examples.tX]) 5 Examples.queueAB Examples.tA
              eq_refl eq_refl) as [_ Hout].
  split; [reflexivity|]. split; [reflexivity|].
  split; [exact H1|]. split; [exact H2|].
  split; [exact (Hin H1)|exact (Hout H2)].
Defined.

(** X2: [add] returns exactly when the argument is a track, or a
    non-empty array of tracks, and, in case the queue has a current
    track and an offset is given, the offset lies in [0, length]; an
    offset given to a queue without a current track is never looked
    at. *)
Theorem add_returns_iff (a : TrackArg) (offset : option Z) (q : Queue.t) :
  is_ok (Queue.add a offset q) = true
  <-> TrackUtils.validate a = true
      /\ (Queue.current q = None \/ offset = None
          \/ exists off, offset = Some off /\ 0 <= off <= Queue.length q).
Proof.
  unfold Queue.add. destruct (TrackUtils.validate a) eqn:Hv; cbn [negb].
  2: { split; [discriminate|]. intros [H _]. discriminate. }
  destruct (Queue.current q) as [c|] eqn:Hc.
  - destruct offset as [off|].
    + destruct ((off <? 0) || (off >? Queue.length q)) eqn:E; cbn [is_ok].
      * apply orb_true_iff in E. split; [discriminate|].
        intros [_ [H|[H|(o & [= <-] & H)]]]; try discriminate. lia.
      * apply orb_false_iff in E as [E1 E2]. split; [|reflexivity].
        intros _. split; [reflexivity|]. right; right. exists off. split; [reflexivity|lia].
    + cbn. split; auto.
  - destruct a as [x|ts].
    + cbn. split; auto.
    + destruct (JsArray.shift ts) as [h rest]. cbn. split; auto.
Qed.

(** X3: [shuffle()] permutes the pending sequence: no track is lost or
    duplicated, [current] and [previous] stay, and [length] and
    [totalSize] are the same before and after, whatever the random
    numbers drawn. *)
Theorem shuffle_permutes (rnd : nat -> nat) (q : Queue.t) :
  Queue.items (Queue.shuffle rnd q) ≡ₚ Queue.items q
  /\ Queue.current (Queue.shuffle rnd q) = Queue.current q
  /\ Queue.previous (Queue.shuffle rnd q) = Queue.previous q
  /\ Queue.length (Queue.shuffle rnd q) = Queue.length q
  /\ Queue.totalSize (Queue.shuffle rnd q) = Queue.totalSize q.
Proof.
  pose proof (shuffle_Permutation rnd q) as Hperm.
  split; [exact Hperm|]. split; [reflexivity|]. split; [reflexivity|].
  split; [|apply shuffle_totalSize].
  unfold Queue.length, JsArray.len. f_equal. now apply Permutation_length.
Qed.

Lemma splice_partition {A} (start : Z) (dc : option Z) (l : list A) :
  exists front back,
    l = front ++ fst (JsArray.splice start dc [] l) ++ back
    /\ snd (JsArray.splice start dc [] l) = front ++ back.
Proof.
  unfold JsArray.splice. cbn [fst snd].
  set (s := JsArray.actualStart start l). set (d := JsArray.actualDeleteCount start dc l).
  exists (take s l), (drop (s + d) l). split; [|reflexivity].
  rewrite <- (take_drop s l) at 1. f_equal.
  rewrite <- (take_drop d (drop s l)) at 1. f_equal.
  now rewrite drop_drop.
Qed.

(** X4: whatever its arguments, a [remove] that returns takes one
    contiguous block out of the pending sequence and returns it: the
    entries in front of the block and behind it stay, in their order,
    and [current] and [previous] are not touched. *)
Theorem remove_takes_block (s e : option Z) (q q' : Queue.t) (removed : list Track.t) :
  Queue.remove s e q = Ok (removed, q') ->
  exists front back,
    Queue.items q = front ++ removed ++ back
    /\ Queue.items q' = front ++ back
    /\ Queue.current q' = Queue.current q
    /\ Queue.previous q' = Queue.previous q.
Proof.
  unfold Queue.remove. intros H.
  assert (Hgen : forall st dc,
    (let '(removed0, rest) := JsArray.splice st dc [] (Queue.items q) in
     Ok (removed0, Queue.set_items rest q)) = Ok (removed, q') ->
    exists front back,
      Queue.items q = front ++ removed ++ back
      /\ Queue.items q' = front ++ back
      /\ Queue.current q' = Queue.current q
      /\ Queue.previous q' = Queue.previous q).
  { intros st dc.
    destruct (splice_partition st dc (Queue.items q)) as (front & back & H1 & H2).
    destruct (JsArray.splice st dc [] (Queue.items q)) as [r rest]; cbn [fst snd] in *.
    intros [= <- <-]. exists front, back. subst rest. repeat split. exact H1. }
  destruct e as [e|].
  - destruct ((default 0 s >=? e) || (default 0 s >=? Queue.length q)); [discriminate|].
    eapply Hgen; eauto.
  - eapply Hgen; eauto.
Qed.

Lemma remove_takes_block_witness :
  Queue.remove (Some (-2)) None (Queue.mk None None [Examples.tX; Examples.tA; Examples.tB])
  = Ok ([Examples.tA], Queue.mk None None [Examples.tX; Examples.tB])
  /\ exists front back,
       [Examples.tX; Examples.tA; Examples.tB] = front ++ [Examples.tA] ++ back
       /\ [Examples.tX; Examples.tB] = front ++ back
       /\ @None Track.t = None /\ @None Track.t = None.
Proof.
  split; [reflexivity|].
  exact (remove_takes_block (Some (-2)) None
           (Queue.mk None None [Examples.tX; Examples.tA; Examples.tB])
           (Queue.mk None None [Examples.tX; Examples.tB]) [Examples.tA] eq_refl).
Defined.

(** X5: a negative position counts from the end: for
    [-length <= position < 0], [remove(position)] removes exactly the
    entry at index [length + position]. *)
Theorem remove_negative_position (position : Z) (q : Queue.t) :
  - Queue.length q <= position < 0 ->
  let i := Z.to_nat (Queue.length q + position) in
  exists x,
    Queue.items q !! i = Some x
    /\ Queue.remove (Some position) None q
       = Ok ([x], Queue.set_items (take i (Queue.items q) ++ drop (S i) (Queue.items q)) q).
Proof.
  intros Hp i. subst i. rewrite remove_position_eq. unfold Queue.length in *.
  unfold JsArray.splice, JsArray.actualDeleteCount, JsArray.actualStart.
  destruct (position <? 0) eqn:E; [|lia].
  set (i := Z.to_nat (JsArray.len (Queue.items q) + position)).
  replace (Z.to_nat ((JsArray.len (Queue.items q) + position) `max` 0)) with i by lia.
  replace (Z.to_nat ((1 `max` 0) `min` (JsArray.len (Queue.items q) - Z.of_nat i)))
    with 1%nat by (unfold JsArray.len in *; lia).
  destruct (lookup_lt_is_Some_2 (Queue.items q) i) as [x Hx].
  { unfold JsArray.len in *. lia. }
  exists x. split; [exact Hx|].
  rewrite (drop_S _ _ _ Hx). cbn [take]. rewrite Nat.add_1_r, app_nil_l. reflexivity.
Qed.

Lemma remove_negative_position_witness :
  let q := Queue.mk None None [Examples.tX; Examples.tA; Examples.tB] in
  - Queue.length q <= -1 < 0
  /\ exists x,
       Queue.items q !! Z.to_nat (Queue.length q + -1) = Some x
       /\ Queue.remove (Some (-1)) None q
          = Ok ([x], Queue.set_items
                       (take (Z.to_nat (Queue.length q + -1)) (Queue.items q)
                        ++ drop (S (Z.to_nat (Queue.length q + -1))) (Queue.items q)) q).
Proof.
  intros q.
  assert (H : - Queue.length q <= -1 < 0) by (vm_compute; split; congruence).
  split; [exact H|]. exact (remove_negative_position (-1) q H).
Defined.

(** ** The track-end handler, branch by branch *)

Lemma reason_neq (r s : string) : r <> s -> String.eqb r s = false.
Proof. apply String.eqb_neq. Qed.

(** X6: while the player is MOVING or RESUMING a track end is ignored,
    whatever its reason: the player is not changed and nothing is
    emitted. *)
Theorem trackEnd_ignored_in_transition (autoPlay : bool) (track : option Track.t)
    (reason : string) (p : Player.t) :
  Player.state p = MOVING \/ Player.state p = RESUMING ->
  Router.trackEnd autoPlay track reason p = Ok (p, []).
Proof.
  intros [H|H]; unfold Router.trackEnd; rewrite H; reflexivity.
Qed.

Lemma trackEnd_ignored_in_transition_witness :
  let p := Player.set_state RESUMING (Examples.player "1" "n1" Examples.queueAB) in
  (Player.state p = MOVING \/ Player.state p = RESUMING)
  /\ Router.trackEnd true (Some Examples.tA) "finished" p = Ok (p, []).
Proof.
  intros p. assert (H : Player.state p = MOVING \/ Player.state p = RESUMING) by (now right).
  split; [exact H|]. exact (trackEnd_ignored_in_transition true _ "finished" p H).
Defined.

(** X7: without a repeat mode and for every reason but [replaced], a
    track end advances the queue when something is pending: the head of
    the pending sequence becomes current, the old current becomes
    previous, the track-end event is emitted, and playback is started
    exactly when auto-play is on. *)
Theorem trackEnd_advances (autoPlay : bool) (track : option Track.t) (reason : string)
    (p : Player.t) (next : Track.t) (rest : list Track.t) :
  Player.state p <> MOVING ->
  Player.state p <> RESUMING ->
  reason <> "replaced" ->
  Player.trackRepeat p = false ->
  Player.queueRepeat p = false ->
  Queue.items (Player.queue p) = next :: rest ->
  exists p',
    Router.trackEnd autoPlay track reason p
    = Ok (p', Emit (trackEnd (Player.guild p) track reason)
                :: (if autoPlay then [Spawn (TaskPlay (Player.guild p))] else []))
    /\ Player.queue p'
       = Queue.mk (Some next) (Queue.current (Player.queue p)) rest.
Proof.
  intros Hm Hr Hrep Ht Hq Hi. unfold Router.trackEnd.
  rewrite (not_moving_or_resuming _ Hm Hr), (reason_neq _ _ Hrep), Ht, Hq.
  assert (Hadv : Router.advance (Player.queue p)
                 = Queue.mk (Some next) (Queue.current (Player.queue p)) rest).
  { unfold Router.advance, Queue.shift. cbn. rewrite Hi. reflexivity. }
  assert (Hlen : (0 <? Queue.length (Player.queue p)) = true).
  { unfold Queue.length, JsArray.len. rewrite Hi. reflexivity. }
  rewrite Hadv, Hlen. cbn [orb].
  exists (Player.set_queue
            (Queue.mk (Some next) (Queue.current (Player.queue p)) rest) p).
  split; [|reflexivity].
  unfold Router.play_if.
  destruct (String.eqb reason "loadFailed" || String.eqb reason "cleanup").
  - cbn. now destruct autoPlay.
  - destruct track, (Queue.current (Player.queue p)); cbn; now destruct autoPlay.
Qed.

Lemma trackEnd_advances_witness :
  let p := Examples.player "1" "n1" Examples.queueAB in
  Player.state p <> MOVING /\ Player.state p <> RESUMING
  /\ "finished"%string <> "replaced"%string
  /\ Player.trackRepeat p = false /\ Player.queueRepeat p = false
  /\ Queue.items (Player.queue p) = [Examples.tB]
  /\ exists p',
       Router.trackEnd true (Some Examples.tA) "finished" p
       = Ok (p', [Emit (trackEnd "1" (Some Examples.tA) "finished"); Spawn (TaskPlay "1")])
       /\ Player.queue p' = Queue.mk (Some Examples.tB) (Some Examples.tA) [].
Proof.
  intros p. repeat (split; [first [reflexivity | discriminate]|]).
  apply (trackEnd_advances true (Some Examples.tA) "finished" p Examples.tB []);
    first [reflexivity | discriminate].
Defined.

(** X8: without a repeat mode, a track end on an empty pending sequence
    (reason other than [loadFailed], [cleanup] and [replaced]) ends the
    queue: [current] is cleared, [previous] keeps its old value,
    [playing] becomes the autoplay flag, no track-end event is emitted,
    and the queue-end event is emitted exactly when autoplay is off. *)
Theorem trackEnd_ends_queue (autoPlay : bool) (track : option Track.t) (reason : string)
    (p : Player.t) :
  Player.state p <> MOVING ->
  Player.state p <> RESUMING ->
  reason <> "loadFailed" -> reason <> "cleanup" -> reason <> "replaced" ->
  Player.trackRepeat p = false ->
  Player.queueRepeat p = false ->
  Queue.items (Player.queue p) = [] ->
  exists p',
    Router.trackEnd autoPlay track reason p
    = Ok (p', if Player.isAutoplay p
              then [Spawn (TaskAutoplay (Player.guild p) track)]
              else [Emit (queueEnd (Player.guild p) track)])
    /\ Player.queue p' = Queue.mk None (Queue.previous (Player.queue p)) []
    /\ Player.playing p' = Player.isAutoplay p.
Proof.
  intros Hm Hr H1 H2 H3 Ht Hq Hi. unfold Router.trackEnd.
  rewrite (not_moving_or_resuming _ Hm Hr), (reason_neq _ _ H1), (reason_neq _ _ H2).
  rewrite (reason_neq _ _ H3), Ht, Hq.
  assert (Hlen : (0 <? Queue.length (Player.queue p)) = false).
  { unfold Queue.length, JsArray.len. rewrite Hi. reflexivity. }
  rewrite Hlen. cbn [orb].
  assert (Hend : exists p',
    Router.queueEnd track p
    = (p', if Player.isAutoplay p
           then [Spawn (TaskAutoplay (Player.guild p) track)]
           else [Emit (queueEnd (Player.guild p) track)])
    /\ Player.queue p' = Queue.mk None (Queue.previous (Player.queue p)) []
    /\ Player.playing p' = Player.isAutoplay p).
  { exists (Player.set_playing (Player.isAutoplay p)
              (Player.set_queue (Queue.set_current None (Player.queue p)) p)).
    split; [|split].
    - unfold Router.queueEnd. cbn. now destruct (Player.isAutoplay p).
    - cbn [Player.queue Player.set_playing Player.set_queue].
      unfold Queue.set_current. now rewrite Hi.
    - reflexivity. }
  destruct Hend as (p' & E & Hq' & Hp').
  exists p'. split; [|split; assumption].
  destruct track, (Queue.current (Player.queue p)); now rewrite E.
Qed.

Lemma trackEnd_ends_queue_witness :
  let p := Examples.player "1" "n1" (Queue.mk (Some Examples.tA) (Some Examples.tX) []) in
  Player.state p <> MOVING /\ Player.state p <> RESUMING
  /\ "finished"%string <> "loadFailed"%string /\ "finished"%string <> "cleanup"%string
  /\ "finished"%string <> "replaced"%string
  /\ Player.trackRepeat p = false /\ Player.queueRepeat p = false
  /\ Queue.items (Player.queue p) = []
  /\ exists p',
       Router.trackEnd true (Some Examples.tA) "finished" p
       = Ok (p', [Emit (queueEnd "1" (Some Examples.tA))])
       /\ Player.queue p' = Queue.mk None (Some Examples.tX) []
       /\ Player.playing p' = false.
Proof.
  intros p. repeat (split; [first [reflexivity | discriminate]|]).
  apply (trackEnd_ends_queue true (Some Examples.tA) "finished" p);
    first [reflexivity | discriminate].
Defined.

(** X9: with track repeat on and a reason other than [loadFailed],
    [cleanup], [replaced] and [stopped], a track end replays the current
    track: [current] and the pending sequence stay as they are, and
    [previous] becomes the current track. *)
Theorem trackEnd_track_repeat (autoPlay : bool) (reason : string) (p : Player.t)
    (A : Track.t) :
  Player.state p <> MOVING ->
  Player.state p <> RESUMING ->
  reason <> "loadFailed" -> reason <> "cleanup" -> reason <> "replaced" ->
  reason <> "stopped" ->
  Player.trackRepeat p = true ->
  Queue.current (Player.queue p) = Some A ->
  exists p',
    Router.trackEnd autoPlay (Some A) reason p
    = Ok (p', Emit (trackEnd (Player.guild p) (Some A) reason)
                :: (if autoPlay then [Spawn (TaskPlay (Player.guild p))] else []))
    /\ Player.queue p' = Queue.mk (Some A) (Some A) (Queue.items (Player.queue p)).
Proof.
  intros Hm Hr H1 H2 H3 H4 Ht Hc. unfold Router.trackEnd.
  rewrite (not_moving_or_resuming _ Hm Hr), (reason_neq _ _ H1), (reason_neq _ _ H2).
  rewrite (reason_neq _ _ H3), (reason_neq _ _ H4), Hc, Ht. cbn [orb].
  exists (Player.set_queue (Queue.mk (Some A) (Some A) (Queue.items (Player.queue p))) p).
  split; [|reflexivity].
  unfold Router.advance, Queue.unshift, Queue.shift, JsArray.unshift, Router.play_if.
  cbn. rewrite Hc. now destruct autoPlay.
Qed.

Lemma trackEnd_track_repeat_witness :
  let p := Player.set_repeat true false false (Examples.player "1" "n1" Examples.queueAB) in
  Player.state p <> MOVING /\ Player.state p <> RESUMING
  /\ "finished"%string <> "loadFailed"%string /\ "finished"%string <> "cleanup"%string
  /\ "finished"%string <> "replaced"%string /\ "finished"%string <> "stopped"%string
  /\ Player.trackRepeat p = true
  /\ Queue.current (Player.queue p) = Some Examples.tA
  /\ exists p',
       Router.trackEnd false (Some Examples.tA) "finished" p
       = Ok (p', [Emit (trackEnd "1" (Some Examples.tA) "finished")])
       /\ Player.queue p' = Queue.mk (Some Examples.tA) (Some Examples.tA) [Examples.tB].
Proof.
  intros p. repeat (split; [first [reflexivity | discriminate]|]).
  apply (trackEnd_track_repeat false "finished" p Examples.tA);
    first [reflexivity | discriminate].
Defined.

Lemma add_one_current (x c : Track.t) (q : Queue.t) :
  Queue.current q = Some c ->
  Queue.add (One x) None q
  = if TrackUtils.has_symbol x then Ok (Queue.set_items (Queue.items q ++ [x]) q)
    else Throw ErrInvalidTrack.
Proof.
  intros Hc. unfold Queue.add. cbn [TrackUtils.validate].
  destruct (TrackUtils.has_symbol x); cbn [negb]; [|reflexivity].
  now rewrite Hc.
Qed.

(** X10: with queue repeat on (track repeat off) and a reason other than
    [loadFailed], [cleanup], [replaced] and [stopped], a track end
    rotates the queue: the current track goes to the tail of the pending
    sequence, the head of the resulting sequence becomes current, and
    [previous] becomes the old current.  A current object that carries
    no track symbol makes the handler throw instead. *)
Theorem trackEnd_queue_repeat (autoPlay : bool) (reason : string) (p : Player.t)
    (A : Track.t) :
  Player.state p <> MOVING ->
  Player.state p <> RESUMING ->
  reason <> "loadFailed" -> reason <> "cleanup" -> reason <> "replaced" ->
  reason <> "stopped" ->
  Player.trackRepeat p = false ->
  Player.queueRepeat p = true ->
  Queue.current (Player.queue p) = Some A ->
  (TrackUtils.has_symbol A = true ->
     exists p',
       Router.trackEnd autoPlay (Some A) reason p
       = Ok (p', Emit (trackEnd (Player.guild p) (Some A) reason)
                   :: (if autoPlay then [Spawn (TaskPlay (Player.guild p))] else []))
       /\ Player.queue p'
          = Queue.mk (head (Queue.items (Player.queue p) ++ [A])) (Some A)
              (tail (Queue.items (Player.queue p) ++ [A]))
       /\ Queue.totalSize (Player.queue p') = Queue.totalSize (Player.queue p))
  /\ (TrackUtils.has_symbol A = false ->
        Router.trackEnd autoPlay (Some A) reason p = Throw ErrInvalidTrack).
Proof.
  intros Hm Hr H1 H2 H3 H4 Ht Hq Hc. unfold Router.trackEnd.
  rewrite (not_moving_or_resuming _ Hm Hr), (reason_neq _ _ H1), (reason_neq _ _ H2).
  rewrite (reason_neq _ _ H3), (reason_neq _ _ H4), Hc, Ht, Hq. cbn [orb].
  rewrite (add_one_current A A _ Hc).
  split; intros Hs; rewrite Hs; [|reflexivity].
  exists (Player.set_queue
            (Queue.mk (head (Queue.items (Player.queue p) ++ [A])) (Some A)
               (tail (Queue.items (Player.queue p) ++ [A]))) p).
  unfold Router.advance, Queue.shift, JsArray.shift, Router.play_if.
  cbn [Queue.items Queue.set_items Queue.set_previous Queue.current Queue.previous].
  rewrite Hc.
  unfold Queue.totalSize, Queue.length, JsArray.len.
  cbn [Player.queue Player.set_queue Queue.items Queue.current]. rewrite Hc.
  destruct (Queue.items (Player.queue p)) as [|x l]; cbn;
    (split; [now destruct autoPlay|split; [reflexivity|]]); [reflexivity|].
  rewrite length_app. cbn. lia.
Qed.

Lemma trackEnd_queue_repeat_witness :
  let p := Player.set_repeat false true false (Examples.player "1" "n1" Examples.queueAB) in
  Player.state p <> MOVING /\ Player.state p <> RESUMING
  /\ "finished"%string <> "loadFailed"%string /\ "finished"%string <> "cleanup"%string
  /\ "finished"%string <> "replaced"%string /\ "finished"%string <> "stopped"%string
  /\ Player.trackRepeat p = false /\ Player.queueRepeat p = true
  /\ Queue.current (Player.queue p) = Some Examples.tA
  /\ TrackUtils.has_symbol Examples.tA = true
  /\ exists p',
       Router.trackEnd false (Some Examples.tA) "finished" p
       = Ok (p', [Emit (trackEnd "1" (Some Examples.tA) "finished")])
       /\ Player.queue p' = Queue.mk (Some Examples.tB) (Some Examples.tA) [Examples.tA]
       /\ Queue.totalSize (Player.queue p') = Queue.totalSize (Player.queue p).
Proof.
  intros p. repeat (split; [first [reflexivity | discriminate]|]).
  apply (trackEnd_queue_repeat false "finished" p Examples.tA);
    first [reflexivity | discriminate].
Defined.

(** X11: with queue repeat on (track repeat off), a track end with
    reason [stopped] passes over the head of the pending sequence: the
    current track A goes to the tail, and the entry behind the old head
    becomes current, so that the old head is neither current, previous
    nor pending afterwards.  With nothing pending the queue ends: A is
    dequeued twice and [current] is cleared, although the queue
    repeats. *)
Theorem trackEnd_stopped_queue_repeat (autoPlay : bool) (p : Player.t) (A : Track.t) :
  Player.state p <> MOVING ->
  Player.state p <> RESUMING ->
  Player.trackRepeat p = false ->
  Player.queueRepeat p = true ->
  Queue.current (Player.queue p) = Some A ->
  TrackUtils.has_symbol A = true ->
  (forall B rest, Queue.items (Player.queue p) = B :: rest ->
     exists p',
       Router.trackEnd autoPlay (Some A) "stopped" p
       = Ok (p', Emit (trackEnd (Player.guild p) (Some A) "stopped")
                   :: (if autoPlay then [Spawn (TaskPlay (Player.guild p))] else []))
       /\ Player.queue p' = Queue.mk (head (rest ++ [A])) (Some A) (tail (rest ++ [A])))
  /\ (Queue.items (Player.queue p) = [] ->
        exists p',
          Router.trackEnd autoPlay (Some A) "stopped" p
          = Ok (p', Emit (trackEnd (Player.guild p) (Some A) "stopped")
                      :: (if Player.isAutoplay p
                          then [Spawn (TaskAutoplay (Player.guild p) (Some A))]
                          else [Emit (queueEnd (Player.guild p) (Some A))]))
          /\ Player.queue p' = Queue.mk None (Some A) []).
Proof.
  intros Hm Hr Ht Hq Hc Hs. unfold Router.trackEnd.
  rewrite (not_moving_or_resuming _ Hm Hr), Hc, Ht, Hq.
  cbn [String.eqb Ascii.eqb Bool.eqb orb].
  rewrite (add_one_current A A _ Hc), Hs.
  unfold Router.advance, Queue.shift, JsArray.shift, Router.play_if, Router.queueEnd.
  cbn [Queue.items Queue.set_items Queue.set_previous Queue.current Queue.previous].
  split.
  - intros B rest Hi. rewrite Hi, Hc. cbn.
    exists (Player.set_queue (Queue.mk (head (rest ++ [A])) (Some A) (tail (rest ++ [A]))) p).
    split; [|reflexivity].
    destruct rest as [|y l]; cbn; now destruct autoPlay.
  - intros Hi. rewrite Hi, Hc. cbn.
    destruct (Player.isAutoplay p); eexists; split; reflexivity.
Qed.

Lemma trackEnd_stopped_queue_repeat_witness :
  let p := Player.set_repeat false true false
             (Examples.player "1" "n1" (Queue.mk (Some Examples.tA) None [])) in
  Player.state p <> MOVING /\ Player.state p <> RESUMING
  /\ Player.trackRepeat p = false /\ Player.queueRepeat p = true
  /\ Queue.current (Player.queue p) = Some Examples.tA
  /\ TrackUtils.has_symbol Examples.tA = true
  /\ Queue.items (Player.queue p) = []
  /\ exists p',
       Router.trackEnd true (Some Examples.tA) "stopped" p
       = Ok (p', [Emit (trackEnd "1" (Some Examples.tA) "stopped");
                  Emit (queueEnd "1" (Some Examples.tA))])
       /\ Player.queue p' = Queue.mk None (Some Examples.tA) [].
Proof.
  intros p. repeat (split; [first [reflexivity | discriminate]|]).
  refine (proj2 (trackEnd_stopped_queue_repeat true p Examples.tA _ _ _ _ _ _) _);
    first [reflexivity | discriminate].
Defined.

(** X12: a track end with reason [loadFailed] or [cleanup] never repeats:
    whatever the repeat flags, the old current becomes previous and the
    head of the pending sequence becomes current; with nothing pending
    the queue ends, and here [previous] is the track that failed. *)
Theorem trackEnd_load_failed (autoPlay : bool) (track : option Track.t) (reason : string)
    (p : Player.t) :
  Player.state p <> MOVING ->
  Player.state p <> RESUMING ->
  reason = "loadFailed" \/ reason = "cleanup" ->
  exists p' effs,
    Router.trackEnd autoPlay track reason p = Ok (p', effs)
    /\ Player.queue p'
       = Queue.mk (head (Queue.items (Player.queue p))) (Queue.current (Player.queue p))
           (tail (Queue.items (Player.queue p)))
    /\ effs = match Queue.items (Player.queue p) with
              | [] => if Player.isAutoplay p
                      then [Spawn (TaskAutoplay (Player.guild p) track)]
                      else [Emit (queueEnd (Player.guild p) track)]
              | _ :: _ => Emit (trackEnd (Player.guild p) track reason)
                            :: (if autoPlay then [Spawn (TaskPlay (Player.guild p))] else [])
              end.
Proof.
  intros Hm Hr Hreason. unfold Router.trackEnd.
  rewrite (not_moving_or_resuming _ Hm Hr).
  assert (E : String.eqb reason "loadFailed" || String.eqb reason "cleanup" = true).
  { destruct Hreason as [-> | ->]; reflexivity. }
  rewrite E.
  unfold Router.advance, Queue.shift, JsArray.shift, Router.play_if, Router.queueEnd.
  cbn [Queue.items Queue.set_items Queue.set_previous Queue.current Queue.previous].
  destruct (Queue.items (Player.queue p)) as [|x l]; cbn.
  - destruct (Player.isAutoplay p); do 2 eexists; repeat split.
  - do 2 eexists; repeat split.
Qed.

Lemma trackEnd_load_failed_witness :
  let p := Player.set_repeat true false false (Examples.player "1" "n1" Examples.queueAB) in
  Player.state p <> MOVING /\ Player.state p <> RESUMING
  /\ ("loadFailed"%string = "loadFailed"%string \/ "loadFailed"%string = "cleanup"%string)
  /\ exists p' effs,
       Router.trackEnd false (Some Examples.tA) "loadFailed" p = Ok (p', effs)
       /\ Player.queue p' = Queue.mk (Some Examples.tB) (Some Examples.tA) []
       /\ effs = [Emit (trackEnd "1" (Some Examples.tA) "loadFailed")].
Proof.
  intros p. split; [discriminate|]. split; [discriminate|].
  assert (H : "loadFailed"%string = "loadFailed"%string
              \/ "loadFailed"%string = "cleanup"%string) by (now left).
  split; [exact H|].
  apply (trackEnd_load_failed false (Some Examples.tA) "loadFailed" p);
    first [discriminate | exact H].
Defined.

(** X13: a track end never makes the queue longer: for every player,
    reason and repeat mode, [totalSize] after the handler is at most
    [totalSize] before it. *)
Theorem trackEnd_never_grows (autoPlay : bool) (track : option Track.t) (reason : string)
    (p p' : Player.t) (effs : list Effect) :
  Router.trackEnd autoPlay track reason p = Ok (p', effs) ->
  Queue.totalSize (Player.queue p') <= Queue.totalSize (Player.queue p).
Proof.
  unfold Router.trackEnd.
  unfold Router.advance, Queue.shift, JsArray.shift, Router.queueEnd, Queue.unshift,
    JsArray.unshift, Queue.add, JsArray.push.
  cbn [TrackUtils.validate].
  unfold Queue.totalSize, Queue.length, JsArray.len.
  destruct (Router.isMovingOrResuming (Player.state p)).
  { intros E; inversion E; subst; lia. }
  destruct (Player.queue p) as [cur prev items].
  cbn [Queue.current Queue.previous Queue.items Queue.set_previous Queue.set_items
       Queue.set_current].
  destruct (String.eqb reason "loadFailed" || String.eqb reason "cleanup").
  { destruct cur, items as [|x l]; cbn; destruct (Player.isAutoplay p); cbn;
      intros E; inversion E; subst; cbn; lia. }
  destruct (String.eqb reason "replaced").
  { intros E; inversion E; subst; cbn; lia. }
  destruct track as [t|], cur as [c|], (Player.trackRepeat p), (Player.queueRepeat p);
    cbn [orb];
    try destruct (TrackUtils.has_symbol c); cbn [negb];
    destruct (String.eqb reason "stopped"), items as [|x [|y l]];
    cbn; destruct (Player.isAutoplay p); cbn;
    intros E; inversion E; subst; cbn; rewrite ?length_app; cbn; lia.
Qed.

Lemma trackEnd_never_grows_witness :
  let p := Player.set_repeat false true false (Examples.player "1" "n1" Examples.queueAB) in
  let p' := Player.set_queue (Queue.mk (Some Examples.tA) (Some Examples.tA) []) p in
  Router.trackEnd false (Some Examples.tA) "stopped" p
  = Ok (p', [Emit (trackEnd "1" (Some Examples.tA) "stopped")])
  /\ Queue.totalSize (Player.queue p') <= Queue.totalSize (Player.queue p).
Proof.
  intros p p'. split; [reflexivity|].
  exact (trackEnd_never_grows false (Some Examples.tA) "stopped" p p' _ eq_refl).
Defined.

(** X14: [handleEvent] drops an event without a guild id, with an empty
    guild id or for a guild without a player: the manager is left as it
    was and nothing is emitted, whatever the event type. *)
Theorem handleEvent_drops (id : string) (payload : PlayerEvent) (w : Manager.t) :
  (forall g, guildId payload = Some g ->
     g = ""%string \/ Collection.get g (Manager.players w) = None) ->
  Router.handleEvent id payload w = (Ok tt, w).
Proof.
  intros H. unfold Router.handleEvent.
  destruct (guildId payload) as [g|]; [|reflexivity].
  destruct (H g eq_refl) as [-> | Hn]; [reflexivity|].
  destruct (String.eqb g ""); [reflexivity|].
  rewrite bind_run. unfold getPlayer, gets. now rewrite Hn.
Qed.

Lemma handleEvent_drops_witness :
  let payload := {| guildId := Some "77"%string; type := "TrackEndEvent";
                    reason := "finished" |} in
  (forall g, guildId payload = Some g ->
     g = ""%string \/ Collection.get g (Manager.players (Examples.oneNode Infinity)) = None)
  /\ Router.handleEvent "n1" payload (Examples.oneNode Infinity)
     = (Ok tt, Examples.oneNode Infinity).
Proof.
  intros payload.
  assert (H : forall g, guildId payload = Some g ->
                g = ""%string
                \/ Collection.get g (Manager.players (Examples.oneNode Infinity)) = None).
  { intros g [= <-]. right. reflexivity. }
  split; [exact H|]. exact (handleEvent_drops "n1" payload _ H).
Defined.

(** ** Frame lemmas *)

Section Keeps.
Context (P : Manager.t -> Prop).

Lemma keeps_ret {A} (a : A) : keeps P (mret a).
Proof. intros w H. exact H. Qed.

Lemma keeps_throw {A} e : keeps P (@throw A e).
Proof. intros w H. exact H. Qed.

Lemma keeps_lift {A} (r : Result A) : keeps P (lift r).
Proof. intros w H. exact H. Qed.

Lemma keeps_gets {A} (f : Manager.t -> A) : keeps P (gets f).
Proof. intros w H. exact H. Qed.

Lemma keeps_bind {A B} (m : M A) (k : A -> M B) :
  keeps P m -> (forall a, keeps P (k a)) -> keeps P (m ≫= k).
Proof.
  intros Hm Hk w H. rewrite bind_run. specialize (Hm w H).
  destruct (m w) as [[a|e] w']; cbn in *; [now apply Hk|exact Hm].
Qed.

Lemma keeps_modify f : (forall w, P w -> P (f w)) -> keeps P (modify f).
Proof. intros Hf w H. now apply Hf. Qed.

Lemma keeps_try m : keeps P m -> keeps P (try_ m).
Proof.
  intros Hm w H. unfold try_. specialize (Hm w H).
  destruct (m w) as [[a|e] w']; exact Hm.
Qed.

Lemma keeps_forEach {A} (f : A -> M unit) l :
  (forall a, keeps P (f a)) -> keeps P (forEach f l).
Proof.
  intros Hf. induction l as [|x l IH]; cbn [forEach].
  - apply keeps_ret.
  - apply keeps_bind; [apply Hf|intros _; exact IH].
Qed.

Lemma keeps_forOf {A} (body : A -> M Resume.Flow) l :
  (forall a, keeps P (body a)) -> keeps P (Resume.forOf body l).
Proof.
  intros Hf. induction l as [|x l IH]; cbn [Resume.forOf].
  - apply keeps_ret.
  - apply keeps_bind; [apply Hf|]. intros [|]; [exact IH|apply keeps_ret].
Qed.
End Keeps.


Lemma keeps_setTimer P t :
  (forall w x h, P w -> P (Manager.set_timers x h w)) -> keeps P (setTimer t).
Proof. intros Hf w H. unfold setTimer. cbn. now apply Hf. Qed.

(** Solves [keeps P m] for a property [P] of components of the state
    that [m] does not write. *)
Ltac keeps_tac :=
  repeat first
    [ apply keeps_ret | apply keeps_throw | apply keeps_lift | apply keeps_gets
    | apply keeps_bind; [|intros ?]
    | apply keeps_forEach; intros ?
    | apply keeps_forOf; intros ?
    | apply keeps_try
    | apply keeps_setTimer; intros ? ? ? ?; cbn; solve [auto]
    | apply keeps_modify; intros ? ?; cbn; solve [auto]
    | match goal with
      | |- keeps _ (if ?b then _ else _) => destruct b
      | |- keeps _ (match ?x with _ => _ end) => destruct x
      end
    | progress unfold skip, effect, emit, db_get, db_set, db_delete, getPlayer, thisPlayer,
        putPlayer, updPlayer, getNode, thisNode, putNode, updNode, clearTimer,
        PlayerOps.destroy, PlayerOps.disconnect, PlayerOps.connect, PlayerOps.save,
        Resume.updQueue ].

Lemma playerDestroy_keeps_nodes N t h b g :
  keeps (fun w => Manager.nodes w = N /\ Manager.timers w = t /\ Manager.nextHandle w = h)
    (PlayerOps.destroy b g).
Proof. keeps_tac. Qed.

(** ** The close handler and the reconnect schedule *)

Lemma fatalErrors_app id w l :
  fatalErrors id (Manager.set_trace (Manager.trace w ++ l) w)
  = (fatalErrors id w + length (List.filter (isFatal id) l))%nat.
Proof. unfold fatalErrors. cbn. now rewrite List.filter_app, length_app. Qed.

Lemma connectAttempts_app id w l :
  connectAttempts id (Manager.set_trace (Manager.trace w ++ l) w)
  = (connectAttempts id w + length (List.filter (isSocketOpen id) l))%nat.
Proof. unfold connectAttempts. cbn. now rewrite List.filter_app, length_app. Qed.

Lemma closeFrame_refl id w : closeFrame id w w.
Proof. repeat split. Qed.

Lemma closeLoop_frame id w0 (autoMove : bool) ks :
  keeps (closeFrame id w0)
    (forEach
       (fun g =>
          if negb autoMove then updPlayer g (Player.set_playing false)
          else effect (Spawn (TaskMoveNode g))) ks).
Proof.
  apply keeps_forEach. intros g. destruct (negb autoMove).
  - unfold closeFrame, fatalErrors, connectAttempts. keeps_tac.
  - intros w (H1 & H2 & H3 & H4 & H5 & H6 & H7). rewrite effect_run. cbn [snd].
    unfold closeFrame. rewrite fatalErrors_app, connectAttempts_app. cbn.
    repeat split; try assumption; lia.
Qed.

(** The state after the close handler, up to what the loop over the
    players does. *)
Lemma close_run id code reason w n :
  Collection.get id (Manager.nodes w) = Some n ->
  let w1 :=
    if abnormal code reason then
      Manager.set_nodes
        (Collection.set id (Node.set_reconnectTimeout (Some (Manager.nextHandle w)) n)
           (Manager.nodes w))
        (Manager.set_timers (Manager.timers w ++ [(Manager.nextHandle w, ReconnectTick id)])
           (S (Manager.nextHandle w))
           (Manager.set_trace (Manager.trace w ++ [Emit (nodeDisconnect id code reason)]) w))
    else Manager.set_trace (Manager.trace w ++ [Emit (nodeDisconnect id code reason)]) w in
  closeFrame id w1 (exec (NodeOps.close id code reason) w).
Proof.
  intros Hn w1. unfold exec, NodeOps.close.
  rewrite bind_run, emit_run, bind_run.
  fold (abnormal code reason). subst w1.
  destruct (abnormal code reason).
  - unfold NodeOps.reconnect. rewrite bind_run. unfold setTimer at 1.
    rewrite (updNode_run _ _ _ n) by exact Hn.
    rewrite bind_run. unfold gets at 1. cbv [Datatypes.id].
    apply closeLoop_frame, closeFrame_refl.
  - unfold skip at 1. cbn [mret M_ret].
    rewrite bind_run. unfold gets at 1. cbv [Datatypes.id].
    apply closeLoop_frame, closeFrame_refl.
Qed.

(** X15: a close with a code other than 1000, or with a reason other
    than "destroy", schedules a reconnect: the handler adds exactly one
    reconnect timer for the node, behind the pending ones, and stores
    its handle in the node.  The loop over the players of the node
    changes neither the timers nor the nodes. *)
Theorem close_schedules_reconnect (id : string) (code : Z) (reason : string)
    (w : Manager.t) (n : Node.t) :
  Collection.get id (Manager.nodes w) = Some n ->
  code <> 1000 \/ reason <> "destroy"%string ->
  let w' := exec (NodeOps.close id code reason) w in
  Manager.timers w' = Manager.timers w ++ [(Manager.nextHandle w, ReconnectTick id)]
  /\ Collection.get id (Manager.nodes w')
     = Some (Node.set_reconnectTimeout (Some (Manager.nextHandle w)) n)
  /\ (forall id', id' <> id ->
        Collection.get id' (Manager.nodes w') = Collection.get id' (Manager.nodes w)).
Proof.
  intros Hn Hab w'. pose proof (close_run id code reason w n Hn) as Hrun.
  cbv zeta in Hrun. fold w' in Hrun.
  assert (E : abnormal code reason = true).
  { unfold abnormal. destruct Hab as [H|H].
    - apply Z.eqb_neq in H. now rewrite H.
    - apply String.eqb_neq in H. rewrite H. apply orb_true_r. }
  rewrite E in Hrun. destruct Hrun as (H1 & H2 & _).
  split; [exact H2|]. rewrite H1. cbn. split; [apply get_set_eq|].
  intros id' Hne. now rewrite get_set_ne by congruence.
Qed.

Lemma close_schedules_reconnect_witness :
  let w := Examples.oneNode Infinity in
  let w' := exec (NodeOps.close "n1" 1006 "") w in
  Collection.get "n1" (Manager.nodes w) = Some (Examples.openNode "n1" Infinity)
  /\ (1006 <> 1000 \/ ""%string <> "destroy"%string)
  /\ Manager.timers w' = [(0%nat, ReconnectTick "n1")]
  /\ Collection.get "n1" (Manager.nodes w')
     = Some (Node.set_reconnectTimeout (Some 0%nat) (Examples.openNode "n1" Infinity)).
Proof.
  intros w w'.
  assert (H : 1006 <> 1000 \/ ""%string <> "destroy"%string) by (left; discriminate).
  split; [reflexivity|]. split; [exact H|].
  destruct (close_schedules_reconnect "n1" 1006 "" w _ eq_refl H) as (Ht & Hn & _).
  split; [exact Ht|exact Hn].
Defined.

Lemma get_of_key {V} (g : string) (c : Collection.t V) :
  g ∈ Collection.keys c -> exists v, Collection.get g c = Some v.
Proof.
  unfold Collection.keys. induction c as [|[k v] c IH]; cbn.
  - intros H. inversion H.
  - intros H. rewrite get_cons. destruct (String.eqb k g) eqn:E; [eauto|].
    apply IH. apply elem_of_cons in H as [->|H]; [|exact H].
    rewrite String.eqb_refl in E. discriminate.
Qed.

Lemma keys_filter_subset {V} (f : V -> bool) (c : Collection.t V) (g : string) :
  g ∈ Collection.keys (Collection.filter f c) -> g ∈ Collection.keys c.
Proof.
  unfold Collection.keys, Collection.filter. induction c as [|[k v] c IH]; cbn; [auto|].
  destruct (f v); cbn; rewrite ?elem_of_cons; intuition.
Qed.

Lemma get_set_is_Some {V} k k' (v : V) c :
  is_Some (Collection.get k' c) -> is_Some (Collection.get k' (Collection.set k v c)).
Proof.
  intros H. destruct (decide (k = k')) as [->|Hne].
  - rewrite get_set_eq. eauto.
  - now rewrite get_set_ne.
Qed.

Lemma closeLoop_ok (autoMove : bool) ks w :
  (forall g, g ∈ ks -> is_Some (Collection.get g (Manager.players w))) ->
  fst (forEach
         (fun g =>
            if negb autoMove then updPlayer g (Player.set_playing false)
            else effect (Spawn (TaskMoveNode g))) ks w) = Ok tt.
Proof.
  revert w. induction ks as [|g ks IH]; intros w H; [reflexivity|].
  cbn [forEach]. rewrite bind_run.
  destruct (H g) as [p Hp]; [apply elem_of_cons; now left|].
  destruct (negb autoMove).
  - rewrite (updPlayer_run _ _ _ _ Hp). apply IH.
    intros g' Hg'. cbn. apply get_set_is_Some, H, elem_of_cons. now right.
  - rewrite effect_run. apply IH.
    intros g' Hg'. cbn. apply H, elem_of_cons. now right.
Qed.

Lemma close_ok id code reason w n :
  Collection.get id (Manager.nodes w) = Some n ->
  result (NodeOps.close id code reason) w = Ok tt.
Proof.
  intros Hn. unfold result, NodeOps.close.
  rewrite bind_run, emit_run, bind_run.
  assert (Hre : exists w1,
    (if negb (code =? 1000) || negb (String.eqb reason "destroy")
     then NodeOps.reconnect id else skip)
      (Manager.set_trace (Manager.trace w ++ [Emit (nodeDisconnect id code reason)]) w)
    = (Ok tt, w1)).
  { destruct (negb (code =? 1000) || negb (String.eqb reason "destroy")).
    - unfold NodeOps.reconnect. rewrite bind_run. unfold setTimer at 1.
      rewrite (updNode_run _ _ _ n) by exact Hn. eauto.
    - eauto. }
  destruct Hre as [w1 ->].
  rewrite bind_run. unfold gets at 1. cbv [Datatypes.id].
  apply closeLoop_ok. intros g Hg.
  apply keys_filter_subset in Hg. destruct (get_of_key _ _ Hg) as [v Hv]. eauto.
Qed.

Lemma filter_handle_fresh (h : nat) (t : Timer) (l : list (nat * Timer)) :
  Forall (fun e => (fst e < h)%nat) l ->
  List.filter (fun e => negb (Nat.eqb (fst e) h)) (l ++ [(h, t)]) = l
  /\ List.find (fun e => Nat.eqb (fst e) h) (l ++ [(h, t)]) = Some (h, t).
Proof.
  induction 1 as [|[h' t'] l Hlt _ IH]; cbn.
  - rewrite Nat.eqb_refl. split; reflexivity.
  - cbn in Hlt. destruct (Nat.eqb h' h) eqn:E.
    + apply Nat.eqb_eq in E. lia.
    + cbn. destruct IH as [IH1 IH2]. split; [now rewrite IH1|exact IH2].
Qed.

Lemma reconnectTick_below id w n :
  Collection.get id (Manager.nodes w) = Some n ->
  geb_num (Node.reconnectAttempts n) (Node.retryAmount (Node.options n)) = false ->
  exists w',
    NodeOps.reconnectTick id w = (Ok tt, w')
    /\ Collection.get id (Manager.nodes w')
       = Some (Node.set_reconnectAttempts (Node.reconnectAttempts n + 1)
                 (Node.set_socket (Some WebSocket.CONNECTING) n))
    /\ Manager.timers w' = Manager.timers w
    /\ Manager.nextHandle w' = Manager.nextHandle w
    /\ fatalErrors id w' = fatalErrors id w
    /\ connectAttempts id w' = S (connectAttempts id w).
Proof.
  intros Hn Hg. unfold NodeOps.reconnectTick.
  rewrite bind_run, (thisNode_run _ _ _ Hn), Hg.
  rewrite bind_run, (updNode_run _ _ _ n) by exact Hn.
  rewrite bind_run, emit_run, bind_run.
  unfold NodeOps.connect.
  rewrite bind_run.
  rewrite (thisNode_run id _ (Node.set_socket None n))
    by (cbn [Manager.nodes Manager.set_nodes Manager.set_trace]; apply get_set_eq).
  cbn [Node.connected Node.socket Node.set_socket].
  rewrite bind_run. unfold db_get at 1, gets at 1.
  rewrite bind_run. unfold gets at 1. cbv [Datatypes.id].
  rewrite bind_run, effect_run.
  rewrite (updNode_run id _ _ (Node.set_socket None n))
    by (cbn [Manager.nodes Manager.set_nodes Manager.set_trace]; apply get_set_eq).
  rewrite (updNode_run id _ _ (Node.set_socket (Some WebSocket.CONNECTING) (Node.set_socket None n)))
    by (cbn [Manager.nodes Manager.set_nodes Manager.set_trace]; apply get_set_eq).
  eexists. split; [reflexivity|].
  cbn [Manager.nodes Manager.set_nodes Manager.set_trace Manager.timers Manager.nextHandle].
  rewrite get_set_eq. repeat split.
  - unfold fatalErrors. cbn. rewrite !List.filter_app, !length_app. cbn. lia.
  - unfold connectAttempts. cbn. rewrite !List.filter_app, !length_app. cbn.
    rewrite String.eqb_refl. cbn. lia.
Qed.

Lemma ws_close_run id code reason w n s :
  Collection.get id (Manager.nodes w) = Some n ->
  Node.socket n = Some s ->
  abnormal code reason = true ->
  let w' := exec (EventLoop.ws_close id code reason) w in
  result (EventLoop.ws_close id code reason) w = Ok tt
  /\ Collection.get id (Manager.nodes w')
     = Some (Node.set_reconnectTimeout (Some (Manager.nextHandle w))
               (Node.set_socket (Some WebSocket.CLOSED) n))
  /\ Manager.timers w' = Manager.timers w ++ [(Manager.nextHandle w, ReconnectTick id)]
  /\ Manager.nextHandle w' = S (Manager.nextHandle w)
  /\ fatalErrors id w' = fatalErrors id w
  /\ connectAttempts id w' = connectAttempts id w.
Proof.
  intros Hn Hs Hab w'. subst w'. unfold exec, result, EventLoop.ws_close.
  rewrite bind_run, (thisNode_run _ _ _ Hn), Hs.
  rewrite bind_run, (updNode_run _ _ _ n) by exact Hn.
  set (w0 := Manager.set_nodes _ w).
  assert (Hn0 : Collection.get id (Manager.nodes w0)
                = Some (Node.set_socket (Some WebSocket.CLOSED) n)).
  { subst w0. cbn. apply get_set_eq. }
  pose proof (close_run id code reason w0 _ Hn0) as Hrun.
  cbv zeta in Hrun. rewrite Hab in Hrun. unfold exec in Hrun.
  destruct Hrun as (H1 & H2 & H3 & _ & _ & H6 & H7).
  split; [exact (close_ok id code reason w0 _ Hn0)|].
  rewrite H1, H2, H3, H6, H7.
  cbn [Manager.nodes Manager.set_nodes Manager.set_trace Manager.timers Manager.set_timers
       Manager.nextHandle].
  rewrite get_set_eq. repeat split.
  - unfold fatalErrors. cbn. rewrite List.filter_app, length_app. cbn. lia.
  - unfold connectAttempts. cbn. rewrite List.filter_app, length_app. cbn. lia.
Qed.

Lemma fireReconnect_run id w n h :
  Collection.get id (Manager.nodes w) = Some n ->
  Node.reconnectTimeout n = Some h ->
  forall l, Manager.timers w = l ++ [(h, ReconnectTick id)] ->
  Forall (fun e => (fst e < h)%nat) l ->
  fireReconnect id w
  = NodeOps.reconnectTick id (Manager.set_timers l (Manager.nextHandle w) w).
Proof.
  intros Hn Hh l Ht Hl. unfold fireReconnect.
  rewrite bind_run, (thisNode_run _ _ _ Hn), Hh.
  unfold EventLoop.fire. rewrite bind_run. unfold gets at 1, EventLoop.lookupTimer.
  destruct (filter_handle_fresh h (ReconnectTick id) l Hl) as [Hf Hfind].
  rewrite Ht, Hfind. cbn [fmap option_fmap option_map snd].
  rewrite bind_run. cbn [clearTimer modify]. rewrite Ht, Hf. reflexivity.
Qed.

Lemma cycle_below id code reason w n s :
  abnormal code reason = true ->
  Collection.get id (Manager.nodes w) = Some n ->
  Node.socket n = Some s ->
  freshHandles w ->
  geb_num (Node.reconnectAttempts n) (Node.retryAmount (Node.options n)) = false ->
  exists w' n',
    abnormalClose id code reason w = (Ok tt, w')
    /\ Collection.get id (Manager.nodes w') = Some n'
    /\ Node.reconnectAttempts n' = Node.reconnectAttempts n + 1
    /\ Node.options n' = Node.options n
    /\ Node.socket n' = Some WebSocket.CONNECTING
    /\ Manager.timers w' = Manager.timers w
    /\ freshHandles w'
    /\ fatalErrors id w' = fatalErrors id w
    /\ connectAttempts id w' = S (connectAttempts id w).
Proof.
  intros Hab Hn Hs Hfresh Hg. unfold abnormalClose. rewrite bind_run.
  pose proof (ws_close_run id code reason w n s Hn Hs Hab) as Hrun.
  cbv zeta in Hrun. unfold exec, result in Hrun.
  destruct (EventLoop.ws_close id code reason w) as [r wA]. cbn [fst snd] in Hrun.
  destruct Hrun as (-> & HnA & HtA & HhA & HfA & HcA).
  rewrite (fireReconnect_run id wA _ (Manager.nextHandle w) HnA eq_refl _ HtA Hfresh).
  edestruct (reconnectTick_below id (Manager.set_timers (Manager.timers w)
                                       (Manager.nextHandle wA) wA))
    as (w' & E & Hn' & Ht' & Hh' & Hf' & Hc'); [exact HnA|exact Hg|].
  rewrite E. do 2 eexists. split; [reflexivity|]. split; [exact Hn'|].
  cbn in Ht', Hh'.
  repeat split; try reflexivity.
  - exact Ht'.
  - unfold freshHandles in *. rewrite Ht', Hh', HhA.
    eapply Forall_impl; [exact Hfresh|]. cbn. intros; lia.
  - rewrite Hf'. exact HfA.
  - rewrite Hc'. f_equal. exact HcA.
Qed.

Lemma cycle_at_ceiling id code reason w n s :
  abnormal code reason = true ->
  Collection.get id (Manager.nodes w) = Some n ->
  Node.socket n = Some s ->
  freshHandles w ->
  geb_num (Node.reconnectAttempts n) (Node.retryAmount (Node.options n)) = true ->
  exists w' n',
    abnormalClose id code reason w = (Ok tt, w')
    /\ Collection.get id (Manager.nodes w') = Some n'
    /\ Node.reconnectAttempts n' = Node.reconnectAttempts n
    /\ Node.socket n' = Some WebSocket.CLOSED
    /\ Manager.timers w' = Manager.timers w
    /\ fatalErrors id w' = S (fatalErrors id w)
    /\ connectAttempts id w' = connectAttempts id w.
Proof.
  intros Hab Hn Hs Hfresh Hg. unfold abnormalClose. rewrite bind_run.
  pose proof (ws_close_run id code reason w n s Hn Hs Hab) as Hrun.
  cbv zeta in Hrun. unfold exec, result in Hrun.
  destruct (EventLoop.ws_close id code reason w) as [r wA]. cbn [fst snd] in Hrun.
  destruct Hrun as (-> & HnA & HtA & HhA & HfA & HcA).
  rewrite (fireReconnect_run id wA _ (Manager.nextHandle w) HnA eq_refl _ HtA Hfresh).
  rewrite (reconnectTick_exhausted id
             (Manager.set_timers (Manager.timers w) (Manager.nextHandle wA) wA) _ HnA)
    by (first [exact Hg | reflexivity]).
  do 2 eexists. split; [reflexivity|].
  cbn [Manager.nodes Manager.set_trace Manager.set_timers Manager.timers].
  split; [exact HnA|]. repeat split.
  - rewrite fatalErrors_app. cbn. rewrite String.eqb_refl. cbn.
    unfold fatalErrors in *. cbn. rewrite HfA. lia.
  - rewrite connectAttempts_app. cbn. unfold connectAttempts in *. cbn. rewrite HcA. lia.
Qed.

Lemma reconnect_cycles id code reason k :
  abnormal code reason = true ->
  forall w n,
    Collection.get id (Manager.nodes w) = Some n ->
    Node.socket n <> None ->
    freshHandles w ->
    (forall i, (i < k)%nat ->
       geb_num (Node.reconnectAttempts n + Z.of_nat i) (Node.retryAmount (Node.options n))
       = false) ->
    exists w' n',
      times k (abnormalClose id code reason) w = (Ok tt, w')
      /\ Collection.get id (Manager.nodes w') = Some n'
      /\ Node.reconnectAttempts n' = Node.reconnectAttempts n + Z.of_nat k
      /\ Node.options n' = Node.options n
      /\ Node.socket n' <> None
      /\ Manager.timers w' = Manager.timers w
      /\ freshHandles w'
      /\ fatalErrors id w' = fatalErrors id w
      /\ connectAttempts id w' = (connectAttempts id w + k)%nat.
Proof.
  intros Hab. induction k as [|k IH]; intros w n Hn Hs Hfresh Hbelow.
  - exists w, n. cbn. repeat split; try assumption; try lia.
  - destruct (Node.socket n) as [s|] eqn:Es; [|congruence].
    destruct (cycle_below id code reason w n s Hab Hn Es Hfresh)
      as (w1 & n1 & E1 & Hn1 & Ha1 & Ho1 & Hs1 & Ht1 & Hf1 & Hfat1 & Hc1).
    { specialize (Hbelow 0%nat ltac:(lia)). now rewrite Z.add_0_r in Hbelow. }
    destruct (IH w1 n1 Hn1) as (w' & n' & E & Hn' & Ha' & Ho' & Hs' & Ht' & Hf' & Hfat' & Hc').
    { rewrite Hs1. discriminate. }
    { exact Hf1. }
    { intros i Hi. rewrite Ha1, Ho1.
      specialize (Hbelow (S i) ltac:(lia)).
      replace (Node.reconnectAttempts n + 1 + Z.of_nat i)
        with (Node.reconnectAttempts n + Z.of_nat (S i)) by lia.
      exact Hbelow. }
    exists w', n'. cbn [times]. rewrite bind_run, E1, E.
    repeat split; try assumption; try congruence; try lia.
Qed.

(** X16: the reconnect schedule.  Starting from a node with a socket,
    each non-normal close whose reconnect timer expires while the
    attempt counter is below the retry ceiling leads to exactly one new
    connection attempt and raises the counter by one, without a fatal
    error and without a timer left pending; so with the default ceiling
    [Infinity] a node never gives up.  The close that finds the counter
    at the ceiling produces exactly one fatal error and no further
    connection attempt. *)
Theorem reconnect_schedule (id : string) (code : Z) (reason : string) (k : nat)
    (w : Manager.t) (n : Node.t) :
  code <> 1000 \/ reason <> "destroy"%string ->
  Collection.get id (Manager.nodes w) = Some n ->
  Node.socket n <> None ->
  freshHandles w ->
  (forall i, (i < k)%nat ->
     geb_num (Node.reconnectAttempts n + Z.of_nat i) (Node.retryAmount (Node.options n))
     = false) ->
  exists w' n',
    times k (abnormalClose id code reason) w = (Ok tt, w')
    /\ Collection.get id (Manager.nodes w') = Some n'
    /\ Node.reconnectAttempts n' = Node.reconnectAttempts n + Z.of_nat k
    /\ Manager.timers w' = Manager.timers w
    /\ fatalErrors id w' = fatalErrors id w
    /\ connectAttempts id w' = (connectAttempts id w + k)%nat
    /\ (geb_num (Node.reconnectAttempts n + Z.of_nat k) (Node.retryAmount (Node.options n))
        = true ->
        exists w'',
          abnormalClose id code reason w' = (Ok tt, w'')
          /\ fatalErrors id w'' = S (fatalErrors id w)
          /\ connectAttempts id w'' = (connectAttempts id w + k)%nat
          /\ Manager.timers w'' = Manager.timers w).
Proof.
  intros Hcode Hn Hs Hfresh Hbelow.
  assert (Hab : abnormal code reason = true).
  { unfold abnormal. destruct Hcode as [H|H].
    - apply Z.eqb_neq in H. now rewrite H.
    - apply String.eqb_neq in H. rewrite H. apply orb_true_r. }
  destruct (reconnect_cycles id code reason k Hab w n Hn Hs Hfresh Hbelow)
    as (w' & n' & E & Hn' & Ha' & Ho' & Hs' & Ht' & Hf' & Hfat' & Hc').
  exists w', n'. repeat (split; [assumption|]).
  intros Hceil.
  destruct (Node.socket n') as [s|] eqn:Es; [|congruence].
  destruct (cycle_at_ceiling id code reason w' n' s Hab Hn' Es Hf')
    as (w'' & n'' & E'' & _ & _ & _ & Ht'' & Hfat'' & Hc'').
  { now rewrite Ha', Ho'. }
  exists w''. split; [exact E''|]. repeat split; congruence.
Qed.

Lemma reconnect_schedule_witness :
  let w := Examples.oneNode (Finite 3) in
  let n := Examples.openNode "n1" (Finite 3) in
  (1006 <> 1000 \/ ""%string <> "destroy"%string)
  /\ Collection.get "n1" (Manager.nodes w) = Some n
  /\ Node.socket n <> None
  /\ freshHandles w
  /\ (forall i, (i < 2)%nat ->
        geb_num (Node.reconnectAttempts n + Z.of_nat i) (Node.retryAmount (Node.options n))
        = false)
  /\ geb_num (Node.reconnectAttempts n + Z.of_nat 2) (Node.retryAmount (Node.options n)) = true
  /\ exists w' w'',
       times 2 (abnormalClose "n1" 1006 "") w = (Ok tt, w')
       /\ connectAttempts "n1" w' = (connectAttempts "n1" w + 2)%nat
       /\ fatalErrors "n1" w' = fatalErrors "n1" w
       /\ abnormalClose "n1" 1006 "" w' = (Ok tt, w'')
       /\ fatalErrors "n1" w'' = S (fatalErrors "n1" w)
       /\ connectAttempts "n1" w'' = (connectAttempts "n1" w + 2)%nat.
Proof.
  intros w n.
  assert (H1 : 1006 <> 1000 \/ ""%string <> "destroy"%string) by (left; discriminate).
  assert (H2 : Collection.get "n1" (Manager.nodes w) = Some n) by reflexivity.
  assert (H3 : Node.socket n <> None) by discriminate.
  assert (H4 : freshHandles w) by constructor.
  assert (H5 : forall i, (i < 2)%nat ->
            geb_num (Node.reconnectAttempts n + Z.of_nat i)
              (Node.retryAmount (Node.options n)) = false).
  { intros [|[|i]] Hi; [reflexivity|reflexivity|lia]. }
  assert (H6 : geb_num (Node.reconnectAttempts n + Z.of_nat 2)
                 (Node.retryAmount (Node.options n)) = true) by reflexivity.
  repeat (split; [assumption|]).
  destruct (reconnect_schedule "n1" 1006 "" 2 w n H1 H2 H3 H4 H5)
    as (w' & n' & E & _ & _ & _ & Hf & Hc & Hlast).
  destruct (Hlast H6) as (w'' & E'' & Hf'' & Hc'' & _).
  exists w', w''. repeat split; assumption.
Defined.

(** ** [Player.destroy] and [Node.destroy] *)

Lemma playerDestroy_run g w p :
  Collection.get g (Manager.players w) = Some p ->
  Player.guild p = g ->
  exists w',
    PlayerOps.destroy true g w = (Ok tt, w')
    /\ (forall g', Collection.get g' (Manager.players w')
                   = if decide (g' = g) then None else Collection.get g' (Manager.players w))
    /\ Manager.db w' = delete (playersKey g) (Manager.db w)
    /\ Manager.nodes w' = Manager.nodes w
    /\ Manager.timers w' = Manager.timers w
    /\ Manager.nextHandle w' = Manager.nextHandle w
    /\ Manager.trace w'
       = Manager.trace w
         ++ (match Player.voiceChannel p with
             | Some _ => [Send g None false false]
             | None => []
             end)
         ++ [Rest (Player.node p) (DestroyPlayer g); Emit (playerDestroy g)].
Proof.
  intros Hp Hg. unfold PlayerOps.destroy.
  rewrite bind_run, (updPlayer_run _ _ _ _ Hp), bind_run.
  set (w1 := Manager.set_players _ w).
  assert (Hp1 : Collection.get g (Manager.players w1) = Some (Player.set_state DESTROYING p)).
  { subst w1. cbn. apply get_set_eq. }
  assert (Hdis : exists w2 p2,
    PlayerOps.disconnect g w1 = (Ok tt, w2)
    /\ Collection.get g (Manager.players w2) = Some p2
    /\ Player.guild p2 = g /\ Player.node p2 = Player.node p
    /\ (forall g', g' <> g ->
          Collection.get g' (Manager.players w2) = Collection.get g' (Manager.players w))
    /\ Manager.db w2 = Manager.db w /\ Manager.nodes w2 = Manager.nodes w
    /\ Manager.timers w2 = Manager.timers w /\ Manager.nextHandle w2 = Manager.nextHandle w
    /\ Manager.trace w2
       = Manager.trace w ++ match Player.voiceChannel p with
                            | Some _ => [Send g None false false]
                            | None => []
                            end).
  { unfold PlayerOps.disconnect. rewrite bind_run, (thisPlayer_run _ _ _ Hp1).
    cbn [Player.voiceChannel Player.set_state].
    destruct (Player.voiceChannel p) as [vc|].
    - rewrite bind_run, (updPlayer_run _ _ _ _ Hp1).
      rewrite bind_run, effect_run, bind_run.
      erewrite updPlayer_run by (cbn; apply get_set_eq).
      erewrite updPlayer_run by (cbn; apply get_set_eq).
      do 2 eexists. split; [reflexivity|]. cbn. rewrite get_set_eq.
      split; [reflexivity|]. split; [exact Hg|]. split; [reflexivity|].
      split; [|repeat split].
      intros g' Hne. subst w1. cbn. now rewrite !get_set_ne by congruence.
    - exists w1, (Player.set_state DESTROYING p).
      split; [reflexivity|]. split; [exact Hp1|]. split; [exact Hg|]. split; [reflexivity|].
      split; [|subst w1; cbn; repeat split; now rewrite app_nil_r].
      intros g' Hne. subst w1. cbn. now rewrite get_set_ne by congruence. }
  destruct Hdis as (w2 & p2 & -> & Hp2 & Hg2 & Hn2 & Hother & Hdb & Hnodes & Ht & Hh & Htr).
  rewrite bind_run, (thisPlayer_run _ _ _ Hp2).
  rewrite bind_run, effect_run, bind_run, emit_run, bind_run.
  unfold modify at 1. unfold db_delete, modify.
  eexists. split; [reflexivity|].
  cbn [Manager.players Manager.set_players Manager.set_trace Manager.set_db Manager.db
       Manager.nodes Manager.timers Manager.nextHandle Manager.trace].
  rewrite Hg2, Hn2, Hdb, Hnodes, Ht, Hh, Htr.
  split; [|repeat split; now rewrite <- !app_assoc].
  intros g'. case_decide as E.
  - subst g'. apply get_delete_eq.
  - rewrite get_delete_ne by congruence. now apply Hother.
Qed.







(** ** Player operations *)

(** X18: [pause] is idempotent and does nothing on a player whose queue
    is empty and has no current track: a call succeeds, a second call
    with the same argument changes nothing and sends nothing; with an
    empty queue the first call already changes nothing; otherwise the
    player ends with [paused] equal to the argument, and a call that
    changed [paused] leaves [playing] its negation and sends exactly one
    request carrying [paused]. *)
Theorem pause_idempotent (b : bool) (g : string) (w : Manager.t) (p : Player.t) :
  Collection.get g (Manager.players w) = Some p ->
  exists w' p',
    PlayerMore.pause b g w = (Ok tt, w')
    /\ Collection.get g (Manager.players w') = Some p'
    /\ PlayerMore.pause b g w' = (Ok tt, w')
    /\ (Queue.totalSize (Player.queue p) = 0 -> w' = w)
    /\ (Queue.totalSize (Player.queue p) <> 0 ->
          Player.paused p' = b
          /\ (Player.paused p <> b ->
                Player.playing p' = negb b
                /\ Manager.trace w'
                   = Manager.trace w
                     ++ [Rest (Player.node p)
                           (UpdatePlayer (Player.guild p)
                              {| encodedTrack := None; ud_position := None;
                                 ud_volume := None; ud_paused := Some b;
                                 ud_filters := None; ud_voice := None |})])).
Proof.
  intros Hp. unfold PlayerMore.pause at 1.
  rewrite bind_run, (thisPlayer_run _ _ _ Hp).
  destruct (Bool.eqb (Player.paused p) b) eqn:Eb; cbn [orb].
  - apply Bool.eqb_prop in Eb. exists w, p. split; [reflexivity|]. split; [exact Hp|].
    split.
    { unfold PlayerMore.pause. rewrite bind_run, (thisPlayer_run _ _ _ Hp).
      rewrite Eb, Bool.eqb_reflx. reflexivity. }
    split; [reflexivity|]. intros _. split; [exact Eb|]. intros H. contradiction.
  - destruct (Queue.totalSize (Player.queue p) =? 0) eqn:Ez.
    + apply Z.eqb_eq in Ez. exists w, p. split; [reflexivity|]. split; [exact Hp|].
      split.
      { unfold PlayerMore.pause. rewrite bind_run, (thisPlayer_run _ _ _ Hp).
        rewrite Eb. apply Z.eqb_eq in Ez. rewrite Ez. reflexivity. }
      split; [reflexivity|]. intros H. contradiction.
    + rewrite bind_run, (updPlayer_run _ _ _ _ Hp), bind_run.
      erewrite updPlayer_run by (cbn; apply get_set_eq).
      rewrite effect_run. eexists. eexists. split; [reflexivity|].
      cbn [Manager.players Manager.set_players Manager.set_trace Manager.trace].
      split; [apply get_set_eq|]. split.
      { unfold PlayerMore.pause. rewrite bind_run.
        erewrite thisPlayer_run by (cbn; apply get_set_eq).
        cbn [Player.paused Player.set_paused]. rewrite Bool.eqb_reflx. reflexivity. }
      apply Z.eqb_neq in Ez. split; [intros H; contradiction|].
      intros _. split; [reflexivity|]. intros _. split; reflexivity.
Qed.

Lemma pause_idempotent_witness :
  let w := Examples.oneNode Infinity in
  Collection.get "1" (Manager.players w) = Some (Examples.player "1" "n1" Examples.queueAB)
  /\ exists w', PlayerMore.pause true "1" w = (Ok tt, w')
                /\ PlayerMore.pause true "1" w' = (Ok tt, w').
Proof.
  intros w. split; [reflexivity|].
  destruct (pause_idempotent true "1" w _ eq_refl) as (w' & p' & E & _ & E' & _).
  exists w'. split; assumption.
Defined.

(** X19: [disconnect] clears the voice channel, so that a [connect]
    after it throws "No voice channel has been set." and changes
    nothing; a second [disconnect] is a no-op.  A player that had a
    voice channel ends in state DISCONNECTED and one voice update with a
    null channel is sent to the gateway. *)
Theorem disconnect_then_connect (g : string) (w : Manager.t) (p : Player.t) :
  Collection.get g (Manager.players w) = Some p ->
  exists w' p',
    PlayerOps.disconnect g w = (Ok tt, w')
    /\ Collection.get g (Manager.players w') = Some p'
    /\ Player.voiceChannel p' = None
    /\ PlayerOps.disconnect g w' = (Ok tt, w')
    /\ PlayerOps.connect g w' = (Throw ErrNoVoiceChannel, w')
    /\ (Player.voiceChannel p = None -> w' = w)
    /\ (Player.voiceChannel p <> None ->
          Player.state p' = DISCONNECTED
          /\ Manager.trace w' = Manager.trace w ++ [Send g None false false]).
Proof.
  intros Hp.
  assert (Hnone : forall w0 p0,
            Collection.get g (Manager.players w0) = Some p0 ->
            Player.voiceChannel p0 = None ->
            PlayerOps.disconnect g w0 = (Ok tt, w0)
            /\ PlayerOps.connect g w0 = (Throw ErrNoVoiceChannel, w0)).
  { intros w0 p0 H0 Hv. unfold PlayerOps.disconnect, PlayerOps.connect.
    rewrite !bind_run, (thisPlayer_run _ _ _ H0), Hv. split; reflexivity. }
  destruct (Player.voiceChannel p) as [vc|] eqn:Hv.
  - unfold PlayerOps.disconnect at 1.
    rewrite bind_run, (thisPlayer_run _ _ _ Hp), Hv.
    rewrite bind_run, (updPlayer_run _ _ _ _ Hp), bind_run, effect_run, bind_run.
    erewrite updPlayer_run by (cbn; apply get_set_eq).
    erewrite updPlayer_run by (cbn; apply get_set_eq).
    eexists. eexists. split; [reflexivity|].
    cbn [Manager.players Manager.set_players Manager.set_trace Manager.trace].
    split; [apply get_set_eq|]. split; [reflexivity|].
    match goal with |- PlayerOps.disconnect g ?w0 = _ /\ _ =>
      destruct (Hnone w0 _ ltac:(cbn; apply get_set_eq) eq_refl) as [H1 H2] end.
    split; [exact H1|]. split; [exact H2|]. split; [discriminate|].
    intros _. split; reflexivity.
  - destruct (Hnone w p Hp Hv) as [H1 H2]. exists w, p.
    split; [exact H1|]. split; [exact Hp|]. split; [exact Hv|].
    split; [exact H1|]. split; [exact H2|]. split; [reflexivity|].
    intros H. contradiction.
Qed.

Lemma disconnect_then_connect_witness :
  let w := Examples.oneNode Infinity in
  Collection.get "1" (Manager.players w) = Some (Examples.player "1" "n1" Examples.queueAB)
  /\ exists w', PlayerOps.disconnect "1" w = (Ok tt, w')
                /\ PlayerOps.connect "1" w' = (Throw ErrNoVoiceChannel, w').
Proof.
  intros w. split; [reflexivity|].
  destruct (disconnect_then_connect "1" w _ eq_refl) as (w' & p' & E & _ & _ & _ & E' & _).
  exists w'. split; assumption.
Defined.

(** X20: [setVoiceChannel] stores the channel before it calls
    [connect]: with the empty string the call throws "No voice channel
    has been set." and yet leaves the empty string as the player's voice
    channel, sending nothing; with a non-empty channel the player ends
    CONNECTED on that channel and one voice update for it is sent. *)
Theorem setVoiceChannel_spec (channel g : string) (w : Manager.t) (p : Player.t) :
  Collection.get g (Manager.players w) = Some p ->
  let r := PlayerMore.setVoiceChannel channel g w in
  (channel = ""%string ->
     fst r = Throw ErrNoVoiceChannel
     /\ Collection.get g (Manager.players (snd r))
        = Some (Player.set_voiceChannel (Some ""%string) p)
     /\ Manager.trace (snd r) = Manager.trace w)
  /\ (channel <> ""%string ->
        fst r = Ok tt
        /\ Collection.get g (Manager.players (snd r))
           = Some (Player.set_state CONNECTED (Player.set_voiceChannel (Some channel) p))
        /\ Manager.trace (snd r)
           = Manager.trace w
             ++ [Send g (Some channel)
                   (default false (Player.o_selfMute (Player.options p)))
                   (default false (Player.o_selfDeafen (Player.options p)))]).
Proof.
  intros Hp r. subst r. unfold PlayerMore.setVoiceChannel.
  rewrite bind_run, (updPlayer_run _ _ _ _ Hp).
  unfold PlayerOps.connect. rewrite bind_run.
  erewrite thisPlayer_run by (cbn; apply get_set_eq).
  cbn [Player.voiceChannel Player.set_voiceChannel truthy].
  split.
  - intros ->. cbn. split; [reflexivity|]. split; [apply get_set_eq|reflexivity].
  - intros Hne. apply String.eqb_neq in Hne. rewrite Hne. cbn [negb].
    rewrite bind_run. erewrite updPlayer_run by (cbn; apply get_set_eq).
    rewrite bind_run, effect_run.
    erewrite updPlayer_run by (cbn; apply get_set_eq).
    cbn [fst snd Manager.players Manager.set_players Manager.set_trace Manager.trace].
    split; [reflexivity|]. split; [|reflexivity].
    rewrite get_set_eq. reflexivity.
Qed.

Lemma setVoiceChannel_spec_witness :
  let w := Examples.oneNode Infinity in
  Collection.get "1" (Manager.players w) = Some (Examples.player "1" "n1" Examples.queueAB)
  /\ fst (PlayerMore.setVoiceChannel "" "1" w) = Throw ErrNoVoiceChannel.
Proof.
  intros w. split; [reflexivity|].
  exact (proj1 (proj1 (setVoiceChannel_spec "" "1" w _ eq_refl) eq_refl)).
Defined.

Lemma play_track_run (answers : list PlayerMore.Closest) (g : string) (w : Manager.t)
    (p : Player.t) (t : Track.t) :
  Collection.get g (Manager.players w) = Some p ->
  TrackUtils.validate (One t) = true ->
  TrackUtils.isUnresolvedTrack t = false ->
  exists w' p',
    PlayerMore.play answers (Some t) g w = (Ok tt, w')
    /\ Collection.get g (Manager.players w') = Some p'
    /\ Queue.current (Player.queue p') = Some t
    /\ Queue.previous (Player.queue p')
       = match Queue.current (Player.queue p) with
         | Some c => Some c
         | None => Queue.previous (Player.queue p)
         end
    /\ Queue.items (Player.queue p') = Queue.items (Player.queue p)
    /\ Player.position p' = 0
    /\ Player.playing p' = true
    /\ Manager.trace w'
       = Manager.trace w
         ++ [Rest (Player.node p)
               (UpdatePlayer (Player.guild p)
                  {| encodedTrack := Track.track t; ud_position := None;
                     ud_volume := Some (Player.volume p); ud_paused := None;
                     ud_filters := None; ud_voice := None |})]
    /\ Manager.db w'
       = if Manager.autoResume (Manager.options w)
         then <[playersKey (Player.guild p) := DbPlayer (PlayerOps.snapshot p')]>
                (Manager.db w)
         else Manager.db w.
Proof.
  intros Hp Hv Hu.
  assert (E : forall a, PlayerMore.play a (Some t) g w
                        = PlayerMore.play [] (Some t) g w).
  { intros a. destruct a; cbn [PlayerMore.play]; [reflexivity|].
    rewrite Hv. rewrite !bind_run, (updPlayer_run _ _ _ _ Hp).
    rewrite !bind_run.
    erewrite !thisPlayer_run by (cbn; apply get_set_eq).
    cbn [Player.queue Player.set_queue Queue.current Queue.set_current].
    rewrite Hu. reflexivity. }
  rewrite E. cbn [PlayerMore.play]. rewrite Hv.
  rewrite bind_run, (updPlayer_run _ _ _ _ Hp), bind_run.
  erewrite thisPlayer_run by (cbn; apply get_set_eq).
  cbn [Player.queue Player.set_queue Queue.current Queue.set_current].
  rewrite Hu. rewrite bind_run.
  erewrite thisPlayer_run by (cbn; apply get_set_eq).
  rewrite bind_run, effect_run, bind_run.
  erewrite updPlayer_run by (cbn; apply get_set_eq).
  rewrite bind_run.
  erewrite updPlayer_run by (cbn; apply get_set_eq).
  unfold PlayerOps.save. rewrite bind_run.
  erewrite thisPlayer_run by (cbn; apply get_set_eq).
  rewrite bind_run. unfold gets at 1. cbv [Datatypes.id].
  cbn [Manager.options Manager.set_players Manager.set_trace].
  destruct (Manager.autoResume (Manager.options w)); cbn [negb].
  - unfold db_set, modify. eexists. eexists. split; [reflexivity|].
    cbn [Manager.players Manager.set_players Manager.set_trace Manager.trace
         Manager.set_db Manager.db].
    split; [apply get_set_eq|].
    destruct (Queue.current (Player.queue p)); repeat split.
  - eexists. eexists. split; [reflexivity|].
    cbn [Manager.players Manager.set_players Manager.set_trace Manager.trace
         Manager.set_db Manager.db].
    split; [apply get_set_eq|].
    destruct (Queue.current (Player.queue p)); repeat split.
Qed.

(** X21: [play].  Without an argument on a player that has no current
    track it throws "No current track." and changes nothing.  With a
    resolved track it succeeds: the track becomes the current one, the
    former current track (if any) becomes the previous one, the queue
    keeps its items, the position is reset to 0 and [playing] set; one
    request with the track's encoded form and the player's volume goes
    to the player's node, and the snapshot of the resulting player is
    saved exactly when [autoResume] is on. *)
Theorem play_spec (answers : list PlayerMore.Closest) (g : string) (w : Manager.t)
    (p : Player.t) :
  Collection.get g (Manager.players w) = Some p ->
  (Queue.current (Player.queue p) = None ->
     PlayerMore.play answers None g w = (Throw ErrNoCurrentTrack, w))
  /\ (forall t,
        TrackUtils.validate (One t) = true ->
        TrackUtils.isUnresolvedTrack t = false ->
        exists w' p',
          PlayerMore.play answers (Some t) g w = (Ok tt, w')
          /\ Collection.get g (Manager.players w') = Some p'
          /\ Queue.current (Player.queue p') = Some t
          /\ Queue.previous (Player.queue p')
             = match Queue.current (Player.queue p) with
               | Some c => Some c
               | None => Queue.previous (Player.queue p)
               end
          /\ Queue.items (Player.queue p') = Queue.items (Player.queue p)
          /\ Player.position p' = 0
          /\ Player.playing p' = true
          /\ Manager.trace w'
             = Manager.trace w
               ++ [Rest (Player.node p)
                     (UpdatePlayer (Player.guild p)
                        {| encodedTrack := Track.track t; ud_position := None;
                           ud_volume := Some (Player.volume p); ud_paused := None;
                           ud_filters := None; ud_voice := None |})]
          /\ Manager.db w'
             = if Manager.autoResume (Manager.options w)
               then <[playersKey (Player.guild p) := DbPlayer (PlayerOps.snapshot p')]>
                      (Manager.db w)
               else Manager.db w).
Proof.
  intros Hp. split.
  - intros Hcur. destruct answers; cbn [PlayerMore.play];
      rewrite bind_run; change (skip w) with (@pair (Result unit) _ (Ok tt) w); cbv iota;
      rewrite bind_run, (thisPlayer_run _ _ _ Hp), Hcur; reflexivity.
  - intros t Hv Hu. now apply play_track_run.
Qed.

Lemma play_spec_witness :
  let w := Examples.oneNode Infinity in
  Collection.get "1" (Manager.players w) = Some (Examples.player "1" "n1" Examples.queueAB)
  /\ TrackUtils.validate (One Examples.tX) = true
  /\ TrackUtils.isUnresolvedTrack Examples.tX = false
  /\ exists w' p',
       PlayerMore.play [] (Some Examples.tX) "1" w = (Ok tt, w')
       /\ Collection.get "1" (Manager.players w') = Some p'
       /\ Queue.current (Player.queue p') = Some Examples.tX
       /\ Queue.previous (Player.queue p') = Some Examples.tA.
Proof.
  intros w. do 3 (split; [reflexivity|]).
  destruct (proj2 (play_spec [] "1" w _ eq_refl) Examples.tX eq_refl eq_refl)
    as (w' & p' & E & Hg & Hc & Hprev & _).
  exists w', p'. repeat split; assumption.
Defined.

(** X22: when the search for the unresolved current track is rejected,
    [play] emits [trackError] for that track and returns normally.  With
    an empty queue nothing else happens: no request is sent and the
    player is unchanged.  With a resolved track at the head of the queue
    that track is played, and it is not taken out of the queue: it is
    the current track and still the first queued one, and the unresolved
    track has become the previous one. *)
Theorem play_rejected_search (answers : list PlayerMore.Closest) (g : string)
    (w : Manager.t) (p : Player.t) (cur : Track.t) :
  Collection.get g (Manager.players w) = Some p ->
  Queue.current (Player.queue p) = Some cur ->
  TrackUtils.isUnresolvedTrack cur = true ->
  (Queue.items (Player.queue p) = [] ->
     PlayerMore.play (PlayerMore.Rejected :: answers) None g w
     = (Ok tt, Manager.set_trace (Manager.trace w ++ [Emit (trackError g (Some cur))]) w))
  /\ (forall next rest,
        Queue.items (Player.queue p) = next :: rest ->
        TrackUtils.validate (One next) = true ->
        TrackUtils.isUnresolvedTrack next = false ->
        exists w' p',
          PlayerMore.play (PlayerMore.Rejected :: answers) None g w = (Ok tt, w')
          /\ Collection.get g (Manager.players w') = Some p'
          /\ Queue.current (Player.queue p') = Some next
          /\ Queue.previous (Player.queue p') = Some cur
          /\ Queue.items (Player.queue p') = next :: rest
          /\ Player.playing p' = true
          /\ Manager.trace w'
             = Manager.trace w
               ++ [Emit (trackError g (Some cur));
                   Rest (Player.node p)
                     (UpdatePlayer (Player.guild p)
                        {| encodedTrack := Track.track next; ud_position := None;
                           ud_volume := Some (Player.volume p); ud_paused := None;
                           ud_filters := None; ud_voice := None |})]).
Proof.
  intros Hp Hcur Hu. split.
  - intros Hitems. cbn [PlayerMore.play].
    rewrite bind_run. change (skip w) with (@pair (Result unit) _ (Ok tt) w). cbv iota.
    rewrite bind_run, (thisPlayer_run _ _ _ Hp), Hcur, Hu, Hitems.
    rewrite bind_run, emit_run. reflexivity.
  - intros next rest Hitems Hv Hnu. cbn [PlayerMore.play].
    rewrite bind_run. change (skip w) with (@pair (Result unit) _ (Ok tt) w). cbv iota.
    rewrite bind_run, (thisPlayer_run _ _ _ Hp), Hcur, Hu, Hitems.
    rewrite bind_run, emit_run.
    set (w1 := Manager.set_trace _ w).
    assert (Hp1 : Collection.get g (Manager.players w1) = Some p) by exact Hp.
    destruct (play_track_run answers g w1 p next Hp1 Hv Hnu)
      as (w' & p' & E & Hg & Hc & Hprev & Hi & _ & Hpl & Htr & _).
    exists w', p'. split; [exact E|]. split; [exact Hg|]. split; [exact Hc|].
    split; [rewrite Hprev, Hcur; reflexivity|]. split; [now rewrite Hi|].
    split; [exact Hpl|]. rewrite Htr. subst w1. cbn. now rewrite <- app_assoc.
Qed.

Lemma play_rejected_search_witness :
  let p := Player.set_queue
             {| Queue.current :=
                  Some {| Track.track := None; Track.title := "U"; Track.author := None;
                          Track.duration := None; Track.identifier := None;
                          Track.sourceName := None; Track.uri := None;
                          Track.symbol := UNRESOLVED_TRACK_SYMBOL |};
                Queue.previous := None; Queue.items := [] |}
             (Examples.player "1" "n1" Examples.queueAB) in
  let w := Manager.set_players [("1"%string, p)] (Examples.oneNode Infinity) in
  Collection.get "1" (Manager.players w) = Some p
  /\ result (PlayerMore.play [PlayerMore.Rejected] None "1") w = Ok tt.
Proof.
  intros p w. split; [reflexivity|].
  unfold result.
  rewrite (proj1 (play_rejected_search [] "1" w p _ eq_refl eq_refl eq_refl) eq_refl).
  reflexivity.
Defined.

(** X23: [Player.destroy()] of a player stored under its guild id: the
    player leaves [manager.players] and its snapshot leaves the store,
    the other players and keys stay; the node is asked to destroy the
    player and [playerDestroy] is emitted; the gateway is told to leave
    only when the player had a voice channel.  Nodes and pending timers,
    the player's dynamic-repeat interval among them, are left as they
    are. *)
Theorem player_destroy_spec (g : string) (w : Manager.t) (p : Player.t) :
  Collection.get g (Manager.players w) = Some p ->
  Player.guild p = g ->
  exists w',
    PlayerOps.destroy true g w = (Ok tt, w')
    /\ Collection.get g (Manager.players w') = None
    /\ (forall g', g' <> g ->
          Collection.get g' (Manager.players w') = Collection.get g' (Manager.players w))
    /\ Manager.db w' !! playersKey g = None
    /\ (forall k, k <> playersKey g -> Manager.db w' !! k = Manager.db w !! k)
    /\ Manager.nodes w' = Manager.nodes w
    /\ Manager.timers w' = Manager.timers w
    /\ Manager.trace w'
       = Manager.trace w
         ++ (match Player.voiceChannel p with
             | Some _ => [Send g None false false]
             | None => []
             end)
         ++ [Rest (Player.node p) (DestroyPlayer g); Emit (playerDestroy g)].
Proof.
  intros Hp Hg.
  destruct (playerDestroy_run g w p Hp Hg) as (w' & E & Hget & Hdb & Hn & Ht & _ & Htr).
  exists w'. split; [exact E|]. split.
  { rewrite Hget. now rewrite decide_True. }
  split.
  { intros g' Hne. rewrite Hget. now rewrite decide_False. }
  rewrite Hdb. split; [apply lookup_delete_eq|].
  split; [intros k Hk; now rewrite lookup_delete_ne|].
  repeat split; assumption.
Qed.

Lemma player_destroy_spec_witness :
  let w := Examples.oneNode Infinity in
  Collection.get "1" (Manager.players w) = Some (Examples.player "1" "n1" Examples.queueAB)
  /\ Player.guild (Examples.player "1" "n1" Examples.queueAB) = "1"%string
  /\ exists w', PlayerOps.destroy true "1" w = (Ok tt, w')
                /\ Collection.get "1" (Manager.players w') = None.
Proof.
  intros w. do 2 (split; [reflexivity|]).
  destruct (player_destroy_spec "1" w _ eq_refl eq_refl) as (w' & E & Hnone & _).
  exists w'. split; assumption.
Defined.

(** ** The choice of nodes *)

Lemma insert_sorted_perm {V} (before : V -> V -> bool) x (c : Collection.t V) :
  Collection.insert_sorted before x c ≡ₚ x :: c.
Proof.
  induction c as [|y c IH]; cbn; [reflexivity|].
  destruct (before (snd y) (snd x)); [|reflexivity].
  rewrite IH. apply Permutation_swap.
Qed.

Lemma sort_perm {V} (before : V -> V -> bool) (c : Collection.t V) :
  Collection.sort before c ≡ₚ c.
Proof.
  unfold Collection.sort. induction c as [|x c IH]; cbn; [reflexivity|].
  rewrite insert_sorted_perm. now rewrite IH.
Qed.

Lemma insert_sorted_sorted {V} (key : V -> Z) x (c : Collection.t V) :
  StronglySorted (fun a b => key (snd a) <= key (snd b)) c ->
  StronglySorted (fun a b => key (snd a) <= key (snd b))
    (Collection.insert_sorted (fun a b => key a - key b <? 0) x c).
Proof.
  induction 1 as [|y c Hs IH Hall]; cbn.
  - repeat constructor.
  - destruct (key (snd y) - key (snd x) <? 0) eqn:E.
    + apply Z.ltb_lt in E. constructor; [exact IH|].
      eapply Forall_forall. intros z Hz.
      rewrite insert_sorted_perm in Hz. apply elem_of_cons in Hz as [->|Hz]; [lia|].
      eapply Forall_forall in Hall; eauto.
    + apply Z.ltb_ge in E. constructor; [constructor; assumption|].
      constructor; [lia|].
      eapply Forall_impl; [exact Hall|]. cbn. intros z Hz. lia.
Qed.

Lemma sort_sorted {V} (key : V -> Z) (c : Collection.t V) :
  StronglySorted (fun a b => key (snd a) <= key (snd b))
    (Collection.sort (fun a b => key a - key b <? 0) c).
Proof.
  unfold Collection.sort. induction c as [|x c IH]; cbn; [constructor|].
  now apply insert_sorted_sorted.
Qed.

(** X24: [leastUsedNodes] holds exactly the connected nodes of the
    manager, each once, in ascending order of their playing players; its
    first entry, if there is one, is a connected node that no connected
    node undercuts. *)
Theorem leastUsedNodes_sorted (w : Manager.t) :
  let r := ManagerOps.leastUsedNodes w in
  r ≡ₚ Collection.filter Node.connected (Manager.nodes w)
  /\ StronglySorted (fun a b => playingPlayersOf a <= playingPlayersOf b) r
  /\ (forall n, Collection.first r = Some n ->
        Node.connected n = true
        /\ forall kv, kv ∈ Manager.nodes w -> Node.connected (snd kv) = true ->
             Node.playingPlayers (Node.stats n) <= playingPlayersOf kv).
Proof.
  intros r.
  assert (Hperm : r ≡ₚ Collection.filter Node.connected (Manager.nodes w))
    by apply sort_perm.
  assert (Hsort : StronglySorted (fun a b => playingPlayersOf a <= playingPlayersOf b) r)
    by apply (sort_sorted (fun n => Node.playingPlayers (Node.stats n))).
  split; [exact Hperm|]. split; [exact Hsort|].
  intros n Hfirst. unfold Collection.first in Hfirst.
  destruct r as [|[k n0] r'] eqn:Er; [discriminate|].
  cbn in Hfirst. injection Hfirst as ->.
  assert (Hin : forall kv, kv ∈ (k, n) :: r' <->
                  kv ∈ Manager.nodes w /\ Node.connected (snd kv) = true).
  { intros kv. rewrite Hperm. unfold Collection.filter.
    rewrite !list_elem_of_In, filter_In. tauto. }
  split.
  - apply (Hin (k, n)). apply elem_of_cons. now left.
  - intros kv Hkv Hc. assert (H : kv ∈ (k, n) :: r') by (apply Hin; auto).
    apply StronglySorted_inv in Hsort as [_ Hall].
    apply elem_of_cons in H as [->|H]; [unfold playingPlayersOf; cbn; lia|].
    eapply Forall_forall in Hall; eauto.
Qed.

(** ** [Manager.create] and [Manager.createNode] *)

Lemma create_existing o w p :
  Collection.get (Player.o_guild o) (Manager.players w) = Some p ->
  ManagerOps.create o w = (Ok (Player.o_guild o), w).
Proof.
  intros Hp. unfold ManagerOps.create, getPlayer, gets. rewrite bind_run, Hp. reflexivity.
Qed.

(** X25: a player is created once per guild.  A [create] that returns
    does so with the guild id as key and a player stored under it; on a
    guild that already had a player it changes nothing, whatever the
    other options say; and every later [create] for that guild returns
    the same key without changing the manager or emitting
    [playerCreate] again. *)
Theorem create_idempotent (o : Player.Options) (w w' : Manager.t) (g : string) :
  ManagerOps.create o w = (Ok g, w') ->
  g = Player.o_guild o
  /\ is_Some (Collection.get g (Manager.players w'))
  /\ (is_Some (Collection.get g (Manager.players w)) -> w' = w)
  /\ (forall o', Player.o_guild o' = g -> ManagerOps.create o' w' = (Ok g, w')).
Proof.
  intros E.
  assert (H : g = Player.o_guild o
              /\ is_Some (Collection.get g (Manager.players w'))
              /\ (is_Some (Collection.get g (Manager.players w)) -> w' = w)).
  { revert E. unfold ManagerOps.create, getPlayer. rewrite bind_run. unfold gets at 1.
    destruct (Collection.get (Player.o_guild o) (Manager.players w)) as [p|] eqn:Hp.
    - intros [= <- <-]. rewrite Hp. eauto.
    - rewrite bind_run. unfold lift.
      destruct (ManagerOps.playerCheck o); [|discriminate].
      rewrite bind_run. unfold gets at 1. cbv [Datatypes.id].
      match goal with |- context [match ?x with Some n => _ | None => throw _ end] =>
        destruct x as [n|] end; [|discriminate].
      unfold putPlayer. rewrite bind_run. unfold modify at 1.
      rewrite bind_run, emit_run. intros [= <- <-].
      split; [reflexivity|]. cbn. rewrite get_set_eq.
      split; [eauto|]. rewrite Hp. intros [? ?]. discriminate. }
  destruct H as (-> & [p Hp] & Hsame). split; [reflexivity|]. split; [eauto|].
  split; [exact Hsame|]. intros o' Ho'. rewrite <- Ho' in *. now apply (create_existing o' w' p).
Qed.

Lemma create_idempotent_witness :
  let o := Examples.playerOptions "7" in
  let w := Examples.oneNode Infinity in
  let w' := exec (ManagerOps.create o) w in
  ManagerOps.create o w = (Ok "7"%string, w')
  /\ ManagerOps.create o w' = (Ok "7"%string, w').
Proof.
  intros o w w'.
  assert (E : ManagerOps.create o w = (Ok "7"%string, w')) by reflexivity.
  split; [exact E|].
  exact (proj2 (proj2 (proj2 (create_idempotent o w w' "7" E))) o eq_refl).
Defined.








(** ** Filters *)

(** X29: the status flags of [Filters].  A preset method sets its own
    flag and leaves every other flag as it was, so flags only ever
    accumulate: the flag of an earlier preset stays set when a later
    preset overwrites its settings.  Each preset sends one update
    request, [vaporwave] two.  [clearFilters] stores a fresh [Filters]
    object in the player, while the object it ran on ends with every
    category cleared, its volume kept, every flag reset except
    [karaoke], which the call of [setKaraoke(null)] has set again; it
    sends seven requests, the last one with the cleared categories. *)
Theorem filter_status_flags (f : FiltersOps.t) :
  (forall m,
     let f' := fst (FiltersOps.preset m f) in
     FiltersOps.getFilterStatus (FiltersOps.flagOf m) f' = true
     /\ (forall n, n <> FiltersOps.flagOf m ->
           FiltersOps.getFilterStatus n f' = FiltersOps.getFilterStatus n f)
     /\ length (snd (FiltersOps.preset m f))
        = match m with FiltersOps.PVaporwave => 2%nat | _ => 1%nat end)
  /\ (forall m m',
        FiltersOps.getFilterStatus (FiltersOps.flagOf m)
          (fst (FiltersOps.preset m' (fst (FiltersOps.preset m f)))) = true)
  /\ (let '(this1, stored, sent) := FiltersOps.clearFilters f in
      stored = FiltersOps.new
      /\ FiltersOps.values this1
         = Filters.mk None [] None None None None (Filters.volume (FiltersOps.values f))
      /\ FiltersOps.getFilterStatus FiltersOps.karaoke this1 = true
      /\ (forall n, n <> FiltersOps.karaoke -> FiltersOps.getFilterStatus n this1 = false)
      /\ length sent = 7%nat
      /\ last sent = Some (FiltersOps.payload this1)).
Proof.
  assert (Hone : forall m g,
            FiltersOps.getFilterStatus (FiltersOps.flagOf m) (fst (FiltersOps.preset m g)) = true
            /\ (forall n, n <> FiltersOps.flagOf m ->
                  FiltersOps.getFilterStatus n (fst (FiltersOps.preset m g))
                  = FiltersOps.getFilterStatus n g)).
  { intros m g. destruct m; cbn; (split; [reflexivity|]);
      intros n Hn; destruct n; solve [reflexivity | contradiction]. }
  split; [|split].
  - intros m f'. subst f'. destruct (Hone m f) as [H1 H2].
    split; [exact H1|]. split; [exact H2|]. destruct m; reflexivity.
  - intros m m'. destruct (decide (FiltersOps.flagOf m = FiltersOps.flagOf m')) as [E|E].
    + rewrite E. apply Hone.
    + rewrite (proj2 (Hone m' _)) by exact E. apply Hone.
  - cbn. split; [reflexivity|]. split; [reflexivity|]. split; [reflexivity|].
    split; [|split; reflexivity].
    intros n Hn. destruct n; solve [reflexivity | contradiction].
Qed.

(** ** Resolving a track *)

(** X30: [getClosestTrack] picks from the search result.  For an
    unresolved track the answer is always one of the tracks of the
    search result, and it is [undefined] only when the search found no
    track; when neither the author and title nor the duration select a
    track, it is the first track of the result.  For a track that is not
    unresolved the method throws. *)
Theorem getClosestTrack_member (test : string -> option string -> bool)
    (unresolvedTrack : Track.t) (tracks : list Track.t) :
  (TrackUtils.isUnresolvedTrack unresolvedTrack = false ->
     Closest.getClosestTrack test unresolvedTrack tracks = None)
  /\ (TrackUtils.isUnresolvedTrack unresolvedTrack = true ->
        exists r,
          Closest.getClosestTrack test unresolvedTrack tracks = Some r
          /\ match r with
             | Some t => t ∈ tracks
             | None => tracks = []
             end
          /\ ((Track.author unresolvedTrack = None \/ Track.author unresolvedTrack = Some ""%string)
              /\ (Track.duration unresolvedTrack = None \/ Track.duration unresolvedTrack = Some 0)
              -> r = head tracks)).
Proof.
  unfold Closest.getClosestTrack. split; [intros ->; reflexivity|]. intros ->. cbn [negb].
  assert (Hfind : forall (P : Track.t -> bool) t, List.find P tracks = Some t -> t ∈ tracks).
  { intros P t H. apply find_some in H as [H _]. now apply list_elem_of_In. }
  assert (Hhead : match head tracks with Some t => t ∈ tracks | None => tracks = [] end).
  { destruct tracks; cbn; [reflexivity|]. apply elem_of_cons. now left. }
  match goal with |- context [match ?x with Some t => Some (Some t) | None => _ end] =>
    destruct x as [t|] eqn:Ea end.
  - exists (Some t). split; [reflexivity|]. split.
    + destruct (Track.author unresolvedTrack) as [a|]; [|discriminate].
      destruct (String.eqb a ""); [discriminate|]. eapply Hfind; eauto.
    + intros [[Ha|Ha] _]; rewrite Ha in Ea; discriminate.
  - match goal with |- context [match ?x with Some t => Some (Some t) | None => _ end] =>
      destruct x as [t|] eqn:Ed end.
    + exists (Some t). split; [reflexivity|]. split.
      * destruct (Track.duration unresolvedTrack) as [d|]; [|discriminate].
        destruct (d =? 0); [discriminate|]. eapply Hfind; eauto.
      * intros [_ [Hd|Hd]]; rewrite Hd in Ed; discriminate.
    + exists (head tracks). split; [reflexivity|]. split; [exact Hhead|reflexivity].
Qed.

Lemma getClosestTrack_member_witness :
  let u := {| Track.track := None; Track.title := "U"; Track.author := None;
              Track.duration := None; Track.identifier := None;
              Track.sourceName := None; Track.uri := None;
              Track.symbol := UNRESOLVED_TRACK_SYMBOL |} in
  TrackUtils.isUnresolvedTrack u = true
  /\ exists r, Closest.getClosestTrack (fun _ _ => false) u [Examples.tA; Examples.tB] = Some r
               /\ r = Some Examples.tA.
Proof.
  intros u. split; [reflexivity|].
  destruct (proj2 (getClosestTrack_member (fun _ _ => false) u [Examples.tA; Examples.tB])
              eq_refl) as (r & E & _ & Hh).
  exists r. split; [exact E|]. apply Hh. split; left; reflexivity.
Defined.
